(** * Persian Transcriber: command line, batch loops and logging set-up

    A shallow embedding of
    - [src/persian_transcriber/cli.py] ([create_parser], [validate_input],
      [main]),
    - [src/persian_transcriber/utils/logging.py] ([_load_config],
      [ColoredFormatter], [setup_logging], [get_logger], [set_log_level],
      [disable_logging], [enable_logging]),
    - the sequential batch loops of [examples/batch_processing.py]
      ([example_1_transcribe_directory], [example_4_incremental_output]),
    - the version reading of [setup.py],
    followed by the properties of the specification that these functions
    decide and by further properties of the same functions.

    Conventions.  Python [str] values are UTF-8 byte strings; a Python
    [dict] with string keys is a [gmap string _]; a call that may raise is
    a [PyResult]; output and calls to collaborators that live outside these
    files are recorded, in program order, in a trace of [event]s.  Paths
    are POSIX paths.  What the standard library decides from tables or from
    the machine (the Unicode case tables, the encoding of standard output,
    the file system, the attributes of the [logging] module) is taken from
    records of such answers: [Unicode], [Stdout], [Logging.Env],
    [Cli.World]. *)

From Stdlib Require Import ZArith String Ascii List Bool Lia DecimalString.
From Stdlib Require QArith.
From stdpp Require Import base option list sorting gmap strings.

Local Open Scope string_scope.
Local Open Scope list_scope.

(** ** Python exceptions and results *)

(** The exception classes that the handlers of the sources tell apart.  A
    constructor stands for the class and its subclasses;
    [OtherException] is any other subclass of [Exception]. *)
Inductive exc_class : Type :=
| FileNotFoundError
| ValueError
| KeyboardInterrupt
| OtherException (cls : string).

(** A raised exception: [str(e)] is its message.  [SystemExit] carries the
    exit status handed to [sys.exit]. *)
Inductive exn : Type :=
| Exc (cls : exc_class) (msg : string)
| SystemExit (code : Z).

(** [isinstance(e, Exception)]: [KeyboardInterrupt] and [SystemExit] derive
    from [BaseException] only. *)
Definition is_Exception (e : exn) : bool :=
  match e with
  | Exc KeyboardInterrupt _ => false
  | Exc _ _ => true
  | SystemExit _ => false
  end.

Definition str_exn (e : exn) : string :=
  match e with
  | Exc _ msg => msg
  | SystemExit code => NilZero.string_of_int (Z.to_int code)
  end.

Inductive PyResult (A : Type) : Type :=
| Returned (a : A)
| Raised (e : exn).
Arguments Returned {A} a.
Arguments Raised {A} e.

(** ** Python values *)

Inductive pyval : Type :=
| PyNone
| PyBool (b : bool)
| PyInt (z : Z)
| PyFloat (q : QArith_base.Q)
| PyStr (s : string).

(** Truth value of an object, as tested by [if x] and [not x]. *)
Definition py_truthy (v : pyval) : bool :=
  match v with
  | PyNone => false
  | PyBool b => b
  | PyInt z => negb (Z.eqb z 0)
  | PyFloat q => negb (Z.eqb (QArith_base.Qnum q) 0)
  | PyStr s => negb (String.eqb s "")
  end.

Definition str_of_nat (n : nat) : string := NilZero.string_of_uint (Nat.to_uint n).
Definition str_of_Z (z : Z) : string := NilZero.string_of_int (Z.to_int z).

(** ** String methods *)

(** [s.startswith(p)] *)
Definition startswith (p s : string) : bool := String.prefix p s.

Definition lower_ascii (c : ascii) : ascii :=
  let n := nat_of_ascii c in
  if (65 <=? n)%nat && (n <=? 90)%nat then ascii_of_nat (n + 32) else c.

Definition upper_ascii (c : ascii) : ascii :=
  let n := nat_of_ascii c in
  if (97 <=? n)%nat && (n <=? 122)%nat then ascii_of_nat (n - 32) else c.

Fixpoint map_string (f : ascii -> ascii) (s : string) : string :=
  match s with
  | EmptyString => EmptyString
  | String c r => String (f c) (map_string f r)
  end.

Definition is_ascii_char (c : ascii) : bool := (nat_of_ascii c <? 128)%nat.

(** [s.isascii()] *)
Fixpoint is_ascii (s : string) : bool :=
  match s with
  | EmptyString => true
  | String c r => is_ascii_char c && is_ascii r
  end.

(** [str.lower()] and [str.upper()] follow the Unicode case tables.  On a
    string of ASCII characters they change the ASCII letters and nothing
    else; what they give for a string with other characters is taken from
    these two functions. *)
Record Unicode : Type := {
  unicode_lower : string -> string;
  unicode_upper : string -> string
}.

(** [s.lower()] and [s.upper()] *)
Definition lower (u : Unicode) (s : string) : string :=
  if is_ascii s then map_string lower_ascii s else unicode_lower u s.

Definition upper (u : Unicode) (s : string) : string :=
  if is_ascii s then map_string upper_ascii s else unicode_upper u s.

(** [s.replace(old, new)] for a non-empty [old]: every non-overlapping
    occurrence, scanning from the left. *)
Fixpoint replace_fuel (fuel : nat) (old new s : string) : string :=
  match fuel with
  | O => s
  | S fuel' =>
      match s with
      | EmptyString => EmptyString
      | String c r =>
          if String.prefix old s
          then new ++ replace_fuel fuel' old new
                 (String.substring (String.length old) (String.length s - String.length old) s)
          else String c (replace_fuel fuel' old new r)
      end
  end.

Definition replace (old new s : string) : string :=
  replace_fuel (S (String.length s)) old new s.

(** [s.split(sep)] for a one-character separator. *)
Fixpoint split_on (sep : ascii) (s : string) : list string :=
  match s with
  | EmptyString => [EmptyString]
  | String c r =>
      match split_on sep r with
      | [] => [String c EmptyString]
      | w :: ws => if Ascii.eqb c sep then EmptyString :: w :: ws else String c w :: ws
      end
  end.

(** [s.rfind(".")]: the index of the last dot, if there is one. *)
Fixpoint rfind_dot (s : string) : option nat :=
  match s with
  | EmptyString => None
  | String c r =>
      match rfind_dot r with
      | Some i => Some (S i)
      | None => if Ascii.eqb c "." then Some 0%nat else None
      end
  end.

(** In UTF-8 a byte [10xxxxxx] continues the character before it. *)
Definition is_continuation (c : ascii) : bool :=
  let n := nat_of_ascii c in (128 <=? n)%nat && (n <? 192)%nat.

(** [s[:n]]: the bytes of the first [n] characters. *)
Fixpoint take_chars (n : nat) (s : string) : string :=
  match s with
  | EmptyString => EmptyString
  | String c r =>
      if is_continuation c then String c (take_chars n r)
      else match n with
           | O => EmptyString
           | S n' => String c (take_chars n' r)
           end
  end.

(** White space of [str.strip()], that is the characters for which
    [str.isspace()] holds: among the ASCII characters, *)
Definition is_space (c : ascii) : bool :=
  let n := nat_of_ascii c in
  ((9 <=? n)%nat && (n <=? 13)%nat) || ((28 <=? n)%nat && (n <=? 32)%nat).

Definition bytes (l : list nat) : string :=
  fold_right (fun n s => String (ascii_of_nat n) s) EmptyString l.

(** and beyond them U+0085, U+00A0, U+1680, U+2000 to U+200A, U+2028,
    U+2029, U+202F, U+205F and U+3000, here in UTF-8. *)
Definition unicode_spaces : list string :=
  map bytes
    [[194; 133]; [194; 160]; [225; 154; 128];
     [226; 128; 128]; [226; 128; 129]; [226; 128; 130]; [226; 128; 131];
     [226; 128; 132]; [226; 128; 133]; [226; 128; 134]; [226; 128; 135];
     [226; 128; 136]; [226; 128; 137]; [226; 128; 138];
     [226; 128; 168]; [226; 128; 169]; [226; 128; 175]; [226; 129; 159];
     [227; 128; 128]].

(** The string is one white-space character. *)
Definition is_space_char (s : string) : bool :=
  match s with
  | String c EmptyString => is_space c
  | _ => existsb (String.eqb s) unicode_spaces
  end.

(** [s] without its first character, when that is white space. *)
Definition after_space (s : string) : option string :=
  match s with
  | EmptyString => None
  | String c r =>
      if is_space c then Some r
      else
        match List.find (fun sp => String.prefix sp s) unicode_spaces with
        | Some sp =>
            Some (String.substring (String.length sp) (String.length s - String.length sp) s)
        | None => None
        end
  end.

Fixpoint lstrip_fuel (fuel : nat) (s : string) : string :=
  match fuel with
  | O => s
  | S fuel' =>
      match after_space s with
      | Some r => lstrip_fuel fuel' r
      | None => s
      end
  end.

(** [s.lstrip()] and [s.rstrip()] *)
Definition lstrip (s : string) : string := lstrip_fuel (String.length s) s.

Fixpoint rstrip (s : string) : string :=
  match s with
  | EmptyString => EmptyString
  | String c r =>
      let kept := String c (rstrip r) in
      if is_space_char kept then EmptyString else kept
  end.

(** [s.strip()] *)
Definition strip (s : string) : string := rstrip (lstrip s).

(** [s.strip(chars)] for characters [chars] of ASCII, which [p] accepts:
    they are removed from both ends. *)
Fixpoint lstrip_by (p : ascii -> bool) (s : string) : string :=
  match s with
  | EmptyString => EmptyString
  | String c r => if p c then lstrip_by p r else s
  end.

Fixpoint rstrip_by (p : ascii -> bool) (s : string) : string :=
  match s with
  | EmptyString => EmptyString
  | String c r =>
      match rstrip_by p r with
      | EmptyString => if p c then EmptyString else String c EmptyString
      | r' => String c r'
      end
  end.

Definition strip_by (p : ascii -> bool) (s : string) : string := rstrip_by p (lstrip_by p s).

(** [sep.join(l)] *)
Fixpoint join (sep : string) (l : list string) : string :=
  match l with
  | [] => ""
  | [x] => x
  | x :: r => x ++ sep ++ join sep r
  end.

(** ** pathlib *)

(** The components of a POSIX path: empty components and ["."] are dropped
    when a [Path] is built. *)
Definition path_parts (p : string) : list string :=
  filter (fun x => x <> "" /\ x <> ".") (split_on "/" p).

(** The root of a POSIX path: two leading slashes are kept, one or three
    and more are one. *)
Definition path_root (p : string) : string :=
  if startswith "//" p && negb (startswith "///" p) then "//"
  else if startswith "/" p then "/"
  else "".

(** [Path(p)], as the string [str(Path(p))] by which the object is known
    from then on. *)
Definition Path (p : string) : string :=
  let s := (path_root p ++ join "/" (path_parts p))%string in
  if String.eqb s "" then "." else s.

(** [Path(p).name] *)
Definition path_name (p : string) : string := List.last (path_parts p) "".

(** [Path(p).suffix]: [name[i:]] when [0 < i < len(name) - 1] for
    [i = name.rfind(".")], else the empty string. *)
Definition path_suffix (p : string) : string :=
  let name := path_name p in
  match rfind_dot name with
  | Some i =>
      if (0 <? i)%nat && (i <? String.length name - 1)%nat
      then String.substring i (String.length name - i) name
      else ""
  | None => ""
  end.

(** ** Traces *)

(** Why [argparse] rejects a command line. *)
Inductive usage_error : Type :=
| ExpectedOneArgument (option_string : string)
| InvalidChoice (option_string value : string)
| UnrecognizedArguments (extras : list string).

(** What a run does that its caller can observe, besides its result. *)
Inductive event : Type :=
| Print (line : string)
| PrintHelp
| PrintVersion (line : string)
| UsageError (err : usage_error)
| LogError (msg : string)
| LogException (msg : string)
| CallTranscribeFile (path : string) (output_path : option string) (save_output : option bool)
| CallScanAndTranscribe (path : string) (recursive skip_existing : bool)
    (output_directory : option string) (progress_callback : bool).

(** The paths handed to [transcribe_file], in the order of the calls. *)
Definition transcribe_calls (t : list event) : list string :=
  omap (fun ev => match ev with CallTranscribeFile p _ _ => Some p | _ => None end) t.

(** A computation that writes a trace and returns or raises. *)
Definition M (A : Type) : Type := list event * PyResult A.

Definition raise {A} (e : exn) : M A := ([], Raised e).
Definition emit (ev : event) : M unit := ([ev], Returned tt).
Definition lift {A} (r : PyResult A) : M A := ([], r).

#[export] Instance M_ret : MRet M := fun A a => ([], Returned a).

#[export] Instance M_bind : MBind M := fun A B f m =>
  match m with
  | (t, Returned a) => let '(t', r) := f a in (t ++ t', r)
  | (t, Raised e) => (t, Raised e)
  end.

(** Standard output, a text stream that stays open for the whole run.
    [print] encodes its text for the stream before it writes anything; a
    text of ASCII characters is in every encoding that a stream can have,
    and for a text with other characters the stream says whether it lacks
    one of them, with the message of the [UnicodeEncodeError]. *)
Record Stdout : Type := {
  encode_error : string -> option string
}.

(** [print(s)]: the line is written, or [UnicodeEncodeError], a
    [ValueError], is raised and nothing is written. *)
Definition print (out : Stdout) (s : string) : M unit :=
  if is_ascii s then emit (Print s)
  else match encode_error out s with
       | Some msg => raise (Exc ValueError msg)
       | None => emit (Print s)
       end.

(** The stream takes the line. *)
Definition writes (out : Stdout) (s : string) : Prop := print out s = emit (Print s).

(** ** Small helpers *)

Definition nl : string := String (ascii_of_nat 10) EmptyString.

(** [sorted(l)] on strings: code point order, which on UTF-8 is byte order. *)
Definition str_le (a b : string) : Prop := String.leb a b = true.

#[export] Instance str_le_dec : RelDecision str_le.
Proof. intros a b. unfold str_le. apply _. Defined.

Definition sorted (l : list string) : list string := merge_sort str_le l.

(** A Python [dict] with string keys. *)
Abbreviation dict := (gmap string pyval).

(** [key in d] *)
Definition has_key (key : string) (d : dict) : bool := bool_decide (is_Some (d !! key)).

(** ** The result of one transcription

    [transcribe_file] lives in [transcriber.py]; its callers in these files
    read ["text"] by subscript and the other keys through [dict.get]. *)
Record transcription : Type := {
  text : string;
  duration : option QArith_base.Q;
  processing_time : option QArith_base.Q;
  output_path : option string
}.

(** * examples/batch_processing.py *)

Module BatchExample.

(** The dictionary appended after a successful call. *)
Definition success_entry (audio_file : string) (result : transcription) : dict :=
  <["file" := PyStr (path_name audio_file)]>
  (<["text" := PyStr (text result)]>
  (<["duration" := match duration result with Some d => PyFloat d | None => PyInt 0 end]>
  (<["success" := PyBool true]> ∅))).

(** The dictionary appended by the [except Exception as e] branch. *)
Definition failure_entry (audio_file : string) (e : exn) : dict :=
  <["file" := PyStr (path_name audio_file)]>
  (<["error" := PyStr (str_exn e)]>
  (<["success" := PyBool false]> ∅)).

(** The lines that the loop prints. *)
Definition processing_line (total i : nat) (audio_file : string) : string :=
  nl ++ "[" ++ str_of_nat i ++ "/" ++ str_of_nat total ++ "] Processing: "
  ++ path_name audio_file.

Definition success_line (result : transcription) : string :=
  "✓ Success: " ++ take_chars 50 (text result) ++ "...".

Definition failure_line (e : exn) : string := "✗ Failed: " ++ str_exn e.

(** The [except Exception as e] clause, entered with [results] as the
    [try] block left it: the line is printed first, then the failure record
    is appended.  An exception that is not an [Exception] is not caught, and
    neither is one raised by the [print] of the clause. *)
Definition handler (out : Stdout) (audio_file : string) (results : list dict) (e : exn)
    : M (list dict) :=
  if is_Exception e
  then print out (failure_line e);;
       mret (results ++ [failure_entry audio_file e])
  else raise e.

(** One turn of the [for i, audio_file in enumerate(audio_files, 1)] loop
    of [example_1_transcribe_directory], from [results] to [results] as the
    turn leaves it.  The first [print] is outside the [try] statement; in
    the [try] block the success record is appended before its line is
    printed, so when that [print] raises, the clause runs on a list that
    already has the record. *)
Definition example_1_item (out : Stdout)
    (transcribe_file : string -> PyResult transcription)
    (total i : nat) (audio_file : string) (results : list dict) : M (list dict) :=
  print out (processing_line total i audio_file);;
  emit (CallTranscribeFile audio_file None None);;
  match transcribe_file audio_file with
  | Returned result =>
      let results := results ++ [success_entry audio_file result] in
      match print out (success_line result) with
      | (t, Returned _) => (t, Returned results)
      | (t, Raised e) => (t, Returned tt) ≫= fun _ => handler out audio_file results e
      end
  | Raised e => handler out audio_file results e
  end.

Fixpoint example_1_loop (out : Stdout) (transcribe_file : string -> PyResult transcription)
    (total i : nat) (audio_files : list string) (results : list dict) : M (list dict) :=
  match audio_files with
  | [] => mret results
  | audio_file :: rest =>
      results ← example_1_item out transcribe_file total i audio_file results;
      example_1_loop out transcribe_file total (S i) rest results
  end.

(** [results] after the loop, started empty. *)
Definition example_1_results (out : Stdout)
    (transcribe_file : string -> PyResult transcription)
    (audio_files : list string) : M (list dict) :=
  example_1_loop out transcribe_file (length audio_files) 1 audio_files [].

(** What a turn appends for a file, given how the call for it ends. *)
Definition outcome_entry (audio_file : string) (r : PyResult transcription) : dict :=
  match r with
  | Returned result => success_entry audio_file result
  | Raised e => failure_entry audio_file e
  end.

(** The line that a turn prints after the call, given how it ends. *)
Definition outcome_line (r : PyResult transcription) : string :=
  match r with
  | Returned result => success_line result
  | Raised e => failure_line e
  end.

(** No call interrupts the run: whatever a call raises is an
    [Exception]. *)
Definition only_Exceptions (transcribe_file : string -> PyResult transcription)
    (audio_files : list string) : Prop :=
  ∀ g e, g ∈ audio_files → transcribe_file g = Raised e → is_Exception e = true.

(** Standard output takes the two lines of every turn. *)
Definition lines_written (out : Stdout)
    (transcribe_file : string -> PyResult transcription) (audio_files : list string) : Prop :=
  ∀ i g, audio_files !! i = Some g →
    writes out (processing_line (length audio_files) (S i) g)
    ∧ writes out (outcome_line (transcribe_file g)).

End BatchExample.

(** * src/persian_transcriber/utils/logging.py *)

Module Logging.

Definition DEFAULT_FORMAT : string := "%(asctime)s | %(levelname)-8s | %(name)s | %(message)s".
Definition DEFAULT_DATE_FORMAT : string := "%Y-%m-%d %H:%M:%S".
Definition CONSOLE_FORMAT : string := "%(levelname)-8s | %(message)s".

(** The numeric levels of the standard [logging] module. *)
Definition NOTSET : Z := 0.
Definition DEBUG : Z := 10.
Definition INFO : Z := 20.
Definition WARNING : Z := 30.
Definition ERROR : Z := 40.
Definition CRITICAL : Z := 50.

(** The level constants of the module, by name. *)
Definition level_constant (name : string) : option Z :=
  if String.eqb name "CRITICAL" then Some CRITICAL
  else if String.eqb name "FATAL" then Some CRITICAL
  else if String.eqb name "ERROR" then Some ERROR
  else if String.eqb name "WARNING" then Some WARNING
  else if String.eqb name "WARN" then Some WARNING
  else if String.eqb name "INFO" then Some INFO
  else if String.eqb name "DEBUG" then Some DEBUG
  else if String.eqb name "NOTSET" then Some NOTSET
  else None.

(** An object handed to [setLevel]: a number, which becomes the level, or
    something that [setLevel] refuses with an exception. *)
Inductive level_object : Type :=
| IntLevel (n : Z)
| NoLevel (e : exn).

(** The logging configuration dictionary, with the keys of
    [DEFAULT_CONFIG]. *)
Record LogConfig : Type := {
  cfg_level : string;
  cfg_log_file_path : option string;
  cfg_format : string;
  cfg_date_format : string;
  cfg_use_colors : bool;
  cfg_colors : gmap string string
}.

Definition DEFAULT_CONFIG : LogConfig := {|
  cfg_level := "INFO";
  cfg_log_file_path := None;
  cfg_format := DEFAULT_FORMAT;
  cfg_date_format := DEFAULT_DATE_FORMAT;
  cfg_use_colors := true;
  cfg_colors :=
    <["DEBUG" := "cyan"]> (<["INFO" := "green"]> (<["WARNING" := "yellow"]>
    (<["ERROR" := "red"]> (<["CRITICAL" := "red"]> ∅))))
|}.

(** The [logging] section of a [config.yaml]: each key of
    [DEFAULT_CONFIG] may be present or absent ([log_file_path] may be
    present and null). *)
Record LogOverrides : Type := {
  yaml_level : option string;
  yaml_log_file_path : option (option string);
  yaml_format : option string;
  yaml_date_format : option string;
  yaml_use_colors : option bool;
  yaml_colors : option (gmap string string)
}.

(** [for key in DEFAULT_CONFIG: if key in logging_config: config[key] =
    logging_config[key]] *)
Definition apply_overrides (config : LogConfig) (o : LogOverrides) : LogConfig := {|
  cfg_level := default (cfg_level config) (yaml_level o);
  cfg_log_file_path := default (cfg_log_file_path config) (yaml_log_file_path o);
  cfg_format := default (cfg_format config) (yaml_format o);
  cfg_date_format := default (cfg_date_format config) (yaml_date_format o);
  cfg_use_colors := default (cfg_use_colors config) (yaml_use_colors o);
  cfg_colors := default (cfg_colors config) (yaml_colors o)
|}.

(** What [logging.py] reads from outside the program. *)
Record Env : Type := {
  unicode : Unicode;
  (** the exception, if any, raised while [_load_config] makes its search
      path and looks for the files on it ([Path.cwd()], [Path.home()],
      [path.exists()]), which happens outside its [try] statement *)
  search_error : option exn;
  (** the [logging] section of the first [config.yaml] on the search path,
      with values of the types of [DEFAULT_CONFIG]; [None] when no file is
      found, it cannot be read, or has no such section *)
  yaml_logging : option LogOverrides;
  (** the attributes of the [logging] module, other than the level
      constants, by name ([BASIC_FORMAT] and the like), as [setLevel] takes
      them *)
  other_attribute : string -> option level_object;
  (** [datetime.now()] as [%Y-%m-%d] and as [%H-%M-%S] *)
  now_date : string;
  now_time : string;
  (** [ColoredFormatter._supports_color()] *)
  supports_color : bool;
  (** creating the parent directory and opening the log file for append:
      the exception raised, if any *)
  open_log_file : string -> option exn;
  (** [logging.Formatter(fmt=...)], which checks its format string: the
      exception raised, if any *)
  format_error : string -> option exn
}.

(** [getattr(logging, name, logging.INFO)] *)
Definition getattr_level (env : Env) (name : string) : level_object :=
  match level_constant name with
  | Some n => IntLevel n
  | None => default (IntLevel INFO) (other_attribute env name)
  end.

Inductive Formatter : Type :=
| ColoredFormatter (fmt datefmt : string) (use_colors : bool) (color_config : gmap string string)
| PlainFormatter (fmt datefmt : string).

Inductive Handler : Type :=
| StreamHandler (level : Z) (formatter : Formatter)
| FileHandler (filename : string) (level : Z) (formatter : Formatter).

Definition is_console (h : Handler) : bool :=
  match h with StreamHandler _ _ => true | FileHandler _ _ _ => false end.

Definition is_file_handler (h : Handler) : bool :=
  match h with StreamHandler _ _ => false | FileHandler _ _ _ => true end.

(** A [logging.Logger] object.  The [logging] module keeps one object per
    name, so a logger is referred to by its name. *)
Record Logger : Type := {
  handlers : list Handler;
  level : Z;
  propagate : bool;
  disabled : bool
}.

Definition new_logger : Logger :=
  {| handlers := []; level := NOTSET; propagate := true; disabled := false |}.

(** The module-level state of [logging.py] together with the registry of
    the [logging] module. *)
Record State : Type := {
  manager : gmap string Logger;
  _loggers : gmap string string;
  _config_cache : option LogConfig;
  _initialized : bool
}.

(** The state when [logging.py] has just been imported. *)
Definition initial (m : gmap string Logger) : State :=
  {| manager := m; _loggers := ∅; _config_cache := None; _initialized := false |}.

Definition with_manager (f : gmap string Logger -> gmap string Logger) (st : State) : State :=
  {| manager := f (manager st); _loggers := _loggers st;
     _config_cache := _config_cache st; _initialized := _initialized st |}.

(** [logging.getLogger(name)]: the logger registered under [name], created
    on first use. *)
Definition getLogger (name : string) (st : State) : State * string :=
  match manager st !! name with
  | Some _ => (st, name)
  | None => (with_manager (insert name new_logger) st, name)
  end.

Definition update_logger (name : string) (f : Logger -> Logger) (st : State) : State :=
  with_manager (alter f name) st.

Definition clear_handlers (l : Logger) : Logger :=
  {| handlers := []; level := level l; propagate := propagate l; disabled := disabled l |}.

Definition setLevel (lv : Z) (l : Logger) : Logger :=
  {| handlers := handlers l; level := lv; propagate := propagate l; disabled := disabled l |}.

(** [addHandler] of a handler object that has just been created, which
    therefore is not in the list yet. *)
Definition addHandler (h : Handler) (l : Logger) : Logger :=
  {| handlers := handlers l ++ [h];
     level := level l; propagate := propagate l; disabled := disabled l |}.

Definition set_propagate (b : bool) (l : Logger) : Logger :=
  {| handlers := handlers l; level := level l; propagate := b; disabled := disabled l |}.

Definition set_config_cache (config : LogConfig) (st : State) : State :=
  {| manager := manager st; _loggers := _loggers st;
     _config_cache := Some config; _initialized := _initialized st |}.

(** [_load_config()]: the cached configuration when there is one; else the
    search for a file, which may raise, then the defaults with what the
    [logging] section of the file overrides, cached. *)
Definition _load_config (env : Env) (st : State) : State * PyResult LogConfig :=
  match _config_cache st with
  | Some config => (st, Returned config)
  | None =>
      match search_error env with
      | Some e => (st, Raised e)
      | None =>
          let config :=
            match yaml_logging env with
            | Some o => apply_overrides DEFAULT_CONFIG o
            | None => DEFAULT_CONFIG
            end in
          (set_config_cache config st, Returned config)
      end
  end.

(** The keyword arguments of [setup_logging]. *)
Record setup_kwargs : Type := {
  kw_level : option (Z + string);
  kw_log_file : option string;
  kw_log_format : option string;
  kw_date_format : option string;
  kw_use_colors : option bool;
  kw_quiet : bool;
  kw_verbose : bool
}.

Definition no_kwargs : setup_kwargs := {|
  kw_level := None; kw_log_file := None; kw_log_format := None;
  kw_date_format := None; kw_use_colors := None; kw_quiet := false; kw_verbose := false
|}.

Definition package : string := "persian_transcriber".

(** The level that [setup_logging] settles on, as the object that it
    hands to [setLevel]. *)
Definition resolve_level (env : Env) (kw : setup_kwargs) (config : LogConfig) : level_object :=
  if kw_verbose kw then IntLevel DEBUG
  else match kw_level kw with
       | Some (inl n) => IntLevel n
       | Some (inr name) => getattr_level env (upper (unicode env) name)
       | None => getattr_level env (upper (unicode env) (cfg_level config))
       end.

(** The log file that [setup_logging] settles on: the argument, else the
    configured path, when it is a non-empty string, with its placeholders
    expanded. *)
Definition resolve_log_file (env : Env) (kw : setup_kwargs) (config : LogConfig) : option string :=
  match kw_log_file kw with
  | Some f => Some f
  | None =>
      match cfg_log_file_path config with
      | Some log_file_str =>
          if String.eqb log_file_str "" then None
          else Some (replace "{time}" (now_time env) (replace "{date}" (now_date env) log_file_str))
      | None => None
      end
  end.

(** The console handler and the file handler of a call whose level is
    the number [lv]. *)
Definition console_handler (env : Env) (kw : setup_kwargs) (config : LogConfig) (lv : Z)
    : Handler :=
  StreamHandler lv
    (ColoredFormatter CONSOLE_FORMAT
       (default (cfg_date_format config) (kw_date_format kw))
       (default (cfg_use_colors config) (kw_use_colors kw) && supports_color env)
       (cfg_colors config)).

Definition file_handler (kw : setup_kwargs) (config : LogConfig) (log_file : string) : Handler :=
  FileHandler (Path log_file) DEBUG
    (PlainFormatter (default (cfg_format config) (kw_log_format kw))
                    (default (cfg_date_format config) (kw_date_format kw))).

Definition set_initialized (st : State) : State :=
  {| manager := manager st; _loggers := _loggers st;
     _config_cache := _config_cache st; _initialized := true |}.

(** [setup_logging(...)]: the state it leaves and the logger it returns,
    or the exception that leaves it, which comes from [_load_config], from
    [setLevel], from opening the log file or from the formatter of the file
    handler. *)
Definition setup_logging (env : Env) (kw : setup_kwargs) (st : State) : State * PyResult string :=
  match _load_config env st with
  | (st, Raised e) => (st, Raised e)
  | (st, Returned config) =>
      let level := resolve_level env kw config in
      let log_file := resolve_log_file env kw config in
      let '(st, root_logger) := getLogger package st in
      let st := update_logger root_logger clear_handlers st in
      match level with
      | NoLevel e => (st, Raised e)
      | IntLevel lv =>
          let st := update_logger root_logger (setLevel lv) st in
          let st :=
            if kw_quiet kw then st
            else update_logger root_logger (addHandler (console_handler env kw config lv)) st in
          match log_file with
          | Some f =>
              match open_log_file env (Path f) with
              | Some e => (st, Raised e)
              | None =>
                  match format_error env (default (cfg_format config) (kw_log_format kw)) with
                  | Some e => (st, Raised e)
                  | None =>
                      let st :=
                        update_logger root_logger (addHandler (file_handler kw config f)) st in
                      let st := update_logger root_logger (set_propagate false) st in
                      (set_initialized st, Returned root_logger)
                  end
              end
          | None =>
              let st := update_logger root_logger (set_propagate false) st in
              (set_initialized st, Returned root_logger)
          end
      end
  end.

(** The name under which [get_logger] registers a logger. *)
Definition qualified (name : string) : string :=
  if startswith package name then name else package ++ "." ++ name.

(** [get_logger(name)] *)
Definition get_logger (env : Env) (name : string) (st : State) : State * PyResult string :=
  let '(st, r) :=
    if _initialized st then (st, Returned package) else setup_logging env no_kwargs st in
  match r with
  | Raised e => (st, Raised e)
  | Returned _ =>
      let name := qualified name in
      match _loggers st !! name with
      | Some l => (st, Returned l)
      | None =>
          let '(st, l) := getLogger name st in
          ({| manager := manager st; _loggers := <[name := l]> (_loggers st);
              _config_cache := _config_cache st; _initialized := _initialized st |},
           Returned l)
      end
  end.

(** The loggers below [package] in the hierarchy of the [logging] module,
    which follows the dots of the names: the package logger and every
    logger named [package.<something>]. *)
Definition in_package_hierarchy (name : string) : bool :=
  String.eqb name package || startswith (package ++ ".") name.

(** The cache [_loggers] holds, under a name, the logger of that name. *)
Definition cache_consistent (st : State) : Prop :=
  ∀ name l, _loggers st !! name = Some l → l = name.

(** The handlers that a call of [setup_logging] builds, when its level
    is the number [lv]. *)
Definition built_handlers (env : Env) (kw : setup_kwargs) (config : LogConfig) (lv : Z)
    : list Handler :=
  (if kw_quiet kw then [] else [console_handler env kw config lv])
  ++ match resolve_log_file env kw config with
     | Some f => [file_handler kw config f]
     | None => []
     end.

End Logging.

(** * src/persian_transcriber/cli.py *)

Module Cli.

Record EngineConfig : Type := {
  type : string;
  model_size : string;
  device : string;
  compute_type : option string
}.

Record OutputConfig : Type := {
  format : string;
  directory : option string;
  include_timestamps : bool
}.

(** The configuration object as [main] builds it: the keyword arguments
    of [TranscriberConfig(...)], and in [normalizer_enabled] the later
    assignment to [config.normalizer.enabled] ([None] when [main] leaves the
    attribute as constructed). *)
Record TranscriberConfig : Type := {
  language : string;
  engine : EngineConfig;
  output : OutputConfig;
  openai_api_key : option string;
  verbose : bool;
  normalizer_enabled : option bool
}.

(** What [cli.py] takes from the rest of the package and from outside the
    program. *)
Record World : Type := {
  (** package constants: [__version__], [SUPPORTED_EXTENSIONS], the values
      of the enumerations [EngineType] and [OutputFormat] *)
  version : string;
  SUPPORTED_EXTENSIONS : gset string;
  EngineType_values : list string;
  OutputFormat_values : list string;
  (** [str(x)] and [format(x, ".2f")] of a float *)
  str_float : QArith_base.Q -> string;
  format_2f : QArith_base.Q -> string;
  (** [p.exists()] and [p.is_file()] for a [Path]: the answer, or the
      [OSError] that the look into the file system raises (a name that is
      too long, for one) *)
  path_exists : string -> PyResult bool;
  path_is_file : string -> PyResult bool;
  stdout : Stdout;
  (** the constructors [TranscriberConfig(...)], with the [EngineConfig]
      and [OutputConfig] in its arguments, and
      [PersianAudioTranscriber(config=...)]: the exception raised, if any *)
  construct_config : TranscriberConfig -> option exn;
  construct_transcriber : TranscriberConfig -> option exn;
  (** [transcriber.transcribe_file(path, output_path=, save_output=)] *)
  transcribe_file : TranscriberConfig -> string -> option string -> bool -> PyResult transcription;
  (** [transcriber.scan_and_transcribe(path, recursive=, skip_existing=,
      output_directory=, progress_callback=)]; the last argument tells
      whether [print_progress] is passed *)
  scan_and_transcribe :
    TranscriberConfig -> string -> bool -> bool -> option string -> bool -> PyResult (list dict);
  logging_env : Logging.Env
}.

(** [str(v)], as an f-string renders a value. *)
Definition py_str (w : World) (v : pyval) : string :=
  match v with
  | PyNone => "None"
  | PyBool true => "True"
  | PyBool false => "False"
  | PyInt z => str_of_Z z
  | PyFloat q => str_float w q
  | PyStr s => s
  end.

(** ** create_parser *)

Inductive Action : Type :=
| HelpAction
| VersionAction
| Positional (dest : string)
| Store (dest : string) (default : pyval) (choices : option (list string))
| StoreTrue (dest : string) (default : bool).

Record Argument : Type := {
  option_strings : list string;
  action : Action
}.

Definition prog : string := "persian-transcriber".

(** The arguments that [create_parser] declares, after the [-h/--help]
    that [ArgumentParser] adds itself.  [input] has [nargs="?"]. *)
Definition create_parser (w : World) : list Argument := [
  {| option_strings := ["-h"; "--help"]; action := HelpAction |};
  {| option_strings := ["--version"; "-V"]; action := VersionAction |};
  {| option_strings := []; action := Positional "input" |};
  {| option_strings := ["-e"; "--engine"];
     action := Store "engine" (PyStr "faster_whisper") (Some (EngineType_values w)) |};
  {| option_strings := ["-m"; "--model"]; action := Store "model" (PyStr "medium") None |};
  {| option_strings := ["-d"; "--device"];
     action := Store "device" (PyStr "auto") (Some ["auto"; "cuda"; "cpu"; "mps"]) |};
  {| option_strings := ["--compute-type"];
     action := Store "compute_type" PyNone (Some ["float16"; "int8"; "int8_float16"; "float32"]) |};
  {| option_strings := ["-l"; "--language"]; action := Store "language" (PyStr "fa") None |};
  {| option_strings := ["--no-normalize"]; action := StoreTrue "no_normalize" false |};
  {| option_strings := ["-f"; "--format"];
     action := Store "format" (PyStr "txt") (Some (OutputFormat_values w)) |};
  {| option_strings := ["-o"; "--output"]; action := Store "output" PyNone None |};
  {| option_strings := ["--output-dir"]; action := Store "output_dir" PyNone None |};
  {| option_strings := ["--no-save"]; action := StoreTrue "no_save" false |};
  {| option_strings := ["--timestamps"]; action := StoreTrue "timestamps" false |};
  {| option_strings := ["-r"; "--recursive"]; action := StoreTrue "recursive" false |};
  {| option_strings := ["--skip-existing"]; action := StoreTrue "skip_existing" true |};
  {| option_strings := ["--no-skip"]; action := StoreTrue "no_skip" false |};
  {| option_strings := ["--api-key"]; action := Store "api_key" PyNone None |};
  {| option_strings := ["-v"; "--verbose"]; action := StoreTrue "verbose" false |};
  {| option_strings := ["-q"; "--quiet"]; action := StoreTrue "quiet" false |}
].

(** ** parse_args

    [ArgumentParser.parse_args] on the command lines in which every word
    that starts with a dash is one of the declared option strings, written
    in full, and the value of an option is the next word.  The other forms
    that [argparse] reads (abbreviated long options, [--option=value],
    joined short options, [--], words such as [-1]) are outside this
    model: [parse_args] is [None] on them. *)

Definition find_option (parser : list Argument) (arg_string : string) : option Argument :=
  List.find (fun a => bool_decide (arg_string ∈ option_strings a)) parser.

Definition in_fragment (parser : list Argument) (arg_strings : list string) : bool :=
  forallb (fun s => negb (startswith "-" s) || bool_decide (is_Some (find_option parser s)))
          arg_strings.

(** The namespace before any argument is read: every destination has its
    default. *)
Definition namespace_defaults (parser : list Argument) : dict :=
  foldr (fun a ns =>
           match action a with
           | Positional dest => <[dest := PyNone]> ns
           | Store dest v _ => <[dest := v]> ns
           | StoreTrue dest b => <[dest := PyBool b]> ns
           | HelpAction | VersionAction => ns
           end) ∅ parser.

Definition positionals (parser : list Argument) : list string :=
  omap (fun a => match action a with Positional dest => Some dest | _ => None end) parser.

(** [parser.error(...)]: the usage message on standard error, then
    [sys.exit(2)]. *)
Definition parser_error {A} (err : usage_error) : M A :=
  emit (UsageError err);; raise (SystemExit 2).

(** The arguments are taken from left to right; what is left over is
    reported once all of them are read. *)
Fixpoint consume (w : World) (parser : list Argument) (ns : dict)
    (pending : list string) (extras : list string) (arg_strings : list string) : M dict :=
  match arg_strings with
  | [] =>
      match extras with
      | [] => mret ns
      | _ :: _ => parser_error (UnrecognizedArguments extras)
      end
  | s :: rest =>
      if startswith "-" s then
        match find_option parser s with
        | None => consume w parser ns pending (extras ++ [s]) rest
        | Some a =>
            match action a with
            | HelpAction => emit PrintHelp;; raise (SystemExit 0)
            | VersionAction =>
                emit (PrintVersion (prog ++ " " ++ version w));; raise (SystemExit 0)
            | Positional _ => consume w parser ns pending (extras ++ [s]) rest
            | StoreTrue dest _ => consume w parser (<[dest := PyBool true]> ns) pending extras rest
            | Store dest _ choices =>
                match rest with
                | [] => parser_error (ExpectedOneArgument s)
                | v :: rest' =>
                    if startswith "-" v then parser_error (ExpectedOneArgument s)
                    else if match choices with
                            | Some cs => bool_decide (v ∈ cs)
                            | None => true
                            end
                    then consume w parser (<[dest := PyStr v]> ns) pending extras rest'
                    else parser_error (InvalidChoice s v)
                end
            end
        end
      else
        match pending with
        | dest :: pending' => consume w parser (<[dest := PyStr s]> ns) pending' extras rest
        | [] => consume w parser ns pending (extras ++ [s]) rest
        end
  end.

Definition parse_args (w : World) (argv : list string) : option (M dict) :=
  let parser := create_parser w in
  if in_fragment parser argv
  then Some (consume w parser (namespace_defaults parser) (positionals parser) [] argv)
  else None.

(** Attributes of the namespace. *)
Definition attr (args : dict) (name : string) : pyval := default PyNone (args !! name).

Definition attr_bool (args : dict) (name : string) : bool := py_truthy (attr args name).

Definition attr_str (args : dict) (name : string) : string :=
  match attr args name with PyStr s => s | _ => "" end.

Definition attr_opt (args : dict) (name : string) : option string :=
  match attr args name with PyStr s => Some s | _ => None end.

(** ** validate_input *)

(** [validate_input(path)]: the [Path] that it returns, or what it
    raises.  The message of [FileNotFoundError] has the argument as it was
    given. *)
Definition validate_input (w : World) (path : string) : PyResult string :=
  let p := Path path in
  match path_exists w p with
  | Raised e => Raised e
  | Returned false => Raised (Exc FileNotFoundError ("Input path not found: " ++ path))
  | Returned true =>
      match path_is_file w p with
      | Raised e => Raised e
      | Returned is_file =>
          if is_file
             && negb (bool_decide (lower (Logging.unicode (logging_env w)) (path_suffix p)
                                   ∈ SUPPORTED_EXTENSIONS w))
          then Raised (Exc ValueError
                 ("Unsupported file format: " ++ path_suffix p ++ nl ++
                  "Supported formats: " ++ join ", " (sorted (elements (SUPPORTED_EXTENSIONS w)))))
          else Returned p
      end
  end.

(** ** main *)

(** The configuration built from the parsed arguments, after the
    [if args.no_normalize] that follows the constructor. *)
Definition build_config (args : dict) : TranscriberConfig := {|
  language := attr_str args "language";
  engine := {| type := attr_str args "engine";
               model_size := attr_str args "model";
               device := attr_str args "device";
               compute_type := attr_opt args "compute_type" |};
  output := {| format := attr_str args "format";
               directory := if attr_bool args "output_dir"
                            then Path <$> attr_opt args "output_dir" else None;
               include_timestamps := attr_bool args "timestamps" |};
  openai_api_key := attr_opt args "api_key";
  verbose := attr_bool args "verbose";
  normalizer_enabled := if attr_bool args "no_normalize" then Some false else None
|}.

Definition config_as_constructed (config : TranscriberConfig) : TranscriberConfig := {|
  language := language config; engine := engine config; output := output config;
  openai_api_key := openai_api_key config; verbose := verbose config;
  normalizer_enabled := None
|}.

(** [sum(1 for r in results if "error" not in r)] *)
Definition successful (results : list dict) : nat :=
  length (filter (fun r => has_key "error" r = false) results).

(** [[r for r in results if "error" in r]] *)
Definition failed (results : list dict) : list dict :=
  filter (fun r => has_key "error" r = true) results.

(** Some result has an ["error"] field. *)
Definition has_failures (results : list dict) : bool :=
  existsb (has_key "error") results.

(** The line printed for one failed file. *)
Definition failed_line (w : World) (r : dict) : string :=
  "    - " ++ py_str w (default (PyStr "Unknown") (r !! "file")) ++ ": "
  ++ py_str w (default (PyStr "Unknown error") (r !! "error")).

(** [for r in failed: print(...)] *)
Fixpoint print_failed (w : World) (failed : list dict) : M unit :=
  match failed with
  | [] => mret tt
  | r :: rest => print (stdout w) (failed_line w r);; print_failed w rest
  end.

(** The summary that ends the directory branch. *)
Definition print_summary (w : World) (results : list dict) : M unit :=
  print (stdout w) (nl ++ "✓ Batch processing complete");;
  print (stdout w) ("  Successful: " ++ str_of_nat (successful results) ++ "/"
                    ++ str_of_nat (length results));;
  if (successful results <? length results)%nat
  then print (stdout w) "  Failed files:";;
       print_failed w (failed results)
  else mret tt.

Definition opt_raise (o : option exn) : M unit :=
  match o with Some e => raise e | None => mret tt end.

Definition get_2f (w : World) (x : option QArith_base.Q) : string :=
  match x with Some q => format_2f w q | None => "0.00" end.

(** The body of the [try] statement. *)
Definition main_try (w : World) (args : dict) : M unit :=
  input_path ← lift (validate_input w (attr_str args "input"));
  let config := build_config args in
  opt_raise (construct_config w (config_as_constructed config));;
  opt_raise (construct_transcriber w config);;
  is_file ← lift (path_is_file w input_path);
  if is_file : bool then
    let save_output := negb (attr_bool args "no_save") in
    emit (CallTranscribeFile input_path (attr_opt args "output") (Some save_output));;
    result ← lift (transcribe_file w config input_path (attr_opt args "output") save_output);
    if attr_bool args "no_save" then print (stdout w) (text result)
    else
      print (stdout w)
        (nl ++ "✓ Transcription saved to: " ++ default "N/A" (output_path result));;
      print (stdout w) ("  Duration: " ++ get_2f w (duration result) ++ "s");;
      print (stdout w) ("  Processing time: " ++ get_2f w (processing_time result) ++ "s")
  else
    let skip_existing := negb (attr_bool args "no_skip") in
    let with_progress := negb (attr_bool args "quiet") in
    emit (CallScanAndTranscribe input_path (attr_bool args "recursive") skip_existing
            (attr_opt args "output_dir") with_progress);;
    results ← lift (scan_and_transcribe w config input_path (attr_bool args "recursive")
                       skip_existing (attr_opt args "output_dir") with_progress);
    print_summary w results.

(** The [try] statement with its handlers.  [UnicodeEncodeError] and the
    other subclasses of [ValueError] go with [ValueError], an [OSError]
    other than [FileNotFoundError] with the last clause. *)
Definition main_guarded (w : World) (args : dict) : M Z :=
  match main_try w args with
  | (t, Returned _) => (t, Returned 0%Z)
  | (t, Raised (Exc FileNotFoundError msg)) => (t ++ [LogError msg], Returned 1%Z)
  | (t, Raised (Exc ValueError msg)) => (t ++ [LogError msg], Returned 1%Z)
  | (t, Raised (Exc KeyboardInterrupt _)) =>
      (t, Returned tt) ≫= fun _ => print (stdout w) (nl ++ "Interrupted by user");; mret 130%Z
  | (t, Raised (Exc (OtherException cls) msg)) =>
      (t ++ [LogException ("Unexpected error: " ++ msg)], Returned 1%Z)
  | (t, Raised (SystemExit code)) => (t, Raised (SystemExit code))
  end.

(** The arguments of the call to [setup_logging]. *)
Definition logging_kwargs (args : dict) : Logging.setup_kwargs :=
  if attr_bool args "quiet" then
    {| Logging.kw_level := Some (inr "ERROR"); Logging.kw_log_file := None;
       Logging.kw_log_format := None; Logging.kw_date_format := None;
       Logging.kw_use_colors := None; Logging.kw_quiet := false; Logging.kw_verbose := false |}
  else if attr_bool args "verbose" then
    {| Logging.kw_level := None; Logging.kw_log_file := None;
       Logging.kw_log_format := None; Logging.kw_date_format := None;
       Logging.kw_use_colors := None; Logging.kw_quiet := false; Logging.kw_verbose := true |}
  else Logging.no_kwargs.

(** [main] from the parsed arguments on. *)
Definition main_parsed (w : World) (st : Logging.State) (args : dict) : Logging.State * M Z :=
  match Logging.setup_logging (logging_env w) (logging_kwargs args) st with
  | (st', Raised e) => (st', raise e)
  | (st', Returned _) =>
      if negb (py_truthy (attr args "input"))
      then (st', emit PrintHelp;; mret 1%Z)
      else (st', main_guarded w args)
  end.

(** [main(argv)], started in logging state [st]: the state it leaves, what
    it prints and calls, and the exit code it returns or the exception that
    leaves it. *)
Definition main (w : World) (st : Logging.State) (argv : list string)
    : option (Logging.State * M Z) :=
  match parse_args w argv with
  | None => None
  | Some (t, Raised e) => Some (st, (t, Raised e))
  | Some (t, Returned args) =>
      let '(st', (t', r)) := main_parsed w st args in
      Some (st', (t ++ t', r))
  end.

(** The directory branch runs to its end: the input is a directory, the
    constructors succeed and [scan_and_transcribe] returns [results]. *)
Definition batch_completes (w : World) (args : dict) (results : list dict) : Prop :=
  py_truthy (attr args "input") = true
  ∧ path_exists w (Path (attr_str args "input")) = Returned true
  ∧ path_is_file w (Path (attr_str args "input")) = Returned false
  ∧ construct_config w (config_as_constructed (build_config args)) = None
  ∧ construct_transcriber w (build_config args) = None
  ∧ scan_and_transcribe w (build_config args) (Path (attr_str args "input"))
      (attr_bool args "recursive") (negb (attr_bool args "no_skip"))
      (attr_opt args "output_dir") (negb (attr_bool args "quiet")) = Returned results.

(** The status with which [sys.exit(main())] ends the process, when a
    code is returned or [SystemExit] is raised. *)
Definition exit_status (r : PyResult Z) : option Z :=
  match r with
  | Returned code => Some code
  | Raised (SystemExit code) => Some code
  | Raised (Exc _ _) => None
  end.

End Cli.

(** * The configuration resolver of the specification

    [cli.py] builds its [TranscriberConfig] from the parsed arguments; the
    class itself and whatever merges a configuration file or the
    environment into it are in [config.py]. *)

Module ConfigResolver.

Record Configuration : Type := {
  engine : string;
  model : string;
  device : string;
  language : string;
  output_format : string;
  output_directory : option string;
  normalize : bool;
  credentials : option string
}.

(** One source of settings: every field is optional. *)
Record Layer : Type := {
  l_engine : option string;
  l_model : option string;
  l_device : option string;
  l_language : option string;
  l_output_format : option string;
  l_output_directory : option (option string);
  l_normalize : option bool;
  l_credentials : option (option string)
}.

Definition no_layer : Layer := {|
  l_engine := None; l_model := None; l_device := None; l_language := None;
  l_output_format := None; l_output_directory := None; l_normalize := None;
  l_credentials := None
|}.

Inductive error : Type :=
| ConfigurationError (field value : string).

(** A field of the result: the highest source that has it. *)
Definition pick {A} (dflt : A) (file env explicit : option A) : A :=
  match explicit, env, file with
  | Some x, _, _ => x
  | None, Some x, _ => x
  | None, None, Some x => x
  | None, None, None => dflt
  end.

(** Modelled from the spec: the configuration resolver
    [resolve(defaults, file_config?, env_overrides?, explicit_overrides?)]
    of section 4.1, which [config.py] would hold.  Precedence, lowest to
    highest: built-in defaults, file-based configuration, environment
    overrides, explicit overrides; a field that a source lacks falls
    through to the next lower source; the result is a
    [ConfigurationError] when the engine resolves to a value outside the
    enumeration [engine_kinds]. *)
Definition resolve (engine_kinds : list string) (defaults : Configuration)
    (file_config env_overrides explicit_overrides : option Layer) : Configuration + error :=
  let f := default no_layer file_config in
  let e := default no_layer env_overrides in
  let x := default no_layer explicit_overrides in
  let c := {|
    engine := pick (engine defaults) (l_engine f) (l_engine e) (l_engine x);
    model := pick (model defaults) (l_model f) (l_model e) (l_model x);
    device := pick (device defaults) (l_device f) (l_device e) (l_device x);
    language := pick (language defaults) (l_language f) (l_language e) (l_language x);
    output_format :=
      pick (output_format defaults) (l_output_format f) (l_output_format e) (l_output_format x);
    output_directory :=
      pick (output_directory defaults) (l_output_directory f) (l_output_directory e)
           (l_output_directory x);
    normalize := pick (normalize defaults) (l_normalize f) (l_normalize e) (l_normalize x);
    credentials :=
      pick (credentials defaults) (l_credentials f) (l_credentials e) (l_credentials x)
  |} in
  if bool_decide (engine c ∈ engine_kinds) then inl c
  else inr (ConfigurationError "engine" (engine c)).

Definition with_language (lang : string) : Layer := {|
  l_engine := None; l_model := None; l_device := None; l_language := Some lang;
  l_output_format := None; l_output_directory := None; l_normalize := None;
  l_credentials := None
|}.

(** The configuration has every setting that the layer gives. *)
Definition agrees (x : Layer) (c : Configuration) : Prop :=
  (∀ v, l_engine x = Some v → engine c = v)
  ∧ (∀ v, l_model x = Some v → model c = v)
  ∧ (∀ v, l_device x = Some v → device c = v)
  ∧ (∀ v, l_language x = Some v → language c = v)
  ∧ (∀ v, l_output_format x = Some v → output_format c = v)
  ∧ (∀ v, l_output_directory x = Some v → output_directory c = v)
  ∧ (∀ v, l_normalize x = Some v → normalize c = v)
  ∧ (∀ v, l_credentials x = Some v → credentials c = v).

End ConfigResolver.

(** * Sample inputs *)

Module Samples.

Definition no_float (q : QArith_base.Q) : string := "0.00".

(** Case tables that, beyond ASCII, know the Kelvin sign U+212A, whose
    lower case is the letter [k]. *)
Definition kelvin : string := bytes [226; 132; 170].

Definition tables : Unicode := {|
  unicode_lower := fun s => replace kelvin "k" (map_string lower_ascii s);
  unicode_upper := fun s => map_string upper_ascii s
|}.

(** The attributes of the [logging] module with names in capitals that are
    no levels: the string [BASIC_FORMAT] and the dictionary [_STYLES]. *)
Definition attributes (name : string) : option Logging.level_object :=
  if String.eqb name "BASIC_FORMAT"
  then Some (Logging.NoLevel
               (Exc ValueError "Unknown level: '%(levelname)s:%(name)s:%(message)s'"))
  else if String.eqb name "_STYLES"
  then Some (Logging.NoLevel
               (Exc (OtherException "TypeError") "Level not an integer or a valid string"))
  else None.

(** A terminal that takes every text, and one that takes ASCII only. *)
Definition utf8_terminal : Stdout := {| encode_error := fun _ => None |}.

Definition ascii_terminal : Stdout := {|
  encode_error := fun s =>
    let refused (char position : string) : option string :=
      Some ("'ascii' codec can't encode character '" ++ char ++ "' in position " ++ position
            ++ ": ordinal not in range(128)")%string in
    if startswith "✗" s then refused "\u2717" "0"
    else if startswith "✓" s then refused "\u2713" "0"
    else if startswith (nl ++ "✓") s then refused "\u2713" "1"
    else Some "'ascii' codec can't encode characters"
|}.

Definition quiet_env : Logging.Env := {|
  Logging.unicode := tables;
  Logging.search_error := None;
  Logging.yaml_logging := None;
  Logging.other_attribute := attributes;
  Logging.now_date := "2024-01-01";
  Logging.now_time := "00-00-00";
  Logging.supports_color := false;
  Logging.open_log_file := fun _ => None;
  Logging.format_error := fun _ => None
|}.

(** A configuration file that asks for a dated log file, and the
    configuration that [_load_config] makes of it. *)
Definition dated_section : Logging.LogOverrides := {|
  Logging.yaml_level := Some "debug";
  Logging.yaml_log_file_path := Some (Some "logs/run-{date}.log");
  Logging.yaml_format := None;
  Logging.yaml_date_format := None;
  Logging.yaml_use_colors := None;
  Logging.yaml_colors := None
|}.

Definition dated_config : Logging.LogConfig :=
  Logging.apply_overrides Logging.DEFAULT_CONFIG dated_section.

Definition file_env : Logging.Env := {|
  Logging.unicode := tables;
  Logging.search_error := None;
  Logging.other_attribute := attributes;
  Logging.format_error := fun _ => None;
  Logging.yaml_logging := Some dated_section;
  Logging.now_date := "2024-01-01";
  Logging.now_time := "00-00-00";
  Logging.supports_color := true;
  Logging.open_log_file := fun _ => None
|}.

Definition quiet_kwargs : Logging.setup_kwargs := {|
  Logging.kw_level := None; Logging.kw_log_file := None; Logging.kw_log_format := None;
  Logging.kw_date_format := None; Logging.kw_use_colors := None;
  Logging.kw_quiet := true; Logging.kw_verbose := false
|}.

Definition hello : transcription :=
  {| text := "hello"; duration := Some (QArith_base.Qmake 2 1);
     processing_time := None; output_path := Some "rec/a.txt" |}.

(** The engine of the scenario of the specification: [a.mp3] transcribes
    to ["hello"], [b.wav] raises [EngineError("decode failed")]. *)
Definition engine (path : string) : PyResult transcription :=
  if String.eqb (path_name path) "b.wav"
  then Raised (Exc (OtherException "EngineError") "decode failed")
  else Returned hello.

Definition audio_files : list string := ["rec/a.mp3"; "rec/b.wav"; "rec/c.mp3"].

Definition scan_results : list dict :=
  [ <["file" := PyStr "rec/a.mp3"]> (<["text" := PyStr "hello"]> ∅);
    <["file" := PyStr "rec/b.wav"]> (<["error" := PyStr "decode failed"]> ∅) ].

(** A directory [rec] with two media files, and nothing else. *)
Definition world : Cli.World := {|
  Cli.version := "1.0.0";
  Cli.SUPPORTED_EXTENSIONS := {[ ".mp3"; ".wav" ]};
  Cli.EngineType_values := ["faster_whisper"; "openai_api"];
  Cli.OutputFormat_values := ["txt"; "srt"; "json"];
  Cli.str_float := no_float;
  Cli.format_2f := no_float;
  Cli.path_exists := fun p =>
    Returned (bool_decide (p ∈ ["rec"; "rec/a.mp3"; "rec/b.wav"; "notes.pdf"]));
  Cli.path_is_file := fun p => Returned (bool_decide (p ∈ ["rec/a.mp3"; "rec/b.wav"; "notes.pdf"]));
  Cli.stdout := utf8_terminal;
  Cli.construct_config := fun _ => None;
  Cli.construct_transcriber := fun _ => None;
  Cli.transcribe_file := fun _ p _ _ => engine p;
  Cli.scan_and_transcribe := fun _ _ _ _ _ _ => Returned scan_results;
  Cli.logging_env := quiet_env
|}.

(** The same directory seen through a terminal that takes ASCII only. *)
Definition ascii_world : Cli.World := {|
  Cli.version := Cli.version world;
  Cli.SUPPORTED_EXTENSIONS := Cli.SUPPORTED_EXTENSIONS world;
  Cli.EngineType_values := Cli.EngineType_values world;
  Cli.OutputFormat_values := Cli.OutputFormat_values world;
  Cli.str_float := Cli.str_float world;
  Cli.format_2f := Cli.format_2f world;
  Cli.path_exists := Cli.path_exists world;
  Cli.path_is_file := Cli.path_is_file world;
  Cli.stdout := ascii_terminal;
  Cli.construct_config := Cli.construct_config world;
  Cli.construct_transcriber := Cli.construct_transcriber world;
  Cli.transcribe_file := Cli.transcribe_file world;
  Cli.scan_and_transcribe := Cli.scan_and_transcribe world;
  Cli.logging_env := Cli.logging_env world
|}.

(** A name of 300 letters, which no file system of the usual kind
    takes. *)
Definition long_name : string := String.concat "" (repeat "a" 300) ++ ".mp3".

(** The same directory on a file system that refuses names of more than
    255 bytes: the look for such a path raises [OSError]. *)
Definition name_too_long (p : string) : exn :=
  Exc (OtherException "OSError") ("[Errno 36] File name too long: '" ++ p ++ "'").

Definition limited_world : Cli.World := {|
  Cli.version := Cli.version world;
  Cli.SUPPORTED_EXTENSIONS := Cli.SUPPORTED_EXTENSIONS world;
  Cli.EngineType_values := Cli.EngineType_values world;
  Cli.OutputFormat_values := Cli.OutputFormat_values world;
  Cli.str_float := Cli.str_float world;
  Cli.format_2f := Cli.format_2f world;
  Cli.path_exists := fun p =>
    if (255 <? String.length (path_name p))%nat then Raised (name_too_long p)
    else Cli.path_exists world p;
  Cli.path_is_file := fun p =>
    if (255 <? String.length (path_name p))%nat then Raised (name_too_long p)
    else Cli.path_is_file world p;
  Cli.stdout := utf8_terminal;
  Cli.construct_config := Cli.construct_config world;
  Cli.construct_transcriber := Cli.construct_transcriber world;
  Cli.transcribe_file := Cli.transcribe_file world;
  Cli.scan_and_transcribe := Cli.scan_and_transcribe world;
  Cli.logging_env := Cli.logging_env world
|}.

Definition st0 : Logging.State := Logging.initial ∅.

(** The namespace that [argparse] returns for a command line. *)
Definition args_of (argv : list string) : dict :=
  match Cli.parse_args world argv with
  | Some (_, Returned args) => args
  | _ => ∅
  end.

(** What [main] prints and calls for a command line. *)
Definition trace_of (argv : list string) : list event :=
  match Cli.main world st0 argv with
  | Some (_, (t, _)) => t
  | None => []
  end.

(** The logging state after the default set-up of [main]. *)
Definition st_main : Logging.State :=
  (Logging.setup_logging quiet_env Logging.no_kwargs st0).1.

(** The built-in defaults and the configuration file of the precedence
    scenario. *)
Definition defaults : ConfigResolver.Configuration := {|
  ConfigResolver.engine := "faster_whisper";
  ConfigResolver.model := "medium";
  ConfigResolver.device := "auto";
  ConfigResolver.language := "fa";
  ConfigResolver.output_format := "txt";
  ConfigResolver.output_directory := None;
  ConfigResolver.normalize := true;
  ConfigResolver.credentials := None
|}.

Definition file_config : ConfigResolver.Layer := ConfigResolver.with_language "en".
Definition explicit_overrides : ConfigResolver.Layer := ConfigResolver.with_language "ar".

(** The logging state after a first, default, [setup_logging()] under
    [file_env]: the package logger has a console and a file handler. *)
Definition st1 : Logging.State := (Logging.setup_logging file_env Logging.no_kwargs st0).1.

(** The [__name__] of a module of another package whose name begins with
    the same letters. *)
Definition sibling_module : string := "persian_transcriber_tools.audio".

End Samples.


(** * More of src/persian_transcriber/utils/logging.py *)

Module LogControl.
Import Logging.

(** [handler.setLevel(level)] *)
Definition set_handler_level (lv : Z) (h : Handler) : Handler :=
  match h with
  | StreamHandler _ f => StreamHandler lv f
  | FileHandler filename _ f => FileHandler filename lv f
  end.

Definition handler_level (h : Handler) : Z :=
  match h with
  | StreamHandler lv _ => lv
  | FileHandler _ lv _ => lv
  end.

Definition handler_formatter (h : Handler) : Formatter :=
  match h with
  | StreamHandler _ f => f
  | FileHandler _ _ f => f
  end.

Definition set_handler_levels (lv : Z) (l : Logger) : Logger :=
  {| handlers := map (set_handler_level lv) (handlers l);
     level := level l; propagate := propagate l; disabled := disabled l |}.

Definition set_disabled (b : bool) (l : Logger) : Logger :=
  {| handlers := handlers l; level := level l; propagate := propagate l; disabled := b |}.

(** The object that a level given as a number or as a name stands for:
    a name is looked up as in [setup_logging]. *)
Definition level_of (env : Env) (lvl : Z + string) : level_object :=
  match lvl with
  | inl n => IntLevel n
  | inr name => getattr_level env (upper (unicode env) name)
  end.

(** [set_log_level(level)]: the state it leaves, and the exception of
    [setLevel] when the name stands for no level. *)
Definition set_log_level (env : Env) (lvl : Z + string) (st : State) : State * PyResult unit :=
  let level := level_of env lvl in
  let '(st, root_logger) := getLogger package st in
  match level with
  | NoLevel e => (st, Raised e)
  | IntLevel lv =>
      let st := update_logger root_logger (setLevel lv) st in
      (update_logger root_logger (set_handler_levels lv) st, Returned tt)
  end.

(** [disable_logging()] and [enable_logging()] *)
Definition disable_logging (st : State) : State :=
  let '(st, l) := getLogger package st in update_logger l (set_disabled true) st.

Definition enable_logging (st : State) : State :=
  let '(st, l) := getLogger package st in update_logger l (set_disabled false) st.

(** The keyword arguments with another [level]. *)
Definition with_level (lvl : option (Z + string)) (kw : setup_kwargs) : setup_kwargs :=
  {| kw_level := lvl; kw_log_file := kw_log_file kw; kw_log_format := kw_log_format kw;
     kw_date_format := kw_date_format kw; kw_use_colors := kw_use_colors kw;
     kw_quiet := kw_quiet kw; kw_verbose := kw_verbose kw |}.

End LogControl.

(** ** ColoredFormatter *)

Module Colors.
Import Logging.

Definition ESC : string := String (ascii_of_nat 27) EmptyString.

Definition ANSI_COLORS : gmap string string :=
  <["black" := ESC +:+ "[30m"]> (<["red" := ESC +:+ "[31m"]> (<["green" := ESC +:+ "[32m"]>
  (<["yellow" := ESC +:+ "[33m"]> (<["blue" := ESC +:+ "[34m"]> (<["magenta" := ESC +:+ "[35m"]>
  (<["cyan" := ESC +:+ "[36m"]> (<["white" := ESC +:+ "[37m"]> (<["reset" := ESC +:+ "[0m"]>
  (<["bold" := ESC +:+ "[1m"]> ∅))))))))).

(** The class attribute [COLORS], keyed by level number. *)
Definition COLORS : gmap Z string :=
  <[DEBUG := ESC +:+ "[36m"]> (<[INFO := ESC +:+ "[32m"]> (<[WARNING := ESC +:+ "[33m"]>
  (<[ERROR := ESC +:+ "[31m"]> (<[CRITICAL := ESC +:+ "[1;31m"]> ∅)))).

Definition RESET : string := ESC +:+ "[0m".

(** [ColoredFormatter._get_color_code(level_name, level_no)] *)
Definition _get_color_code (u : Unicode) (color_config : gmap string string)
    (level_name : string) (level_no : Z) : string :=
  let legacy := default "" (COLORS !! level_no) in
  match color_config !! level_name with
  | Some color_spec =>
      let codes :=
        omap (fun part => ANSI_COLORS !! lower u (strip part)) (split_on "," color_spec) in
      match codes with
      | [] => legacy
      | _ :: _ => join "" codes
      end
  | None => legacy
  end.

(** The attributes of a [LogRecord] that the formatters of this file
    read or write. *)
Record LogRecord : Type := {
  levelname : string;
  levelno : Z;
  logger_name : string;
  message : string
}.

Definition set_levelname (s : string) (r : LogRecord) : LogRecord :=
  {| levelname := s; levelno := levelno r; logger_name := logger_name r;
     message := message r |}.

(** [formatter.format(record)]: the record as the call leaves it, and the
    text.  [base] is [logging.Formatter.format] for a format string and a
    date format; [ColoredFormatter.format] rewrites [record.levelname]
    before it calls it. *)
Definition format (u : Unicode) (base : string -> string -> LogRecord -> string) (f : Formatter)
    (record : LogRecord) : LogRecord * string :=
  match f with
  | ColoredFormatter fmt datefmt use_colors color_config =>
      let record :=
        if use_colors
        then set_levelname
               (_get_color_code u color_config (levelname record) (levelno record)
                ++ levelname record ++ RESET) record
        else record in
      (record, base fmt datefmt record)
  | PlainFormatter fmt datefmt => (record, base fmt datefmt record)
  end.

(** [Logger.callHandlers(record)] of the [logging] module on one logger:
    every handler whose level admits the record formats and writes it, in
    the order of the list, and all of them are handed the same record
    object.  The value lists what each handler writes. *)
Fixpoint callHandlers (u : Unicode) (base : string -> string -> LogRecord -> string)
    (hs : list Handler) (record : LogRecord) : list (Handler * string) :=
  match hs with
  | [] => []
  | h :: rest =>
      if (LogControl.handler_level h <=? levelno record)%Z
      then let '(record', text) := format u base (LogControl.handler_formatter h) record in
           (h, text) :: callHandlers u base rest record'
      else callHandlers u base rest record
  end.

End Colors.

(** * Vocabulary of the further properties *)

Module Text.

(** [c in s] for a character. *)
Fixpoint contains_char (c : ascii) (s : string) : bool :=
  match s with
  | EmptyString => false
  | String x r => Ascii.eqb x c || contains_char c r
  end.

End Text.

Module CliMore.
Import Cli.

Definition is_scan (ev : event) : bool :=
  match ev with CallScanAndTranscribe _ _ _ _ _ => true | _ => false end.

(** The calls of [scan_and_transcribe] in a trace. *)
Definition scan_events (t : list event) : list event := List.filter is_scan t.

(** The call of [scan_and_transcribe] that [main] makes for parsed
    arguments. *)
Definition scan_call (args : dict) : event :=
  CallScanAndTranscribe (Path (attr_str args "input")) (attr_bool args "recursive")
    (negb (attr_bool args "no_skip")) (attr_opt args "output_dir")
    (negb (attr_bool args "quiet")).

(** The computation writes lines to standard output and nothing else to
    the trace. *)
Definition only_prints {A} (m : M A) : Prop := ∃ lines, m.1 = map Print lines.

(** One of the option strings is among the words of the command line. *)
Definition given (option_strings argv : list string) : bool :=
  existsb (fun s => bool_decide (s ∈ option_strings)) argv.

(** What the table of [create_parser] says about a flag [dest] with
    option strings [os]: they are its option strings, and those of nothing
    else. *)
Definition flag_of_table (w : World) (dest : string) (os : list string) : Prop :=
  (∀ s a, find_option (create_parser w) s = Some a →
     match action a with
     | StoreTrue d _ => d = dest ↔ s ∈ os
     | Store d _ _ => d ≠ dest ∧ s ∉ os
     | Positional d => d ≠ dest
     | HelpAction | VersionAction => s ∉ os
     end)
  ∧ (∀ s, s ∈ os → startswith "-" s = true ∧ is_Some (find_option (create_parser w) s)).

(** The single-file branch runs to its end: the input is an existing file
    with a supported suffix, the constructors succeed and [transcribe_file]
    returns [result]. *)
Definition single_file_completes (w : World) (args : dict) (result : transcription) : Prop :=
  let p := Path (attr_str args "input") in
  path_exists w p = Returned true
  ∧ path_is_file w p = Returned true
  ∧ lower (Logging.unicode (logging_env w)) (path_suffix p) ∈ SUPPORTED_EXTENSIONS w
  ∧ construct_config w (config_as_constructed (build_config args)) = None
  ∧ construct_transcriber w (build_config args) = None
  ∧ transcribe_file w (build_config args) p (attr_opt args "output")
      (negb (attr_bool args "no_save")) = Returned result.

(** The lines of the summary of the directory branch, said without the
    functions of [main]: the headline, the count of the results without an
    ["error"] field out of all, and, when some result has the field, a
    heading and one line for each of those, in their order. *)
Definition summary_lines (w : World) (results : list dict) : list string :=
  [(nl ++ "✓ Batch processing complete")%string;
   ("  Successful: "
    ++ str_of_nat (length (List.filter (fun r => negb (has_key "error" r)) results))
    ++ "/" ++ str_of_nat (length results))%string]
  ++ (if existsb (has_key "error") results
      then "  Failed files:" :: map (failed_line w) (List.filter (has_key "error") results)
      else []).

End CliMore.

(** * More of examples/batch_processing.py *)

Module BatchMore.

(** [Path(p).stem] *)
Definition path_stem (p : string) : string :=
  let name := path_name p in
  match rfind_dot name with
  | Some i =>
      if (0 <? i)%nat && (i <? String.length name - 1)%nat
      then String.substring 0 i name
      else name
  | None => name
  end.

(** [output_dir / f"{audio_file.stem}.txt"] for
    [output_dir = Path("./transcriptions")] *)
Definition output_file (audio_file : string) : string :=
  "transcriptions/" ++ path_stem audio_file ++ ".txt".

Section example_4.
(** Standard output, the file system, as far as the loop looks at it
    ([output_file.exists()] answers or raises [OSError]), and the
    transcriber, which may change it. *)
Context (out : Stdout).
Context {FS : Type}.
Context (file_exists : FS -> string -> PyResult bool).
Context (transcribe_file : FS -> string -> string -> FS * PyResult transcription).

Definition progress (total i : nat) : string :=
  "[" ++ str_of_nat i ++ "/" ++ str_of_nat total ++ "] ".

Definition skipping_line (total i : nat) (audio_file : string) : string :=
  progress total i ++ "⊙ Skipping (exists): " ++ path_name audio_file.

(** What follows the test of [output_file.exists()] when the file is not
    there: the line, the call and its [try] statement.  The value tells
    whether the loop goes on. *)
Definition transcribe_one (total i : nat) (audio_file : string) (fs : FS) : FS * M unit :=
  match print out (progress total i ++ "⟳ Processing: " ++ path_name audio_file) with
  | (t, Raised e) => (fs, (t, Raised e))
  | (t, Returned _) =>
      let started := t ++ [CallTranscribeFile audio_file (Some (output_file audio_file)) None] in
      let '(fs1, r) := transcribe_file fs audio_file (output_file audio_file) in
      let handler (e : exn) : M unit :=
        if is_Exception e then print out ("  ✗ Failed: " ++ str_exn e) else raise e in
      (fs1,
       (started, Returned tt) ≫= fun _ =>
         match r with
         | Returned _ =>
             match print out ("  ✓ Saved to: " ++ path_name (output_file audio_file)) with
             | (t', Returned _) => (t', Returned tt)
             | (t', Raised e) => (t', Returned tt) ≫= fun _ => handler e
             end
         | Raised e => handler e
         end)
  end.

(** The loop of [example_4_incremental_output]. *)
Fixpoint example_4_loop (total i : nat) (audio_files : list string) (fs : FS)
    : FS * M unit :=
  match audio_files with
  | [] => (fs, mret tt)
  | audio_file :: rest =>
      let '(fs1, (t, r)) :=
        match file_exists fs (output_file audio_file) with
        | Raised e => (fs, raise e)
        | Returned true => (fs, print out (skipping_line total i audio_file))
        | Returned false => transcribe_one total i audio_file fs
        end in
      match r with
      | Raised e => (fs1, (t, Raised e))
      | Returned _ =>
          let '(fs', (t', r')) := example_4_loop total (S i) rest fs1 in
          (fs', (t ++ t', r'))
      end
  end.

Definition example_4 (audio_files : list string) (fs : FS) : FS * M unit :=
  example_4_loop (length audio_files) 1 audio_files fs.

(** The test of the loop is negative: the output file of [audio_file] is
    looked for and is not there. *)
Definition output_missing (fs : FS) (audio_file : string) : bool :=
  match file_exists fs (output_file audio_file) with
  | Returned false => true
  | _ => false
  end.

(** The transcriber leaves alone the outputs of the other files. *)
Definition keeps_other_outputs (audio_files : list string) : Prop :=
  ∀ fs f q, q ∈ map output_file audio_files → q ≠ output_file f →
    file_exists (transcribe_file fs f (output_file f)).1 q = file_exists fs q.

(** Whatever the transcriber raises is an [Exception]. *)
Definition raises_only_Exceptions : Prop :=
  ∀ fs f out e, (transcribe_file fs f out).2 = Raised e → is_Exception e = true.

(** The look for an output file always answers. *)
Definition exists_answers (audio_files : list string) : Prop :=
  ∀ fs f, f ∈ audio_files → ∃ b, file_exists fs (output_file f) = Returned b.

End example_4.

(** Standard output takes every text. *)
Definition encodes_all (out : Stdout) : Prop := ∀ s, encode_error out s = None.

End BatchMore.

(** * setup.py *)

Module Setup.

Definition double_quote : ascii := ascii_of_nat 34.
Definition apostrophe : ascii := ascii_of_nat 39.

(** The version that [setup.py] reads from the lines of [__init__.py]:
    the first line that starts with [__version__] decides, and its second
    [=]-separated field is stripped of blanks, then of double quotes, then
    of apostrophes; without such a line the version is ["1.0.0"]. *)
Definition read_version (lines : list string) : PyResult string :=
  match List.find (startswith "__version__") lines with
  | None => Returned "1.0.0"
  | Some line =>
      match split_on "=" line with
      | _ :: field :: _ =>
          Returned (strip_by (Ascii.eqb apostrophe)
                      (strip_by (Ascii.eqb double_quote) (strip field)))
      | _ => Raised (Exc (OtherException "IndexError") "list index out of range")
      end
  end.

(** No character of [s] is a blank, a quote of either kind or [=]. *)
Fixpoint plain (s : string) : bool :=
  match s with
  | EmptyString => true
  | String c r =>
      negb (is_space c) && negb (Ascii.eqb double_quote c)
      && negb (Ascii.eqb apostrophe c) && negb (Ascii.eqb c "=") && plain r
  end.

(** The line [__version__ = "v"]. *)
Definition version_line (v : string) : string :=
  "__version__ = " ++ String double_quote (v ++ String double_quote EmptyString).

End Setup.

Module MoreSamples.

(** An environment in which the configured log file cannot be opened. *)
Definition broken_env : Logging.Env := {|
  Logging.unicode := Samples.tables;
  Logging.search_error := None;
  Logging.other_attribute := Samples.attributes;
  Logging.format_error := fun _ => None;
  Logging.yaml_logging := Logging.yaml_logging Samples.file_env;
  Logging.now_date := "2024-01-01";
  Logging.now_time := "00-00-00";
  Logging.supports_color := true;
  Logging.open_log_file := fun _ =>
    Some (Exc (OtherException "PermissionError") "Permission denied")
|}.

(** The logging state after the set-up of [main] under [-q]. *)
Definition st_quiet : Logging.State :=
  (Logging.setup_logging Samples.quiet_env
     (Cli.logging_kwargs (Samples.args_of ["rec"; "-q"; "-r"])) Samples.st0).1.

Definition verbose_kwargs : Logging.setup_kwargs := {|
  Logging.kw_level := None; Logging.kw_log_file := None; Logging.kw_log_format := None;
  Logging.kw_date_format := None; Logging.kw_use_colors := None;
  Logging.kw_quiet := false; Logging.kw_verbose := true
|}.

Definition record : Colors.LogRecord := {|
  Colors.levelname := "ERROR";
  Colors.levelno := Logging.ERROR;
  Colors.logger_name := "persian_transcriber.cli";
  Colors.message := "Input path not found: x.mp3"
|}.

(** A stand-in for [logging.Formatter.format] that shows the level name
    and the message. *)
Definition base (fmt datefmt : string) (r : Colors.LogRecord) : string :=
  Colors.levelname r ++ " | " ++ Colors.message r.

(** A transcriber that is interrupted from the keyboard at [b.wav]. *)
Definition interrupted_engine (path : string) : PyResult transcription :=
  if String.eqb (path_name path) "b.wav"
  then Raised (Exc KeyboardInterrupt "")
  else Returned Samples.hello.

(** A file system as the list of the paths that exist. *)
Definition on_disk (fs : list string) (q : string) : PyResult bool :=
  Returned (existsb (String.eqb q) fs).

(** A transcriber that writes its output file, except for [b.mp3], where
    the engine fails. *)
Definition writer (fs : list string) (audio_file out : string)
    : list string * PyResult transcription :=
  if String.eqb (path_name audio_file) "b.mp3"
  then (fs, Raised (Exc (OtherException "EngineError") "decode failed"))
  else (out :: fs, Returned Samples.hello).

(** A transcriber that always writes its output file. *)
Definition sound_writer (fs : list string) (audio_file out : string)
    : list string * PyResult transcription :=
  (out :: fs, Returned Samples.hello).

Definition recordings : list string :=
  ["recordings/a.mp3"; "recordings/b.mp3"; "recordings/c.mp3"].

(** Only [c.mp3] has been transcribed before. *)
Definition disk : list string := ["transcriptions/c.txt"].

End MoreSamples.

(** * Properties *)

(** ** The trace monad and standard output *)

Ltac unfold_M :=
  unfold mbind, M_bind, mret, M_ret, emit, raise, lift in *; simpl in *.

Lemma bind_returned {A B} (t : list event) (a : A) (f : A -> M B) :
  (t, Returned a) ≫= f = (t ++ (f a).1, (f a).2).
Proof. unfold mbind, M_bind. by destruct (f a). Qed.

Lemma bind_raised {A B} (t : list event) (e : exn) (f : A -> M B) :
  (t, Raised e) ≫= f = (t, Raised e).
Proof. done. Qed.

Lemma ret_bind {A B} (a : A) (f : A -> M B) : mret a ≫= f = f a.
Proof. unfold mret, M_ret, mbind, M_bind. by destruct (f a). Qed.

Lemma lift_returned_bind {A B} (a : A) (f : A -> M B) : lift (Returned a) ≫= f = f a.
Proof. apply ret_bind. Qed.

Lemma lift_raised_bind {A B} (e : exn) (f : A -> M B) :
  lift (Raised e) ≫= f = ([], Raised e).
Proof. done. Qed.

Lemma emit_bind {B} (ev : event) (k : M B) : emit ev ≫= (fun _ => k) = (ev :: k.1, k.2).
Proof. unfold emit, mbind, M_bind. by destruct k. Qed.

Lemma print_ascii out s : is_ascii s = true → print out s = emit (Print s).
Proof. unfold print. by intros ->. Qed.

(** [print] writes its line or raises a [ValueError], and then writes
    nothing. *)
Lemma print_cases out s :
  print out s = ([Print s], Returned tt) ∨ ∃ msg, print out s = ([], Raised (Exc ValueError msg)).
Proof.
  unfold print. destruct (is_ascii s); [by left|].
  destruct (encode_error out s) as [msg|]; [right; by exists msg | by left].
Qed.

Lemma encodes_all_writes out s : BatchMore.encodes_all out → writes out s.
Proof. intros Hall. unfold writes, print. rewrite (Hall s). by destruct (is_ascii s). Qed.

Lemma utf8_terminal_encodes_all : BatchMore.encodes_all Samples.utf8_terminal.
Proof. by intros s. Qed.

Lemma transcribe_calls_app t1 t2 :
  transcribe_calls (t1 ++ t2) = transcribe_calls t1 ++ transcribe_calls t2.
Proof. unfold transcribe_calls. apply omap_app. Qed.

(** ** The batch loop of the example *)

Section batch_loop.
Import BatchExample.
Context (out : Stdout) (transcribe_file : string -> PyResult transcription).

Lemma example_1_item_spec total i g results :
  (∀ e, transcribe_file g = Raised e → is_Exception e = true) →
  writes out (processing_line total i g) →
  writes out (outcome_line (transcribe_file g)) →
  ∃ t, example_1_item out transcribe_file total i g results
       = (t, Returned (results ++ [outcome_entry g (transcribe_file g)]))
       ∧ transcribe_calls t = [g].
Proof.
  intros Hexc Hfirst Hsecond. unfold example_1_item, outcome_entry, outcome_line, handler in *.
  rewrite Hfirst. destruct (transcribe_file g) as [result|e] eqn:Hcall.
  - rewrite Hsecond. unfold_M. eexists. split; [reflexivity | done].
  - rewrite (Hexc e eq_refl), Hsecond. unfold_M. eexists. split; [reflexivity | done].
Qed.

Lemma example_1_loop_spec total audio_files :
  ∀ i results,
    only_Exceptions transcribe_file audio_files →
    (∀ j g, audio_files !! j = Some g →
       writes out (processing_line total (i + j) g)
       ∧ writes out (outcome_line (transcribe_file g))) →
    ∃ t, example_1_loop out transcribe_file total i audio_files results
         = (t, Returned (results ++ map (fun g => outcome_entry g (transcribe_file g)) audio_files))
         ∧ transcribe_calls t = audio_files.
Proof.
  induction audio_files as [|g rest IH]; intros i results Hexc Hlines; simpl.
  - exists []. by rewrite app_nil_r.
  - destruct (Hlines 0%nat g eq_refl) as [Hfirst Hsecond]. rewrite Nat.add_0_r in Hfirst.
    destruct (example_1_item_spec total i g results) as (t1 & Hitem & Hcalls1); [|done|done|].
    { intros e He. eapply Hexc; [left | done]. }
    destruct (IH (S i) (results ++ [outcome_entry g (transcribe_file g)]))
      as (t2 & Hloop & Hcalls2).
    { intros g' e Hin He. eapply Hexc; [by right | done]. }
    { intros j g' Hj. rewrite Nat.add_succ_comm. by apply Hlines. }
    rewrite Hitem, bind_returned, Hloop. simpl.
    exists (t1 ++ t2). split.
    + by rewrite <- app_assoc.
    + by rewrite transcribe_calls_app, Hcalls1, Hcalls2.
Qed.

Lemma success_entry_keys g result :
  has_key "error" (success_entry g result) = false
  ∧ has_key "text" (success_entry g result) = true.
Proof. by vm_compute. Qed.

Lemma failure_entry_keys g e :
  has_key "error" (failure_entry g e) = true
  ∧ has_key "text" (failure_entry g e) = false
  ∧ failure_entry g e !! "error" = Some (PyStr (str_exn e)).
Proof. by vm_compute. Qed.

Lemma outcome_entry_keys g r :
  has_key "error" (outcome_entry g r) = negb (has_key "text" (outcome_entry g r)).
Proof.
  destruct r as [result|e]; simpl.
  - by destruct (success_entry_keys g result) as [-> ->].
  - by destruct (failure_entry_keys g e) as (-> & -> & _).
Qed.

(** C1, as the code has it.  Failure isolation in the batch loop of
    [example_1_transcribe_directory], when standard output takes the two
    lines of every turn: if the call for the file at position [k] raises
    an exception, the loop still ends with one result per file; the result
    at position [k] is the failure record carrying the message of the
    exception; the result at every position is the one that the call for
    that file alone determines (the success record when the call returns);
    and [transcribe_file] has been called for every file, in order, so also
    for those after [k]. *)
Theorem failure_isolation (audio_files : list string) (k : nat) (f : string) (e : exn) :
  only_Exceptions transcribe_file audio_files →
  lines_written out transcribe_file audio_files →
  audio_files !! k = Some f →
  transcribe_file f = Raised e →
  ∃ t results,
    example_1_results out transcribe_file audio_files = (t, Returned results)
    ∧ length results = length audio_files
    ∧ results !! k = Some (failure_entry f e)
    ∧ failure_entry f e !! "error" = Some (PyStr (str_exn e))
    ∧ (∀ i g, audio_files !! i = Some g →
         results !! i = Some (outcome_entry g (transcribe_file g)))
    ∧ (∀ i g result, audio_files !! i = Some g → transcribe_file g = Returned result →
         results !! i = Some (success_entry g result))
    ∧ transcribe_calls t = audio_files.
Proof.
  intros Hexc Hlines Hk Hraise.
  destruct (example_1_loop_spec (length audio_files) audio_files 1 [] Hexc Hlines)
    as (t & Hloop & Hcalls).
  simpl in Hloop.
  assert (Hall : ∀ i g, audio_files !! i = Some g →
            map (fun g => outcome_entry g (transcribe_file g)) audio_files !! i
            = Some (outcome_entry g (transcribe_file g))).
  { intros i g Hi. by rewrite list_lookup_fmap, Hi. }
  exists t, (map (fun g => outcome_entry g (transcribe_file g)) audio_files).
  split_and!.
  - exact Hloop.
  - apply length_map.
  - rewrite (Hall k f Hk), Hraise. done.
  - by destruct (failure_entry_keys f e) as (_ & _ & ?).
  - exact Hall.
  - intros i g result Hi Hret. rewrite (Hall i g Hi), Hret. done.
  - exact Hcalls.
Qed.

(** Every record of the list that a turn leaves was there before or is
    one of the two kinds that the turn appends. *)
Lemma example_1_item_entries total i g results t results' :
  example_1_item out transcribe_file total i g results = (t, Returned results') →
  ∀ r, r ∈ results' → r ∈ results ∨ ∃ x, r = outcome_entry g x.
Proof.
  unfold example_1_item, handler.
  destruct (print_cases out (processing_line total i g)) as [->|[msg ->]]; [|done].
  destruct (transcribe_file g) as [result|e].
  - destruct (print_cases out (success_line result)) as [->|[msg ->]].
    + unfold_M. intros [= _ <-] r [Hr|Hr]%elem_of_app; [by left|].
      apply list_elem_of_singleton in Hr as ->. right. by exists (Returned result).
    + cbn [is_Exception].
      destruct (print_cases out (failure_line (Exc ValueError msg))) as [->|[msg' ->]];
        [|done].
      unfold_M. intros [= _ <-] r [[Hr|Hr]%elem_of_app|Hr]%elem_of_app.
      * by left.
      * apply list_elem_of_singleton in Hr as ->. right. by exists (Returned result).
      * apply list_elem_of_singleton in Hr as ->. right.
        by exists (Raised (Exc ValueError msg)).
  - destruct (is_Exception e); [|done].
    destruct (print_cases out (failure_line e)) as [->|[msg' ->]]; [|done].
    unfold_M. intros [= _ <-] r [Hr|Hr]%elem_of_app; [by left|].
    apply list_elem_of_singleton in Hr as ->. right. by exists (Raised e).
Qed.

Lemma example_1_loop_entries total audio_files :
  ∀ i results t results',
    example_1_loop out transcribe_file total i audio_files results = (t, Returned results') →
    ∀ r, r ∈ results' → r ∈ results ∨ ∃ g x, r = outcome_entry g x.
Proof.
  induction audio_files as [|g rest IH]; intros i results t results'; simpl.
  - intros [= _ <-] r Hr. by left.
  - destruct (example_1_item out transcribe_file total i g results) as [t1 [results1|e]] eqn:Hitem;
      [|done].
    rewrite bind_returned.
    destruct (example_1_loop out transcribe_file total (S i) rest results1) as [t2 r2] eqn:Hloop.
    simpl. intros [= _ ->] r Hr.
    destruct (IH _ _ _ _ Hloop r Hr) as [Hin|Hnew]; [|by right].
    destruct (example_1_item_entries _ _ _ _ _ _ Hitem r Hin) as [?|[x ->]]; [by left|].
    right. by exists g, x.
Qed.

End batch_loop.

Lemma sample_engine_only_Exceptions (audio_files : list string) :
  BatchExample.only_Exceptions Samples.engine audio_files.
Proof.
  intros g e _. unfold Samples.engine.
  destruct (String.eqb _ _); [|done]. by intros [= <-].
Qed.

Lemma utf8_lines_written transcribe_file (audio_files : list string) :
  BatchExample.lines_written Samples.utf8_terminal transcribe_file audio_files.
Proof.
  intros i g _. split; apply encodes_all_writes, utf8_terminal_encodes_all.
Qed.

Lemma failure_isolation_witness :
  BatchExample.only_Exceptions Samples.engine Samples.audio_files
  ∧ BatchExample.lines_written Samples.utf8_terminal Samples.engine Samples.audio_files
  ∧ Samples.audio_files !! 1%nat = Some "rec/b.wav"
  ∧ Samples.engine "rec/b.wav" = Raised (Exc (OtherException "EngineError") "decode failed")
  ∧ ∃ t results,
      BatchExample.example_1_results Samples.utf8_terminal Samples.engine Samples.audio_files
      = (t, Returned results)
      ∧ length results = 3%nat
      ∧ results !! 1%nat
        = Some (BatchExample.failure_entry "rec/b.wav"
                  (Exc (OtherException "EngineError") "decode failed"))
      ∧ transcribe_calls t = Samples.audio_files.
Proof.
  split; [apply sample_engine_only_Exceptions|].
  split; [apply utf8_lines_written|].
  split; [reflexivity|]. split; [reflexivity|].
  destruct (failure_isolation Samples.utf8_terminal Samples.engine Samples.audio_files 1
              "rec/b.wav" (Exc (OtherException "EngineError") "decode failed")
              (sample_engine_only_Exceptions _) (utf8_lines_written _ _) eq_refl eq_refl)
    as (t & results & Hrun & Hlen & Hk & _ & _ & _ & Hcalls).
  exists t, results. split_and!; assumption.
Defined.

(** C1, as stated, fails: on a standard output that cannot encode the
    mark of the failure line, the [print] of the [except] clause raises
    when the call for the first file has raised; the loop is left with that
    second exception, without a list of results, and the second file is
    never handed to the transcriber. *)
Lemma failure_line_not_written :
  Samples.engine "rec/b.wav" = Raised (Exc (OtherException "EngineError") "decode failed")
  ∧ ∃ msg,
      BatchExample.example_1_results Samples.ascii_terminal Samples.engine
        ["rec/b.wav"; "rec/c.mp3"]
      = ([Print (nl ++ "[1/2] Processing: b.wav"); CallTranscribeFile "rec/b.wav" None None],
         Raised (Exc ValueError msg))
      ∧ transcribe_calls
          (BatchExample.example_1_results Samples.ascii_terminal Samples.engine
             ["rec/b.wav"; "rec/c.mp3"]).1 = ["rec/b.wav"].
Proof. split; [reflexivity|]. eexists. split; reflexivity. Qed.

(** ** Results are successes or failures *)

(** The two counts of the summary of [main] add up, whatever the
    results are. *)
Lemma successful_plus_failed (results : list dict) :
  (Cli.successful results + length (Cli.failed results) = length results)%nat.
Proof.
  unfold Cli.successful, Cli.failed.
  induction results as [|r rest IH]; [done|].
  rewrite !filter_cons. destruct (has_key "error" r) eqn:Hr.
  - rewrite decide_False by done. rewrite decide_True by done. simpl. lia.
  - rewrite decide_True by done. rewrite decide_False by done. simpl. lia.
Qed.

Lemma failed_iff (results : list dict) (r : dict) :
  r ∈ Cli.failed results ↔ r ∈ results ∧ has_key "error" r = true.
Proof. unfold Cli.failed. rewrite list_elem_of_filter. tauto. Qed.

(** C8.  Every record that the batch loop produces carries an ["error"]
    field exactly when it carries no ["text"] payload, so the test
    ["error" in r] of the summary puts each record in exactly one class:
    the records without the field and the records with it are, together
    and up to order, all the records, and the two counts add up to the
    total. *)
Theorem result_success_xor_failure out transcribe_file (audio_files : list string)
    (t : list event) (results : list dict) :
  BatchExample.example_1_results out transcribe_file audio_files = (t, Returned results) →
  (∀ r, r ∈ results → has_key "error" r = negb (has_key "text" r))
  ∧ filter (fun r => has_key "error" r = false) results ++ Cli.failed results ≡ₚ results
  ∧ (Cli.successful results + length (Cli.failed results) = length results)%nat.
Proof.
  intros Hrun. split_and!.
  - intros r Hr.
    destruct (example_1_loop_entries _ _ _ _ _ _ _ _ Hrun r Hr) as [Hin|(g & x & ->)].
    + by apply elem_of_nil in Hin.
    + apply outcome_entry_keys.
  - unfold Cli.failed.
    etrans; [|apply (filter_app_complement (fun r => has_key "error" r = false))].
    apply Permutation_app_head.
    erewrite list_filter_iff; [reflexivity|].
    intros r. cbv beta. destruct (has_key "error" r); naive_solver.
  - apply successful_plus_failed.
Qed.

Lemma result_success_xor_failure_witness :
  ∃ t results,
    BatchExample.example_1_results Samples.utf8_terminal Samples.engine Samples.audio_files
    = (t, Returned results)
    ∧ (∀ r, r ∈ results → has_key "error" r = negb (has_key "text" r))
    ∧ (Cli.successful results + length (Cli.failed results) = 3)%nat.
Proof.
  destruct (example_1_loop_spec Samples.utf8_terminal Samples.engine 3 Samples.audio_files 1 []
              (sample_engine_only_Exceptions _) (utf8_lines_written _ _)) as (t & Hrun & _).
  eexists t, _. split; [exact Hrun|].
  destruct (result_success_xor_failure _ Samples.engine Samples.audio_files t _ Hrun)
    as (Hxor & _ & Hcount).
  split; [exact Hxor|]. rewrite Hcount. reflexivity.
Defined.

(** ** Logging set-up *)

Section logging.
Import Logging.
Context (env : Env).

Lemma lookup_update_logger name f st :
  manager (update_logger name f st) !! name = f <$> manager st !! name.
Proof. unfold update_logger, with_manager. simpl. apply lookup_alter_eq. Qed.

Lemma getLogger_manager name st :
  manager (getLogger name st).1
  = <[name := default new_logger (manager st !! name)]> (manager st)
  ∧ _loggers (getLogger name st).1 = _loggers st
  ∧ _config_cache (getLogger name st).1 = _config_cache st
  ∧ _initialized (getLogger name st).1 = _initialized st
  ∧ (getLogger name st).2 = name.
Proof.
  unfold getLogger. destruct (manager st !! name) as [lg|] eqn:Hlg; simpl.
  - split_and!; try done. by rewrite insert_id.
  - by split_and!.
Qed.

Lemma getLogger_spec name st :
  ∃ lg, (getLogger name st).2 = name
        ∧ manager (getLogger name st).1 !! name = Some lg
        ∧ _loggers (getLogger name st).1 = _loggers st
        ∧ _initialized (getLogger name st).1 = _initialized st.
Proof.
  destruct (getLogger_manager name st) as (Hm & Hl & _ & Hi & Hn).
  exists (default new_logger (manager st !! name)).
  split_and!; try done. rewrite Hm. apply lookup_insert_eq.
Qed.

(** [_load_config] changes nothing but the cache, and that only when it
    returns. *)
Lemma _load_config_returned e st st1 config :
  _load_config e st = (st1, Returned config) →
  manager st1 = manager st ∧ _loggers st1 = _loggers st
  ∧ _initialized st1 = _initialized st ∧ _config_cache st1 = Some config.
Proof.
  unfold _load_config. destruct (_config_cache st) as [c|] eqn:Hc.
  - by intros [= <- <-].
  - destruct (search_error e); [done|]. by intros [= <- <-].
Qed.

Lemma _load_config_raised e st st1 x :
  _load_config e st = (st1, Raised x) →
  st1 = st ∧ _config_cache st = None ∧ search_error e = Some x.
Proof.
  unfold _load_config. destruct (_config_cache st) as [c|] eqn:Hc; [done|].
  destruct (search_error e); [|done]. by intros [= <- <-].
Qed.

(** The package logger after a completed [setup_logging], field by
    field, and the rest of the state. *)
Lemma setup_logging_package kw st st' root :
  setup_logging env kw st = (st', Returned root) →
  ∃ config lv,
    (_load_config env st).2 = Returned config
    ∧ resolve_level env kw config = IntLevel lv
    ∧ root = package
    ∧ _initialized st' = true
    ∧ _loggers st' = _loggers st
    ∧ _config_cache st' = Some config
    ∧ manager st' !! package
      = Some {| handlers := built_handlers env kw config lv;
                level := lv;
                propagate := false;
                disabled := disabled (default new_logger (manager st !! package)) |}.
Proof.
  unfold setup_logging, built_handlers.
  destruct (_load_config env st) as [st1 [config|x]] eqn:Hload; [|done].
  apply _load_config_returned in Hload as (Hm & Hl & Hi & Hc).
  destruct (getLogger_manager package st1) as (Hget & Hloggers & Hcache & _ & Hname).
  destruct (getLogger package st1) as [st2 r]; simpl in *. subst r.
  rewrite Hm in Hget.
  destruct (resolve_level env kw config) as [lv|x] eqn:Hlv; [|done].
  intros Hrun. exists config, lv. revert Hrun.
  destruct (kw_quiet kw);
    destruct (resolve_log_file env kw config) as [f|];
    try destruct (open_log_file env (Path f));
    try destruct (format_error env _); try done;
    intros [= <- <-]; simpl; (split_and!; try done; try congruence);
    rewrite ?lookup_alter_eq, Hget, lookup_insert_eq; done.
Qed.

(** A call that raises leaves the module uninitialised if it was, and
    its cache of loggers as it was. *)
Lemma setup_logging_raised kw st st' x :
  setup_logging env kw st = (st', Raised x) →
  _initialized st' = _initialized st ∧ _loggers st' = _loggers st.
Proof.
  unfold setup_logging.
  destruct (_load_config env st) as [st1 [config|y]] eqn:Hload.
  - apply _load_config_returned in Hload as (Hm & Hl & Hi & Hc).
    destruct (getLogger_manager package st1) as (_ & Hloggers & _ & Hinit & _).
    destruct (getLogger package st1) as [st2 r]; simpl in *.
    destruct (resolve_level env kw config) as [lv|y].
    + destruct (kw_quiet kw);
        destruct (resolve_log_file env kw config) as [f|];
        try destruct (open_log_file env (Path f));
        try destruct (format_error env _); try done;
        intros [= <- _]; simpl; split; congruence.
    + intros [= <- _]. simpl. split; congruence.
  - apply _load_config_raised in Hload as (-> & _). by intros [= <- _].
Qed.

(** A call completes when the configuration is there, the level is a
    number and the log file, if there is one, can be opened and has a
    format that its formatter takes. *)
Lemma setup_logging_returns kw st config lv :
  (_load_config env st).2 = Returned config →
  resolve_level env kw config = IntLevel lv →
  (∀ f, resolve_log_file env kw config = Some f →
     open_log_file env (Path f) = None
     ∧ format_error env (default (cfg_format config) (kw_log_format kw)) = None) →
  ∃ st', setup_logging env kw st = (st', Returned package).
Proof.
  unfold setup_logging. destruct (_load_config env st) as [st1 r]; simpl.
  intros -> -> Hopen.
  destruct (getLogger_manager package st1) as (_ & _ & _ & _ & Hname).
  destruct (getLogger package st1) as [st2 r]; simpl in *. subst r.
  destruct (resolve_log_file env kw config) as [f|].
  - destruct (Hopen f eq_refl) as [-> ->]. eauto.
  - eauto.
Qed.

(** C10, as the code has it.  After every call of [setup_logging] that
    returns, whatever the state before it (so however many calls came
    before), the package logger does not propagate and its handlers are
    exactly those built by this call: the console handler unless [quiet] is
    set, then the file handler when a log file is resolved.  So there are at
    most two, none is a console handler when [quiet] is set, and there is a
    file handler exactly when a log file is resolved. *)
Theorem setup_logging_handler_invariant (kw : setup_kwargs) (st st' : State) (root : string) :
  setup_logging env kw st = (st', Returned root) →
  ∃ config lv lg,
    (_load_config env st).2 = Returned config
    ∧ resolve_level env kw config = IntLevel lv
    ∧ manager st' !! package = Some lg
    ∧ root = package
    ∧ propagate lg = false
    ∧ handlers lg = built_handlers env kw config lv
    ∧ (length (handlers lg) ≤ 2)%nat
    ∧ (kw_quiet kw = true → ∀ h, h ∈ handlers lg → is_console h = false)
    ∧ ((∃ h, h ∈ handlers lg ∧ is_file_handler h = true)
       ↔ is_Some (resolve_log_file env kw config)).
Proof.
  intros Hrun.
  destruct (setup_logging_package _ _ _ _ Hrun) as (config & lv & Hc & Hlv & -> & _ & _ & _ & Hlg).
  exists config, lv. eexists. split; [exact Hc|]. split; [exact Hlv|].
  split; [exact Hlg|]. simpl. unfold built_handlers.
  split_and!; try done.
  - destruct (kw_quiet kw), (resolve_log_file env kw _); simpl; lia.
  - intros ->. destruct (resolve_log_file env kw _); simpl.
    + intros h ->%list_elem_of_singleton. done.
    + intros h Hh. by apply elem_of_nil in Hh.
  - destruct (kw_quiet kw), (resolve_log_file env kw _) as [f|]; simpl.
    all: split; [intros (h & Hh & Hf) | intros [f' Hf']]; try done; try (by eexists).
    all: try (apply list_elem_of_In in Hh; simpl in Hh; intuition; subst; discriminate).
    all: exists (file_handler kw config f).
    all: split; [apply list_elem_of_In; simpl; tauto | done].
Qed.

Lemma startswith_package_dot name : startswith package (package ++ "." ++ name) = true.
Proof. reflexivity. Qed.

Lemma qualified_startswith name : startswith package (qualified name) = true.
Proof.
  unfold qualified. destruct (startswith package name) eqn:Hp; [done|].
  apply startswith_package_dot.
Qed.

Lemma get_logger_inv name st st' l :
  get_logger env name st = (st', Returned l) →
  _initialized st' = true ∧ _loggers st' !! qualified name = Some l
  ∧ (cache_consistent st → cache_consistent st' ∧ l = qualified name).
Proof.
  unfold get_logger.
  assert (Hsetup : ∃ st1 r,
    (if _initialized st then (st, Returned package) else setup_logging env no_kwargs st) = (st1, r)
    ∧ _loggers st1 = _loggers st
    ∧ (∀ x, r = Returned x → _initialized st1 = true)).
  { destruct (_initialized st) eqn:Hinit.
    - exists st, (Returned package). by split_and!.
    - destruct (setup_logging env no_kwargs st) as [st1 [root|e]] eqn:Hrun.
      + destruct (setup_logging_package _ _ _ _ Hrun) as (? & ? & _ & _ & _ & Hi & Hl & _).
        exists st1, (Returned root). by split_and!.
      + exists st1, (Raised e). split_and!; try done.
        by apply setup_logging_raised in Hrun as [_ ?]. }
  destruct Hsetup as (st1 & r & -> & Hloggers & Hinit).
  destruct r as [root|e]; [|done]. specialize (Hinit root eq_refl).
  destruct (_loggers st1 !! qualified name) as [l'|] eqn:Hcached.
  - intros [= <- <-]. split_and!; try done.
    intros Hwf. split.
    + intros n l0 Hn. apply Hwf. by rewrite <- Hloggers.
    + apply Hwf. by rewrite <- Hloggers.
  - destruct (getLogger_spec (qualified name) st1) as (lg0 & Hget & _ & Hloggers' & Hinit').
    destruct (getLogger (qualified name) st1) as [st2 l']; simpl in *. subst l'.
    intros [= <- <-]. simpl. split_and!.
    + congruence.
    + apply lookup_insert_eq.
    + intros Hwf. split; [|done].
      intros n l0. simpl. rewrite lookup_insert. case_decide as Hn.
      * congruence.
      * rewrite Hloggers', Hloggers. apply Hwf.
Qed.

(** [get_logger] is idempotent: a second call returns the logger of the
    first and leaves the state as it is. *)
Lemma get_logger_idempotent name st st' l :
  get_logger env name st = (st', Returned l) →
  get_logger env name st' = (st', Returned l).
Proof.
  intros (Hinit & Hcached & _)%get_logger_inv.
  unfold get_logger. by rewrite Hinit, Hcached.
Qed.

(** The name of the logger returned starts with the package name. *)
Lemma get_logger_name name st st' l :
  cache_consistent st →
  get_logger env name st = (st', Returned l) →
  l = qualified name ∧ startswith package l = true.
Proof.
  intros Hwf (_ & _ & Hl)%get_logger_inv. destruct (Hl Hwf) as [_ ->].
  split; [done|]. apply qualified_startswith.
Qed.

Lemma initial_cache_consistent m : cache_consistent (initial m).
Proof. intros name l. unfold initial. simpl. by rewrite lookup_empty. Qed.

End logging.

Lemma sample_setup_quiet_returns :
  Logging.setup_logging Samples.file_env Samples.quiet_kwargs Samples.st1
  = ((Logging.setup_logging Samples.file_env Samples.quiet_kwargs Samples.st1).1,
     Returned Logging.package).
Proof. vm_compute. reflexivity. Defined.

Lemma setup_logging_handler_invariant_witness :
  Logging.setup_logging Samples.file_env Samples.quiet_kwargs Samples.st1
  = ((Logging.setup_logging Samples.file_env Samples.quiet_kwargs Samples.st1).1,
     Returned Logging.package)
  ∧ (∃ lg1, Logging.manager Samples.st1 !! Logging.package = Some lg1
            ∧ length (Logging.handlers lg1) = 2%nat)
  ∧ ∃ lg,
      Logging.manager
        (Logging.setup_logging Samples.file_env Samples.quiet_kwargs Samples.st1).1
        !! Logging.package = Some lg
      ∧ Logging.propagate lg = false
      ∧ Logging.handlers lg
        = [Logging.FileHandler "logs/run-2024-01-01.log" Logging.DEBUG
             (Logging.PlainFormatter Logging.DEFAULT_FORMAT Logging.DEFAULT_DATE_FORMAT)].
Proof.
  split; [exact sample_setup_quiet_returns|]. split.
  - eexists. split; [vm_compute; reflexivity | reflexivity].
  - destruct (setup_logging_handler_invariant Samples.file_env Samples.quiet_kwargs
                Samples.st1 _ _ sample_setup_quiet_returns)
      as (config & lv & lg & Hc & Hlv & Hlg & _ & Hprop & Hh & _).
    exists lg. split_and!; [done | done |]. rewrite Hh.
    vm_compute in Hc. injection Hc as <-. reflexivity.
Defined.

(** C10, as stated, fails: a call that does not return leaves less.  With
    a log file that cannot be opened, the first [setup_logging()] raises
    after it has attached the console handler; the package logger then
    still propagates, and it has no file handler although a log file is
    resolved. *)
Lemma failed_setup_breaks_invariant :
  ∃ st' config lg,
    Logging.setup_logging MoreSamples.broken_env Logging.no_kwargs Samples.st0
    = (st', Raised (Exc (OtherException "PermissionError") "Permission denied"))
    ∧ (Logging._load_config MoreSamples.broken_env Samples.st0).2 = Returned config
    ∧ Logging.resolve_log_file MoreSamples.broken_env Logging.no_kwargs config
      = Some "logs/run-2024-01-01.log"
    ∧ Logging.manager st' !! Logging.package = Some lg
    ∧ Logging.propagate lg = true
    ∧ Logging.handlers lg
      = [Logging.console_handler MoreSamples.broken_env Logging.no_kwargs config Logging.DEBUG]
    ∧ Forall (fun h => Logging.is_file_handler h = false) (Logging.handlers lg).
Proof.
  eexists _, _, _. split; [vm_compute; reflexivity|].
  split; [reflexivity|]. split; [reflexivity|].
  split; [vm_compute; reflexivity|].
  split; [reflexivity|]. split; [reflexivity|].
  by repeat constructor.
Qed.

(** C9.  [get_logger] prefixes a name only when it does not start with
    the letters [persian_transcriber]; the name of a module of a package
    such as [persian_transcriber_tools] is therefore kept as it is, and the
    logger returned for it is neither the package logger nor below it in
    the logger hierarchy, although its name starts with those letters. *)
Theorem get_logger_sibling_outside_hierarchy :
  ∃ st',
    Logging.get_logger Samples.quiet_env Samples.sibling_module Samples.st0
    = (st', Returned "persian_transcriber_tools.audio")
    ∧ startswith Logging.package "persian_transcriber_tools.audio" = true
    ∧ Logging.in_package_hierarchy "persian_transcriber_tools.audio" = false.
Proof. eexists. split_and!; vm_compute; reflexivity. Qed.

(** ** The command line *)

(** Induction for functions that take one or two words of a list at a
    time. *)
Lemma list_ind_tail {A} (P : list A → Prop) :
  P [] → (∀ x l, P l → P (tail l) → P (x :: l)) → ∀ l, P l.
Proof.
  intros Hnil Hcons l.
  enough (P l ∧ P (tail l)) by tauto.
  induction l as [|x l [IH1 IH2]]; simpl; [done|]. split; [by apply Hcons | done].
Qed.

Section parser.
Import Cli.
Context (w : World).

(** [consume] writes to the trace only when it exits. *)
Lemma consume_returned parser argv :
  ∀ ns pending extras t ns',
    consume w parser ns pending extras argv = (t, Returned ns') → t = [] ∧ extras = [].
Proof.
  induction argv as [|s rest IH IH'] using list_ind_tail;
    intros ns pending extras t ns'; simpl.
  - destruct extras; [by intros [= <- _] | done].
  - repeat case_match; subst; simpl in *; try done.
    all: try (intros Hrun; apply IH in Hrun as [? Hex]; by destruct extras).
    all: try (intros Hrun; apply IH' in Hrun as [? Hex]; by destruct extras).
    all: intros Hrun; first [by apply IH in Hrun | by apply IH' in Hrun].
Qed.

(** When [argparse] ends the process, the status is 0 (help, version) or
    2 (usage error). *)
Lemma consume_raised parser argv :
  ∀ ns pending extras t e,
    consume w parser ns pending extras argv = (t, Raised e) →
    e = SystemExit 0 ∨ e = SystemExit 2.
Proof.
  induction argv as [|s rest IH IH'] using list_ind_tail;
    intros ns pending extras t e; simpl.
  - destruct extras; [done | intros [= _ <-]; by right].
  - repeat case_match; subst; simpl in *.
    all: try (intros [= _ <-]; by auto).
    all: intros Hrun; first [by apply IH in Hrun | by apply IH' in Hrun].
Qed.

Lemma find_option_In parser s a :
  find_option parser s = Some a → a ∈ parser ∧ s ∈ option_strings a.
Proof.
  unfold find_option. intros [Hin Hs]%find_some.
  split; [by apply list_elem_of_In | by apply bool_decide_eq_true in Hs].
Qed.

(** The only option string that sets [no_skip] is [--no-skip]. *)
Lemma find_option_no_skip s a :
  find_option (create_parser w) s = Some a →
  match action a with
  | StoreTrue dest _ | Store dest _ _ | Positional dest => dest = "no_skip" ↔ s = "--no-skip"
  | HelpAction | VersionAction => s ≠ "--no-skip"
  end.
Proof.
  intros [Hin Hs]%find_option_In.
  unfold create_parser in Hin.
  repeat (apply elem_of_cons in Hin as [->|Hin];
          [simpl in *;
           repeat (apply elem_of_cons in Hs as [->|Hs]; [first [done | by split]|]);
           by apply elem_of_nil in Hs |]).
  by apply elem_of_nil in Hin.
Qed.

Lemma find_no_skip :
  find_option (create_parser w) "--no-skip"
  = Some {| option_strings := ["--no-skip"]; action := StoreTrue "no_skip" false |}.
Proof. reflexivity. Qed.

Lemma attr_bool_insert_ne (ns : dict) d k v :
  d ≠ k → attr_bool (<[d := v]> ns) k = attr_bool ns k.
Proof. intros Hne. unfold attr_bool, attr. by rewrite lookup_insert_ne. Qed.

Lemma attr_bool_insert_true (ns : dict) k : attr_bool (<[k := PyBool true]> ns) k = true.
Proof. unfold attr_bool, attr. by rewrite lookup_insert_eq. Qed.

Lemma member_cons_ne (x s : string) (l : list string) :
  s ≠ x → bool_decide (x ∈ s :: l) = bool_decide (x ∈ l).
Proof.
  intros Hne. apply bool_decide_ext. rewrite elem_of_cons.
  split; [intros [?|?]; [congruence | done] | by right].
Qed.

Lemma no_dash_ne_no_skip s : startswith "-" s = false → s ≠ "--no-skip".
Proof. by intros Hs ->. Qed.

Lemma consume_cons parser ns pending extras s rest :
  consume w parser ns pending extras (s :: rest) =
  if startswith "-" s then
    match find_option parser s with
    | None => consume w parser ns pending (extras ++ [s]) rest
    | Some a =>
        match action a with
        | HelpAction => emit PrintHelp;; raise (SystemExit 0)
        | VersionAction => emit (PrintVersion (prog ++ " " ++ version w));; raise (SystemExit 0)
        | Positional _ => consume w parser ns pending (extras ++ [s]) rest
        | StoreTrue dest _ => consume w parser (<[dest := PyBool true]> ns) pending extras rest
        | Store dest _ choices =>
            match rest with
            | [] => parser_error (ExpectedOneArgument s)
            | v :: rest' =>
                if startswith "-" v then parser_error (ExpectedOneArgument s)
                else if match choices with
                        | Some cs => bool_decide (v ∈ cs)
                        | None => true
                        end
                then consume w parser (<[dest := PyStr v]> ns) pending extras rest'
                else parser_error (InvalidChoice s v)
            end
        end
    end
  else
    match pending with
    | dest :: pending' => consume w parser (<[dest := PyStr s]> ns) pending' extras rest
    | [] => consume w parser ns pending (extras ++ [s]) rest
    end.
Proof. reflexivity. Qed.

(** After a successful parse, [args.no_skip] tells whether [--no-skip]
    is among the words of the command line. *)
Lemma consume_no_skip argv :
  ∀ ns pending extras t ns',
    "no_skip" ∉ pending →
    consume w (create_parser w) ns pending extras argv = (t, Returned ns') →
    attr_bool ns' "no_skip" = attr_bool ns "no_skip" || bool_decide ("--no-skip" ∈ argv).
Proof.
  induction argv as [|s rest IH IH'] using list_ind_tail;
    intros ns pending extras t ns' Hpending.
  - simpl. destruct extras; [|done]. intros [= _ <-]. by rewrite orb_false_r.
  - rewrite consume_cons. destruct (startswith "-" s) eqn:Hdash.
    + destruct (find_option (create_parser w) s) as [a|] eqn:Hfind.
      * pose proof (find_option_no_skip s a Hfind) as Hdest.
        assert (Hflag : s = "--no-skip" → action a = StoreTrue "no_skip" false).
        { intros ->. rewrite find_no_skip in Hfind. by injection Hfind as <-. }
        destruct (action a) as [| |dest|dest dflt choices|dest dflt] eqn:Hact; try done.
        -- intros Hrun. apply IH in Hrun; [|done]. rewrite Hrun, member_cons_ne; [done|].
           intros ->. by specialize (Hflag eq_refl).
        -- destruct rest as [|v rest']; [done|].
           destruct (startswith "-" v) eqn:Hv; [done|].
           assert (Hs : s ≠ "--no-skip") by (intros ->; by specialize (Hflag eq_refl)).
           destruct (match choices with Some cs => bool_decide (v ∈ cs) | None => true end);
             [|done].
           intros Hrun. apply IH' in Hrun; [|done]. simpl in Hrun.
           rewrite Hrun, attr_bool_insert_ne by (intros ->; apply Hs; by apply Hdest).
           rewrite (member_cons_ne _ s) by done.
           by rewrite (member_cons_ne _ v) by by apply no_dash_ne_no_skip.
        -- intros Hrun. apply IH in Hrun; [|done]. rewrite Hrun.
           destruct (decide (s = "--no-skip")) as [->|Hs].
           ++ assert (dest = "no_skip") as -> by by apply Hdest.
              rewrite attr_bool_insert_true.
              assert (Hin : bool_decide ("--no-skip" ∈ "--no-skip" :: rest) = true)
                by (apply bool_decide_eq_true_2; left).
              rewrite Hin. by rewrite orb_true_r.
           ++ rewrite attr_bool_insert_ne by (intros ->; apply Hs; by apply Hdest).
              by rewrite member_cons_ne.
      * intros Hrun. apply IH in Hrun; [|done]. rewrite Hrun, member_cons_ne; [done|].
        intros ->. by rewrite find_no_skip in Hfind.
    + pose proof (no_dash_ne_no_skip s Hdash) as Hs.
      destruct pending as [|dest pending'].
      * intros Hrun. apply IH in Hrun; [|done]. by rewrite Hrun, member_cons_ne.
      * intros Hrun. apply IH in Hrun; [|set_solver].
        rewrite Hrun, attr_bool_insert_ne by set_solver. by rewrite member_cons_ne.
Qed.

Lemma parse_args_returned argv t args :
  parse_args w argv = Some (t, Returned args) →
  t = [] ∧ attr_bool args "no_skip" = bool_decide ("--no-skip" ∈ argv).
Proof.
  unfold parse_args. destruct (in_fragment _ argv); [|done].
  intros Hrun. apply (inj Some) in Hrun.
  split; [by apply consume_returned in Hrun as [? _]|].
  apply consume_no_skip in Hrun; [by rewrite Hrun|].
  simpl. by intros [=]%list_elem_of_singleton.
Qed.

Lemma parse_args_raised argv t e :
  parse_args w argv = Some (t, Raised e) → e = SystemExit 0 ∨ e = SystemExit 2.
Proof.
  unfold parse_args. destruct (in_fragment _ argv); [|done].
  intros Hrun. apply (inj Some) in Hrun.
  by apply consume_raised in Hrun.
Qed.

End parser.

(** ** main *)

Section main.
Import Cli CliMore.
Context (w : World).

Lemma main_unfold st argv t0 args st' root :
  parse_args w argv = Some (t0, Returned args) →
  Logging.setup_logging (logging_env w) (logging_kwargs args) st = (st', Returned root) →
  main w st argv
  = Some (st', if py_truthy (attr args "input") then main_guarded w args
               else ([PrintHelp], Returned 1%Z)).
Proof.
  intros Hparse Hsetup. destruct (parse_args_returned w _ _ _ Hparse) as [-> _].
  unfold main, main_parsed. rewrite Hparse, Hsetup.
  destruct (py_truthy (attr args "input")); simpl; [|done].
  by destruct (main_guarded w args).
Qed.

(** How the [try] statement turns the end of its body into a result. *)
Lemma main_guarded_cases args :
  match main_try w args with
  | (t, Returned _) => main_guarded w args = (t, Returned 0%Z)
  | (t, Raised (Exc KeyboardInterrupt _)) =>
      main_guarded w args = (t ++ [Print (nl ++ "Interrupted by user")], Returned 130%Z)
  | (t, Raised (Exc _ _)) => ∃ ev, main_guarded w args = (t ++ [ev], Returned 1%Z)
  | (t, Raised (SystemExit code)) => main_guarded w args = (t, Raised (SystemExit code))
  end.
Proof.
  unfold main_guarded.
  destruct (main_try w args) as [t [[]|[[| | |cls] msg|code]]]; eauto.
Qed.

(** Closes a goal made of equations between results, by cases. *)
Ltac exit_cases :=
  repeat match goal with
         | |- _ ∧ _ => split
         | |- _ ↔ _ => split; intros ?
         | H : _ ∧ _ |- _ => destruct H
         | H : _ ∨ _ |- _ => destruct H
         | H : ∃ _, _ |- _ => destruct H
         | H : (_, _) = (_, _) |- _ => injection H as ? ?
         end;
  subst; simpl in *; try discriminate; try done; eauto 10.

(** C2, as the code has it.  When [argparse] accepts the command line
    and the logging set-up completes, [main] returns 0 exactly when an
    input is given and the body of the [try] statement completes, 130
    exactly when the body raises [KeyboardInterrupt], and 1 exactly when no
    input is given or the body raises an [Exception]; the only other way
    out is a [SystemExit] raised inside the body, which no handler
    catches. *)
Theorem main_exit_codes (st : Logging.State) (argv : list string) (t0 : list event)
    (args : dict) (st' : Logging.State) (root : string) :
  parse_args w argv = Some (t0, Returned args) →
  Logging.setup_logging (logging_env w) (logging_kwargs args) st = (st', Returned root) →
  ∃ t r,
    main w st argv = Some (st', (t, r))
    ∧ (r = Returned 0%Z ∨ r = Returned 1%Z ∨ r = Returned 130%Z
       ∨ ∃ t' code, main_try w args = (t', Raised (SystemExit code))
                    ∧ r = Raised (SystemExit code))
    ∧ (r = Returned 0%Z ↔
         py_truthy (attr args "input") = true ∧ ∃ t', main_try w args = (t', Returned tt))
    ∧ (r = Returned 130%Z ↔
         py_truthy (attr args "input") = true
         ∧ ∃ t' msg, main_try w args = (t', Raised (Exc KeyboardInterrupt msg)))
    ∧ (r = Returned 1%Z ↔
         py_truthy (attr args "input") = false
         ∨ ∃ t' e, main_try w args = (t', Raised e) ∧ is_Exception e = true).
Proof.
  intros Hparse Hsetup. rewrite (main_unfold _ _ _ _ _ _ Hparse Hsetup).
  pose proof (main_guarded_cases args) as Hcases.
  destruct (py_truthy (attr args "input")).
  - destruct (main_try w args) as [t' [[]|[[| | |cls] msg|code]]];
      first [rewrite Hcases | destruct Hcases as [ev ->]];
      eexists _, _; (split; [reflexivity|]); exit_cases.
  - exists [PrintHelp], (Returned 1%Z). split; [done|]. exit_cases.
Qed.

(** The status on which [argparse] ends a run is 0 or 2. *)
Lemma main_parser_exit st argv t e :
  parse_args w argv = Some (t, Raised e) →
  main w st argv = Some (st, (t, Raised e)) ∧ (e = SystemExit 0 ∨ e = SystemExit 2).
Proof.
  intros Hparse. split; [|by eapply parse_args_raised].
  unfold main. by rewrite Hparse.
Qed.

(** C7, as the code has it.  When [argparse] accepts the command line,
    the logging set-up completes and [args.input] is missing (or the empty
    string), [main] prints the help text, does nothing else, and
    returns 1. *)
Theorem main_without_input (st : Logging.State) (argv : list string) (t0 : list event)
    (args : dict) (st' : Logging.State) (root : string) :
  parse_args w argv = Some (t0, Returned args) →
  Logging.setup_logging (logging_env w) (logging_kwargs args) st = (st', Returned root) →
  py_truthy (attr args "input") = false →
  main w st argv = Some (st', ([PrintHelp], Returned 1%Z)).
Proof.
  intros Hparse Hsetup Hinput.
  by rewrite (main_unfold _ _ _ _ _ _ Hparse Hsetup), Hinput.
Qed.

(** *** What the body of the [try] statement writes *)

Lemma only_prints_print out s : only_prints (print out s).
Proof. destruct (print_cases out s) as [->|[msg ->]]; [by exists [s] | by exists []]. Qed.

Lemma only_prints_ret {A} (a : A) : only_prints (mret a : M A).
Proof. by exists []. Qed.

Lemma only_prints_bind {A B} (m : M A) (f : A -> M B) :
  only_prints m → (∀ a, only_prints (f a)) → only_prints (m ≫= f).
Proof.
  intros [l1 H1] Hf. destruct m as [t [a|e]]; simpl in H1; subst.
  - destruct (Hf a) as [l2 H2]. rewrite bind_returned. simpl.
    exists (l1 ++ l2). by rewrite H2, map_app.
  - by exists l1.
Qed.

Lemma only_prints_print_failed l : only_prints (print_failed w l).
Proof.
  induction l as [|r l IH]; simpl; [apply only_prints_ret|].
  apply only_prints_bind; [apply only_prints_print | done].
Qed.

Lemma only_prints_print_summary results : only_prints (print_summary w results).
Proof.
  unfold print_summary.
  apply only_prints_bind; [apply only_prints_print | intros _].
  apply only_prints_bind; [apply only_prints_print | intros _].
  destruct (successful results <? length results)%nat; [|apply only_prints_ret].
  apply only_prints_bind; [apply only_prints_print | intros _].
  apply only_prints_print_failed.
Qed.

(** [validate_input] returns the [Path] of its argument. *)
Lemma validate_input_returned path p :
  validate_input w path = Returned p →
  p = Path path ∧ path_exists w (Path path) = Returned true.
Proof.
  unfold validate_input.
  destruct (path_exists w (Path path)) as [[]|]; try done.
  destruct (path_is_file w (Path path)) as [is_file|]; try done.
  destruct (_ && _); [done|]. by intros [= <-].
Qed.

(** The body makes at most one call, before anything it prints: of
    [transcribe_file], or of [scan_and_transcribe] with the arguments that
    the command line asks for. *)
Lemma main_try_trace args :
  ∃ pre lines r,
    main_try w args = (pre ++ map Print lines, r)
    ∧ (pre = [] ∨ (∃ p o b, pre = [CallTranscribeFile p o b]) ∨ pre = [scan_call args]).
Proof.
  unfold main_try.
  destruct (validate_input w (attr_str args "input")) as [input_path|e] eqn:Hv.
  2: { exists [], [], (Raised e). split; [done | by left]. }
  apply validate_input_returned in Hv as [-> _].
  rewrite lift_returned_bind.
  destruct (construct_config w _) as [e|]; simpl opt_raise.
  { exists [], [], (Raised e). split; [done | by left]. }
  rewrite ret_bind.
  destruct (construct_transcriber w _) as [e|]; simpl opt_raise.
  { exists [], [], (Raised e). split; [done | by left]. }
  rewrite ret_bind.
  destruct (path_is_file w _) as [[]|e].
  - rewrite lift_returned_bind, emit_bind.
    destruct (transcribe_file w _ _ _ _) as [result|e].
    + rewrite lift_returned_bind.
      assert (Hp : only_prints
                (if attr_bool args "no_save" then print (stdout w) (text result)
                 else print (stdout w)
                        (nl ++ "✓ Transcription saved to: " ++ default "N/A" (output_path result));;
                      print (stdout w) ("  Duration: " ++ get_2f w (duration result) ++ "s");;
                      print (stdout w)
                        ("  Processing time: " ++ get_2f w (processing_time result) ++ "s"))).
      { destruct (attr_bool args "no_save"); [apply only_prints_print|].
        apply only_prints_bind; [apply only_prints_print | intros _].
        apply only_prints_bind; [apply only_prints_print | intros _].
        apply only_prints_print. }
      destruct Hp as [lines Hlines]. eexists [_], lines, _. split.
      * simpl. rewrite Hlines. reflexivity.
      * right. left. by eexists _, _, _.
    + rewrite lift_raised_bind. eexists [_], [], _. split; [reflexivity|].
      right. left. by eexists _, _, _.
  - rewrite lift_returned_bind, emit_bind.
    destruct (scan_and_transcribe w _ _ _ _ _ _) as [results|e].
    + rewrite lift_returned_bind.
      destruct (only_prints_print_summary results) as [lines Hlines].
      eexists [_], lines, _. split.
      * simpl. rewrite Hlines. reflexivity.
      * by right; right.
    + rewrite lift_raised_bind. eexists [_], [], _. split; [reflexivity|]. by right; right.
  - rewrite lift_raised_bind. exists [], [], (Raised e). split; [done | by left].
Qed.

(** The handlers add nothing but a log record or a line. *)
Lemma main_guarded_trace args :
  ∃ pre rest r,
    main_guarded w args = (pre ++ rest, r)
    ∧ (pre = [] ∨ (∃ p o b, pre = [CallTranscribeFile p o b]) ∨ pre = [scan_call args])
    ∧ Forall (fun ev => match ev with
                        | Print _ | LogError _ | LogException _ => True
                        | _ => False
                        end) rest.
Proof.
  destruct (main_try_trace args) as (pre & lines & r & Htry & Hpre).
  assert (Hlines : ∀ ev,
            Forall (fun ev => match ev with
                              | Print _ | LogError _ | LogException _ => True
                              | _ => False
                              end) [ev] →
            Forall (fun ev => match ev with
                              | Print _ | LogError _ | LogException _ => True
                              | _ => False
                              end) (map Print lines ++ [ev])).
  { intros ev Hev. apply Forall_app. split; [|done].
    apply Forall_forall. by intros x [s [-> _]]%list_elem_of_fmap. }
  unfold main_guarded. rewrite Htry.
  destruct r as [[]|[[| | |cls] msg|code]].
  - exists pre, (map Print lines), (Returned 0%Z). split_and!; [done | done |].
    apply Forall_forall. by intros x [s [-> _]]%list_elem_of_fmap.
  - exists pre, (map Print lines ++ [LogError msg]), (Returned 1%Z).
    rewrite app_assoc. split_and!; [done | done |]. apply Hlines. by repeat constructor.
  - exists pre, (map Print lines ++ [LogError msg]), (Returned 1%Z).
    rewrite app_assoc. split_and!; [done | done |]. apply Hlines. by repeat constructor.
  - exists pre, (map Print lines ++ [Print (nl ++ "Interrupted by user")]), (Returned 130%Z).
    rewrite bind_returned, app_assoc. split_and!; [done | done |].
    apply Hlines. by repeat constructor.
  - exists pre, (map Print lines ++ [LogException ("Unexpected error: " ++ msg)]),
      (Returned 1%Z).
    rewrite app_assoc. split_and!; [done | done |]. apply Hlines. by repeat constructor.
  - exists pre, (map Print lines), (Raised (SystemExit code)). split_and!; [done | done |].
    apply Forall_forall. by intros x [s [-> _]]%list_elem_of_fmap.
Qed.

Lemma consume_no_calls parser argv :
  ∀ ns pending extras,
    Forall (fun ev => match ev with
                      | CallScanAndTranscribe _ _ _ _ _ => False
                      | _ => True
                      end) (consume w parser ns pending extras argv).1.
Proof.
  induction argv as [|s rest IH IH'] using list_ind_tail; intros ns pending extras.
  - simpl. destruct extras; by repeat constructor.
  - rewrite consume_cons. repeat case_match; subst; simpl in *;
      try (by repeat constructor).
    all: first [apply IH | apply IH'].
Qed.

(** Every call of [scan_and_transcribe] in the trace of [main] is the one
    that the parsed arguments ask for. *)
Lemma main_scan_calls st argv st' t r ev :
  main w st argv = Some (st', (t, r)) →
  ev ∈ t → is_scan ev = true →
  ∃ t0 args, parse_args w argv = Some (t0, Returned args)
             ∧ ev = scan_call args ∧ scan_events t = [scan_call args].
Proof.
  intros Hmain Hev Hscan. unfold main in Hmain.
  destruct (parse_args w argv) as [[t0 [args|e]]|] eqn:Hparse; [| |done].
  - exists t0, args. split; [done|].
    destruct (parse_args_returned w _ _ _ Hparse) as [-> _].
    unfold main_parsed in Hmain.
    destruct (Logging.setup_logging _ _ st) as [st1 [root|e]]; simpl in Hmain.
    + destruct (py_truthy (attr args "input")); simpl in Hmain.
      * destruct (main_guarded_trace args) as (pre & rest & r1 & Hg & Hpre & Hrest).
        rewrite Hg in Hmain. injection Hmain as _ <- _.
        assert (Hnone : scan_events rest = [] ∧ ∀ x, x ∈ rest → is_scan x = false).
        { clear -Hrest. induction Hrest as [|x rest Hx _ [IH1 IH2]]; [split; [done|]|].
          - intros x Hx. by apply elem_of_nil in Hx.
          - destruct x; try done; simpl; (split; [done|]);
              intros y [->|Hy]%elem_of_cons; auto. }
        destruct Hnone as [Hnone Hrest'].
        unfold scan_events in *. rewrite List.filter_app, Hnone, app_nil_r.
        apply elem_of_app in Hev as [Hev|Hev]; [|by rewrite (Hrest' _ Hev) in Hscan].
        destruct Hpre as [->|[(p & o & b & ->)| ->]].
        -- by apply elem_of_nil in Hev.
        -- apply list_elem_of_singleton in Hev as ->. done.
        -- apply list_elem_of_singleton in Hev as ->. done.
      * injection Hmain as _ <- _. apply list_elem_of_singleton in Hev as ->. done.
    + injection Hmain as _ <- _. by apply elem_of_nil in Hev.
  - injection Hmain as _ <- _.
    unfold parse_args in Hparse. destruct (in_fragment _ argv); [|done].
    apply (inj Some) in Hparse.
    pose proof (consume_no_calls (create_parser w) argv
                  (namespace_defaults (create_parser w)) (positionals (create_parser w)) [])
      as Hnone.
    rewrite Hparse in Hnone. simpl in Hnone.
    rewrite Forall_forall in Hnone. specialize (Hnone ev Hev). by destruct ev.
Qed.

(** C5.  Whenever [main] calls [scan_and_transcribe], the
    [skip_existing] argument is [True] if the command line has no
    [--no-skip] (so in particular if it has neither skip flag) and [False]
    if it has [--no-skip]; [--skip-existing] changes nothing. *)
Theorem skip_existing_default_and_override (st : Logging.State) (argv : list string)
    (st' : Logging.State) (t : list event) (r : PyResult Z)
    (path : string) (recursive skip : bool) (output_directory : option string)
    (progress : bool) :
  main w st argv = Some (st', (t, r)) →
  CallScanAndTranscribe path recursive skip output_directory progress ∈ t →
  ("--no-skip" ∉ argv → skip = true) ∧ ("--no-skip" ∈ argv → skip = false).
Proof.
  intros Hmain Hcall.
  destruct (main_scan_calls _ _ _ _ _ _ Hmain Hcall eq_refl) as (t0 & args & Hparse & Hev & _).
  destruct (parse_args_returned w _ _ _ Hparse) as [_ Hskip].
  unfold scan_call in Hev. injection Hev as _ _ -> _ _. rewrite Hskip.
  split; intros Hin.
  - by rewrite bool_decide_eq_false_2.
  - by rewrite bool_decide_eq_true_2.
Qed.

(** *** The summary *)

Lemma failed_filter (results : list dict) :
  failed results = List.filter (has_key "error") results.
Proof.
  unfold failed. induction results as [|r rest IH]; [done|].
  rewrite filter_cons. cbn [List.filter]. destruct (has_key "error" r) eqn:Hr.
  - rewrite decide_True by done. by rewrite IH.
  - rewrite decide_False by done. done.
Qed.

Lemma successful_filter (results : list dict) :
  successful results = length (List.filter (fun r => negb (has_key "error" r)) results).
Proof.
  unfold successful. induction results as [|r rest IH]; [done|].
  rewrite filter_cons. cbn [List.filter]. destruct (has_key "error" r) eqn:Hr; cbn [negb].
  - rewrite decide_False by done. done.
  - rewrite decide_True by done. cbn [length]. by rewrite IH.
Qed.

Lemma successful_lt (results : list dict) :
  (successful results <? length results)%nat = existsb (has_key "error") results.
Proof.
  pose proof (successful_plus_failed results) as Hsum.
  rewrite failed_filter in Hsum.
  assert (Hex : existsb (has_key "error") results
                = negb (length (List.filter (has_key "error") results) =? 0)%nat).
  { clear. induction results as [|r rest IH]; [done|]. simpl.
    destruct (has_key "error" r); simpl; [done | exact IH]. }
  rewrite Hex. destruct (Nat.eqb_spec (length (List.filter (has_key "error") results)) 0).
  - apply Nat.ltb_ge. lia.
  - apply Nat.ltb_lt. lia.
Qed.

Lemma print_failed_written (l : list dict) :
  Forall (writes (stdout w)) (map (failed_line w) l) →
  print_failed w l = (map Print (map (failed_line w) l), Returned tt).
Proof.
  induction l as [|r l IH]; [done|]. simpl. intros [Hr Hl]%Forall_cons.
  rewrite Hr, emit_bind, (IH Hl). done.
Qed.

(** When standard output takes them, the summary is the lines of
    [summary_lines]. *)
Lemma print_summary_written (results : list dict) :
  Forall (writes (stdout w)) (summary_lines w results) →
  print_summary w results = (map Print (summary_lines w results), Returned tt).
Proof.
  unfold print_summary, summary_lines.
  rewrite successful_lt, successful_filter, failed_filter.
  intros [H1 [H2 H3]%Forall_cons]%Forall_cons.
  rewrite H1, emit_bind, H2, emit_bind.
  destruct (existsb (has_key "error") results); [|done].
  apply Forall_cons in H3 as [H3 H4].
  rewrite H3, emit_bind, (print_failed_written _ H4). done.
Qed.

(** The trace of the directory branch. *)
Lemma main_try_batch args results :
  batch_completes w args results →
  main_try w args
  = (let '(t, r) := print_summary w results in (scan_call args :: t, r)).
Proof.
  intros (_ & Hexists & Hfile & Hconfig & Htranscriber & Hscan).
  unfold main_try, validate_input.
  rewrite Hexists, Hfile. simpl andb. cbv iota.
  rewrite lift_returned_bind, Hconfig, Htranscriber. simpl opt_raise.
  rewrite !ret_bind, Hfile, lift_returned_bind, emit_bind, Hscan, lift_returned_bind.
  by destruct (print_summary w results).
Qed.

(** C3, as the code has it.  In the directory branch, when
    [scan_and_transcribe] returns and standard output takes the lines of the
    summary, [main] calls nothing else, prints the summary and returns 0,
    whatever the results are.  The summary is the headline, the count of
    the results without an ["error"] field out of all and, when some result
    has the field, a heading and then one line for each such result and for
    no other, in their order; the line of a result with a file name and an
    error message has both. *)
Theorem batch_summary_exit_0 (st : Logging.State) (argv : list string) (t0 : list event)
    (args : dict) (st' : Logging.State) (root : string) (results : list dict) :
  parse_args w argv = Some (t0, Returned args) →
  Logging.setup_logging (logging_env w) (logging_kwargs args) st = (st', Returned root) →
  batch_completes w args results →
  Forall (writes (stdout w)) (summary_lines w results) →
  main w st argv
  = Some (st', (scan_call args :: map Print (summary_lines w results), Returned 0%Z))
  ∧ (∀ r file err, r ∈ results →
       r !! "file" = Some (PyStr file) → r !! "error" = Some (PyStr err) →
       ("    - " ++ file ++ ": " ++ err)%string ∈ summary_lines w results)
  ∧ (∀ r, r ∈ results → has_key "error" r = true →
       failed_line w r ∈ summary_lines w results)
  ∧ length (summary_lines w results)
    = (if existsb (has_key "error") results
       then 3 + length (List.filter (has_key "error") results) else 2)%nat.
Proof.
  intros Hparse Hsetup Hbatch Hlines.
  rewrite (main_unfold _ _ _ _ _ _ Hparse Hsetup).
  pose proof (main_guarded_cases args) as Hguard.
  rewrite (main_try_batch _ _ Hbatch), (print_summary_written _ Hlines) in Hguard.
  rewrite Hguard. destruct Hbatch as (-> & _).
  assert (Hfailed : ∀ r, r ∈ results → has_key "error" r = true →
            failed_line w r ∈ summary_lines w results).
  { intros r Hr Herr. unfold summary_lines.
    assert (Hex : existsb (has_key "error") results = true).
    { apply existsb_exists. exists r. split; [by apply list_elem_of_In | done]. }
    rewrite Hex. apply elem_of_app. right. right.
    apply list_elem_of_fmap. exists r. split; [done|].
    apply list_elem_of_In, List.filter_In. split; [by apply list_elem_of_In | done]. }
  split_and!.
  - done.
  - intros r file err Hr Hf He.
    assert (Hline : failed_line w r = ("    - " ++ file ++ ": " ++ err)%string).
    { unfold failed_line. by rewrite Hf, He. }
    rewrite <- Hline. apply Hfailed; [done|].
    unfold has_key. rewrite He. by apply bool_decide_eq_true_2.
  - exact Hfailed.
  - unfold summary_lines. rewrite length_app.
    destruct (existsb (has_key "error") results); simpl; [|done].
    by rewrite length_map.
Qed.

End main.

(** ** main on sample command lines *)

Lemma sample_parse_rec :
  Cli.parse_args Samples.world ["rec"] = Some ([], Returned (Samples.args_of ["rec"])).
Proof. reflexivity. Qed.

Lemma sample_setup_rec :
  Logging.setup_logging (Cli.logging_env Samples.world)
    (Cli.logging_kwargs (Samples.args_of ["rec"])) Samples.st0
  = (Samples.st_main, Returned Logging.package).
Proof. vm_compute. reflexivity. Qed.

Lemma main_exit_codes_witness :
  Cli.parse_args Samples.world ["rec"] = Some ([], Returned (Samples.args_of ["rec"]))
  ∧ Logging.setup_logging (Cli.logging_env Samples.world)
      (Cli.logging_kwargs (Samples.args_of ["rec"])) Samples.st0
    = (Samples.st_main, Returned Logging.package)
  ∧ ∃ t r, Cli.main Samples.world Samples.st0 ["rec"] = Some (Samples.st_main, (t, r))
           ∧ (r = Returned 0%Z ∨ r = Returned 1%Z ∨ r = Returned 130%Z
              ∨ ∃ t' code,
                  Cli.main_try Samples.world (Samples.args_of ["rec"])
                  = (t', Raised (SystemExit code))
                  ∧ r = Raised (SystemExit code)).
Proof.
  split; [exact sample_parse_rec|]. split; [exact sample_setup_rec|].
  destruct (main_exit_codes Samples.world Samples.st0 ["rec"] [] _ _ _
              sample_parse_rec sample_setup_rec)
    as (t & r & Hmain & Hcodes & _).
  by exists t, r.
Defined.

(** C2, as stated, fails: a value outside the choices of [--device] makes
    [argparse] end the run with status 2. *)
Lemma invalid_choice_exits_2 :
  Cli.main Samples.world Samples.st0 ["rec/a.mp3"; "-d"; "tpu"]
  = Some (Samples.st0, ([UsageError (InvalidChoice "-d" "tpu")], Raised (SystemExit 2)))
  ∧ Cli.exit_status (Raised (SystemExit 2)) = Some 2%Z
  ∧ (2 ≠ 0 ∧ 2 ≠ 1 ∧ 2 ≠ 130)%Z.
Proof. split_and!; [by vm_compute | done..]. Qed.

Lemma main_without_input_witness :
  Cli.parse_args Samples.world ["-v"] = Some ([], Returned (Samples.args_of ["-v"]))
  ∧ py_truthy (Cli.attr (Samples.args_of ["-v"]) "input") = false
  ∧ ∃ st', Logging.setup_logging (Cli.logging_env Samples.world)
             (Cli.logging_kwargs (Samples.args_of ["-v"])) Samples.st0
           = (st', Returned Logging.package)
           ∧ Cli.main Samples.world Samples.st0 ["-v"]
             = Some (st', ([PrintHelp], Returned 1%Z)).
Proof.
  assert (Hparse : Cli.parse_args Samples.world ["-v"]
                   = Some ([], Returned (Samples.args_of ["-v"])))
    by reflexivity.
  assert (Hinput : py_truthy (Cli.attr (Samples.args_of ["-v"]) "input") = false)
    by reflexivity.
  destruct (setup_logging_returns (Cli.logging_env Samples.world)
              (Cli.logging_kwargs (Samples.args_of ["-v"])) Samples.st0
              Logging.DEFAULT_CONFIG Logging.DEBUG) as [st' Hsetup];
    [reflexivity | reflexivity | by intros f [=] |].
  split; [exact Hparse|]. split; [exact Hinput|].
  exists st'. split; [exact Hsetup|].
  exact (main_without_input Samples.world Samples.st0 ["-v"] [] _ st' _ Hparse Hsetup Hinput).
Defined.

(** C7, as stated, fails: with [--version] and no input path, [argparse]
    prints the version and ends the run with status 0; no help text, no
    return of 1. *)
Lemma version_without_input_exits_0 :
  ∃ t r,
    Cli.main Samples.world Samples.st0 ["--version"] = Some (Samples.st0, (t, r))
    ∧ t = [PrintVersion "persian-transcriber 1.0.0"]
    ∧ r = Raised (SystemExit 0)
    ∧ (PrintHelp ∉ t)
    ∧ r ≠ Returned 1%Z.
Proof.
  eexists _, _. split; [by vm_compute|]. split_and!; try done.
  by intros [=]%list_elem_of_singleton.
Qed.

Lemma sample_batch_completes :
  Cli.batch_completes Samples.world (Samples.args_of ["rec"]) Samples.scan_results.
Proof. unfold Cli.batch_completes. split_and!; vm_compute; reflexivity. Defined.

Lemma batch_summary_exit_0_witness :
  Cli.parse_args Samples.world ["rec"] = Some ([], Returned (Samples.args_of ["rec"]))
  ∧ Cli.batch_completes Samples.world (Samples.args_of ["rec"]) Samples.scan_results
  ∧ Forall (writes (Cli.stdout Samples.world))
      (CliMore.summary_lines Samples.world Samples.scan_results)
  ∧ Cli.main Samples.world Samples.st0 ["rec"]
    = Some (Samples.st_main,
            ([CallScanAndTranscribe "rec" false true None true;
              Print (nl ++ "✓ Batch processing complete");
              Print "  Successful: 1/2";
              Print "  Failed files:";
              Print "    - rec/b.wav: decode failed"],
             Returned 0%Z)).
Proof.
  assert (Hlines : Forall (writes (Cli.stdout Samples.world))
                     (CliMore.summary_lines Samples.world Samples.scan_results)).
  { apply Forall_forall. intros s _. apply encodes_all_writes, utf8_terminal_encodes_all. }
  split; [exact sample_parse_rec|]. split; [exact sample_batch_completes|].
  split; [exact Hlines|].
  exact (proj1 (batch_summary_exit_0 Samples.world Samples.st0 ["rec"] [] _ _ _ _
                  sample_parse_rec sample_setup_rec sample_batch_completes Hlines)).
Defined.

(** C3, as stated, fails: the summary is printed inside the [try]
    statement, and its headline has a check mark.  On a standard output
    that cannot encode the mark the [print] raises [UnicodeEncodeError], a
    [ValueError]: the run, which has completed the batch, logs that error,
    prints no summary and returns 1. *)
Lemma summary_not_encodable_exits_1 :
  Cli.batch_completes Samples.ascii_world (Samples.args_of ["rec"]) Samples.scan_results
  ∧ Cli.main Samples.ascii_world Samples.st0 ["rec"]
    = Some (Samples.st_main,
            ([CallScanAndTranscribe "rec" false true None true;
              LogError ("'ascii' codec can't encode character '\u2713' in position 1: "
                        ++ "ordinal not in range(128)")],
             Returned 1%Z)).
Proof.
  split; [unfold Cli.batch_completes; split_and!; vm_compute; reflexivity|].
  vm_compute. reflexivity.
Qed.

Lemma skip_existing_default_and_override_witness :
  (Cli.main Samples.world Samples.st0 ["rec"]
   = Some (Samples.st_main, (Samples.trace_of ["rec"], Returned 0%Z))
   ∧ CallScanAndTranscribe "rec" false true None true ∈ Samples.trace_of ["rec"]
   ∧ ("--no-skip" ∉ ["rec"])
   ∧ ∀ skip, CallScanAndTranscribe "rec" false skip None true ∈ Samples.trace_of ["rec"] →
             skip = true)
  ∧ (Cli.main Samples.world Samples.st0 ["rec"; "--no-skip"]
     = Some (Samples.st_main, (Samples.trace_of ["rec"; "--no-skip"], Returned 0%Z))
     ∧ CallScanAndTranscribe "rec" false false None true
       ∈ Samples.trace_of ["rec"; "--no-skip"]
     ∧ "--no-skip" ∈ ["rec"; "--no-skip"]
     ∧ ∀ skip, CallScanAndTranscribe "rec" false skip None true
               ∈ Samples.trace_of ["rec"; "--no-skip"] → skip = false).
Proof.
  assert (H1 : Cli.main Samples.world Samples.st0 ["rec"]
               = Some (Samples.st_main, (Samples.trace_of ["rec"], Returned 0%Z)))
    by (vm_compute; reflexivity).
  assert (H2 : Cli.main Samples.world Samples.st0 ["rec"; "--no-skip"]
               = Some (Samples.st_main, (Samples.trace_of ["rec"; "--no-skip"], Returned 0%Z)))
    by (vm_compute; reflexivity).
  assert (Hno : "--no-skip" ∉ ["rec"]).
  { intros Hin. apply elem_of_cons in Hin as [[=]|Hin]. by apply elem_of_nil in Hin. }
  assert (Hyes : "--no-skip" ∈ ["rec"; "--no-skip"]) by (right; left).
  split; split_and!; try assumption.
  - vm_compute. left.
  - intros skip Hcall.
    exact (proj1 (skip_existing_default_and_override Samples.world Samples.st0 ["rec"]
                    _ _ _ _ _ skip _ _ H1 Hcall) Hno).
  - vm_compute. left.
  - intros skip Hcall.
    exact (proj2 (skip_existing_default_and_override Samples.world Samples.st0
                    ["rec"; "--no-skip"] _ _ _ _ _ skip _ _ H2 Hcall) Hyes).
Defined.

(** ** validate_input *)

Lemma string_app_assoc (a b c : string) : (a ++ (b ++ c) = (a ++ b) ++ c)%string.
Proof.
  induction a as [|x a IH]; [reflexivity|].
  change (String x (a ++ (b ++ c)) = String x ((a ++ b) ++ c))%string. by f_equal.
Qed.

Lemma startswith_app (p s : string) : startswith p (p ++ s) = true.
Proof.
  unfold startswith. induction p as [|c p IH]; [by destruct s|].
  change (String.prefix (String c p) (String c (p ++ s)) = true)%string. simpl.
  by destruct (ascii_dec c c).
Qed.

(** C4, as the code has it.  [validate_input] on a single path, which it
    turns into a [Path] first.  When the look for the path answers that it
    does not exist, [FileNotFoundError] is raised (the path-not-found error
    of the specification), with the path as it was given; an existing file
    whose lower-cased suffix is not in [SUPPORTED_EXTENSIONS] raises
    [ValueError] (its unsupported-format error); an existing file with a
    supported suffix is returned, as the one item to transcribe.  When the
    look itself fails, as it does with [OSError] for a name that is too
    long, that exception leaves [validate_input] instead. *)
Theorem validate_input_single_file (w : Cli.World) (path : string) :
  let u := Logging.unicode (Cli.logging_env w) in
  (Cli.path_exists w (Path path) = Returned false →
     Cli.validate_input w path
     = Raised (Exc FileNotFoundError ("Input path not found: " ++ path)))
  ∧ (Cli.path_exists w (Path path) = Returned true →
     Cli.path_is_file w (Path path) = Returned true →
     lower u (path_suffix (Path path)) ∉ Cli.SUPPORTED_EXTENSIONS w →
     ∃ msg, Cli.validate_input w path = Raised (Exc ValueError msg)
            ∧ startswith ("Unsupported file format: " ++ path_suffix (Path path)) msg = true)
  ∧ (Cli.path_exists w (Path path) = Returned true →
     Cli.path_is_file w (Path path) = Returned true →
     lower u (path_suffix (Path path)) ∈ Cli.SUPPORTED_EXTENSIONS w →
     Cli.validate_input w path = Returned (Path path))
  ∧ (∀ e, Cli.path_exists w (Path path) = Raised e ∨
          (Cli.path_exists w (Path path) = Returned true
           ∧ Cli.path_is_file w (Path path) = Raised e) →
     Cli.validate_input w path = Raised e).
Proof.
  intros u. unfold u, Cli.validate_input. split_and!.
  - by intros ->.
  - intros -> -> Hext. rewrite bool_decide_eq_false_2 by done.
    eexists. split; [reflexivity|].
    rewrite (string_app_assoc "Unsupported file format: "). apply startswith_app.
  - intros -> -> Hext. by rewrite bool_decide_eq_true_2.
  - intros e [->|[-> ->]]; done.
Qed.

Lemma validate_input_single_file_witness :
  (Cli.path_exists Samples.world (Path "missing.mp3") = Returned false
   ∧ Cli.validate_input Samples.world "missing.mp3"
     = Raised (Exc FileNotFoundError "Input path not found: missing.mp3"))
  ∧ (Cli.path_exists Samples.world (Path "notes.pdf") = Returned true
     ∧ Cli.path_is_file Samples.world (Path "notes.pdf") = Returned true
     ∧ (lower Samples.tables (path_suffix (Path "notes.pdf"))
        ∉ Cli.SUPPORTED_EXTENSIONS Samples.world)
     ∧ ∃ msg, Cli.validate_input Samples.world "notes.pdf" = Raised (Exc ValueError msg))
  ∧ (Cli.path_exists Samples.world (Path "./rec//a.mp3") = Returned true
     ∧ Cli.path_is_file Samples.world (Path "./rec//a.mp3") = Returned true
     ∧ lower Samples.tables (path_suffix (Path "./rec//a.mp3"))
       ∈ Cli.SUPPORTED_EXTENSIONS Samples.world
     ∧ Cli.validate_input Samples.world "./rec//a.mp3" = Returned "rec/a.mp3").
Proof.
  assert (Hpdf : lower Samples.tables (path_suffix (Path "notes.pdf"))
                 ∉ Cli.SUPPORTED_EXTENSIONS Samples.world).
  { apply (bool_decide_eq_false_1 _). vm_compute. reflexivity. }
  assert (Hmp3 : lower Samples.tables (path_suffix (Path "./rec//a.mp3"))
                 ∈ Cli.SUPPORTED_EXTENSIONS Samples.world).
  { apply (bool_decide_eq_true_1 _). vm_compute. reflexivity. }
  split; [|split].
  - split; [reflexivity|].
    exact (proj1 (validate_input_single_file Samples.world "missing.mp3") eq_refl).
  - split; [reflexivity|]. split; [reflexivity|]. split; [exact Hpdf|].
    destruct (proj1 (proj2 (validate_input_single_file Samples.world "notes.pdf"))
                eq_refl eq_refl Hpdf) as (msg & Hmsg & _).
    by exists msg.
  - split; [reflexivity|]. split; [reflexivity|]. split; [exact Hmp3|].
    exact (proj1 (proj2 (proj2 (validate_input_single_file Samples.world "./rec//a.mp3")))
             eq_refl eq_refl Hmp3).
Defined.

(** C4, as stated, fails: a path whose name is longer than the file
    system allows does not exist, but the look for it raises [OSError], and
    that, not [FileNotFoundError], is what leaves [validate_input]; [main]
    then reports an unexpected error. *)
Lemma name_too_long_is_no_FileNotFoundError :
  Cli.validate_input Samples.limited_world Samples.long_name
  = Raised (Samples.name_too_long Samples.long_name)
  ∧ (∀ msg, Cli.validate_input Samples.limited_world Samples.long_name
            ≠ Raised (Exc FileNotFoundError msg))
  ∧ ∃ msg, Cli.main_guarded Samples.limited_world
             (<["input" := PyStr Samples.long_name]> ∅)
           = ([LogException msg], Returned 1%Z)
           ∧ startswith "Unexpected error: [Errno 36] File name too long" msg = true.
Proof.
  assert (Hv : Cli.validate_input Samples.limited_world Samples.long_name
               = Raised (Samples.name_too_long Samples.long_name)) by (vm_compute; reflexivity).
  split; [exact Hv|]. split; [by rewrite Hv|].
  eexists. split; [vm_compute; reflexivity | reflexivity].
Qed.

(** ** Configuration precedence *)

Section resolver.
Import ConfigResolver.

Lemma pick_explicit {A} (dflt : A) file env (x : A) : pick dflt file env (Some x) = x.
Proof. done. Qed.

(** C6.  In the resolver of the specification, a setting given by the
    explicit overrides is the setting of the resolved configuration,
    whatever the defaults, the configuration file and the environment say;
    and the resolver yields a configuration whenever the engine it resolves
    is one of the enumeration. *)
Theorem explicit_overrides_take_precedence (engine_kinds : list string)
    (defaults : Configuration) (file_config env_overrides : option Layer)
    (explicit_overrides : Layer) :
  (∀ c, resolve engine_kinds defaults file_config env_overrides (Some explicit_overrides)
        = inl c → agrees explicit_overrides c)
  ∧ (∀ lang, l_language explicit_overrides = Some lang →
       pick (engine defaults) (l_engine (default no_layer file_config))
            (l_engine (default no_layer env_overrides)) (l_engine explicit_overrides)
       ∈ engine_kinds →
       ∃ c, resolve engine_kinds defaults file_config env_overrides (Some explicit_overrides)
            = inl c ∧ language c = lang).
Proof.
  unfold resolve. simpl. split.
  - intros c. case_bool_decide; [|done]. intros [= <-].
    unfold agrees. simpl. split_and!; by intros v ->.
  - intros lang Hlang Hengine. rewrite bool_decide_eq_true_2 by done.
    eexists. split; [reflexivity|]. simpl. by rewrite Hlang.
Qed.

End resolver.

(** The scenario of the specification: default language [fa], a
    configuration file with [en], an explicit override with [ar]. *)
Lemma explicit_overrides_take_precedence_witness :
  ConfigResolver.language Samples.defaults = "fa"
  ∧ ConfigResolver.l_language Samples.file_config = Some "en"
  ∧ ConfigResolver.l_language Samples.explicit_overrides = Some "ar"
  ∧ ∃ c, ConfigResolver.resolve ["faster_whisper"; "openai_api"] Samples.defaults
           (Some Samples.file_config) None (Some Samples.explicit_overrides) = inl c
         ∧ ConfigResolver.language c = "ar".
Proof.
  split_and!; try reflexivity.
  apply (proj2 (explicit_overrides_take_precedence ["faster_whisper"; "openai_api"]
                  Samples.defaults (Some Samples.file_config) None Samples.explicit_overrides)
           "ar" eq_refl).
  simpl. left.
Defined.

(** What [cli.py] itself resolves: the language handed to
    [TranscriberConfig] is the value of [-l] when it is given, else the
    default [fa] of the parser. *)
Lemma cli_language (w : Cli.World) :
  (∃ args, Cli.parse_args w ["audio.mp3"] = Some ([], Returned args)
           ∧ Cli.language (Cli.build_config args) = "fa")
  ∧ (∃ args, Cli.parse_args w ["audio.mp3"; "-l"; "ar"] = Some ([], Returned args)
             ∧ Cli.language (Cli.build_config args) = "ar").
Proof.
  split.
  - exists (<["input" := PyStr "audio.mp3"]>
              (Cli.namespace_defaults (Cli.create_parser w))).
    split; reflexivity.
  - exists (<["language" := PyStr "ar"]>
              (<["input" := PyStr "audio.mp3"]>
                 (Cli.namespace_defaults (Cli.create_parser w)))).
    split; reflexivity.
Qed.

(** * Further properties *)

(** ** Levels, switches and the configuration cache *)

Section log_control.
Import Logging LogControl.
Context (env : Env).

Lemma set_handler_level_level lv h : handler_level (set_handler_level lv h) = lv.
Proof. by destruct h. Qed.

(** What [set_log_level] leaves of the state. *)
Lemma set_log_level_state lvl st :
  _loggers (set_log_level env lvl st).1 = _loggers st
  ∧ _config_cache (set_log_level env lvl st).1 = _config_cache st
  ∧ _initialized (set_log_level env lvl st).1 = _initialized st
  ∧ ∃ lg, manager (set_log_level env lvl st).1 !! package = Some lg
          ∧ disabled lg = disabled (default new_logger (manager st !! package)).
Proof.
  unfold set_log_level.
  destruct (getLogger_manager package st) as (Hget & Hl & Hc & Hi & Hname).
  destruct (getLogger package st) as [st1 r]; simpl in *. subst r.
  destruct (level_of env lvl) as [lv|e]; simpl.
  - split_and!; try done. eexists. by rewrite !lookup_alter_eq, Hget, lookup_insert_eq.
  - split_and!; try done. eexists. by rewrite Hget, lookup_insert_eq.
Qed.

(** X1.  [set_log_level] after a completed [setup_logging].  When the
    level is a number, or a name that stands for one, the package logger
    and every one of its handlers are put at it, the file handler included,
    which [setup_logging] had put at [DEBUG]; the handlers keep their
    number, order, targets and formatters, and the logger still does not
    propagate.  When the name stands for an attribute of the [logging]
    module that is no level, [setLevel] raises and nothing has changed. *)
Theorem set_log_level_after_setup (kw : setup_kwargs) (lvl : Z + string)
    (st st1 : State) (root : string) :
  setup_logging env kw st = (st1, Returned root) →
  ∃ config lv0,
    (_load_config env st).2 = Returned config
    ∧ resolve_level env kw config = IntLevel lv0
    ∧ (∀ lv, level_of env lvl = IntLevel lv →
         ∃ st2 lg,
           set_log_level env lvl st1 = (st2, Returned tt)
           ∧ manager st2 !! package = Some lg
           ∧ level lg = lv
           ∧ handlers lg = map (set_handler_level lv) (built_handlers env kw config lv0)
           ∧ (∀ h, h ∈ handlers lg → handler_level h = lv)
           ∧ map handler_formatter (handlers lg)
             = map handler_formatter (built_handlers env kw config lv0)
           ∧ propagate lg = false)
    ∧ (∀ e, level_of env lvl = NoLevel e → set_log_level env lvl st1 = (st1, Raised e)).
Proof.
  intros Hrun.
  destruct (setup_logging_package _ _ _ _ _ Hrun)
    as (config & lv0 & Hc & Hlv0 & _ & _ & _ & _ & Hlg).
  exists config, lv0. split; [done|]. split; [done|].
  unfold set_log_level, getLogger. rewrite Hlg. split.
  - intros lv ->. eexists _, _. split; [reflexivity|].
    rewrite !lookup_update_logger, Hlg. simpl. split; [reflexivity|]. simpl.
    split_and!; try done.
    + intros h [h0 [-> _]]%list_elem_of_fmap. apply set_handler_level_level.
    + rewrite map_map. apply map_ext. by intros [].
  - by intros e ->.
Qed.

(** X2.  A [setup_logging] that follows [set_log_level] discards the
    level that was set: it leaves the package logger exactly as it would
    without the earlier call. *)
Theorem setup_logging_discards_set_log_level (kw : setup_kwargs) (lvl : Z + string)
    (st st1 st2 : State) (r1 r2 : string) :
  setup_logging env kw st = (st1, Returned r1) →
  setup_logging env kw (set_log_level env lvl st).1 = (st2, Returned r2) →
  manager st2 !! package = manager st1 !! package.
Proof.
  intros H1 H2.
  destruct (setup_logging_package _ _ _ _ _ H1) as (c1 & l1 & Hc1 & Hl1 & _ & _ & _ & _ & ->).
  destruct (setup_logging_package _ _ _ _ _ H2) as (c2 & l2 & Hc2 & Hl2 & _ & _ & _ & _ & ->).
  destruct (set_log_level_state lvl st) as (_ & Hcache & _ & lg & Hlg & Hdis).
  assert (Hcfg : (_load_config env (set_log_level env lvl st).1).2 = (_load_config env st).2).
  { unfold _load_config. rewrite Hcache. destruct (_config_cache st); [done|].
    by destruct (search_error env). }
  rewrite Hcfg, Hc1 in Hc2. injection Hc2 as <-.
  rewrite Hl1 in Hl2. injection Hl2 as <-.
  by rewrite Hlg, <- Hdis.
Qed.

(** X3.  [setup_logging] does not switch logging back on: after
    [disable_logging], a completed [setup_logging] leaves the package logger
    disabled, with its fresh handlers; only [enable_logging] clears the
    flag, and it changes nothing else. *)
Theorem disable_survives_setup (kw : setup_kwargs) (st st' : State) (root : string) :
  setup_logging env kw (disable_logging st) = (st', Returned root) →
  ∃ config lv lg,
    (_load_config env (disable_logging st)).2 = Returned config
    ∧ resolve_level env kw config = IntLevel lv
    ∧ manager st' !! package = Some lg
    ∧ disabled lg = true
    ∧ manager (enable_logging st') !! package = Some (set_disabled false lg)
    ∧ handlers (set_disabled false lg) = built_handlers env kw config lv.
Proof.
  intros Hrun.
  destruct (setup_logging_package _ _ _ _ _ Hrun)
    as (config & lv & Hc & Hlv & _ & _ & _ & _ & Hlg).
  exists config, lv. eexists. split; [done|]. split; [done|]. split; [exact Hlg|].
  split_and!.
  - simpl. unfold disable_logging.
    destruct (getLogger_manager package st) as (Hget & _ & _ & _ & Hname).
    destruct (getLogger package st) as [st1 r]; simpl in *. subst r.
    by rewrite lookup_alter_eq, Hget, lookup_insert_eq.
  - unfold enable_logging.
    destruct (getLogger_manager package st') as (Hget & _ & _ & _ & Hname).
    destruct (getLogger package st') as [st2 r]; simpl in *. subst r.
    by rewrite lookup_alter_eq, Hget, lookup_insert_eq, Hlg.
  - done.
Qed.

(** X4.  The configuration is read once.  When the first
    [setup_logging] gets its configuration, then, whether the call goes on
    to return or to raise, [_load_config] answers from its cache from then
    on, whatever the configuration files now say and whether or not the
    search for them would now fail.  When the search of the first call
    raises, the call ends there and nothing is cached. *)
Theorem config_read_once (env' : Env) (kw : setup_kwargs) (st st1 : State)
    (r : PyResult string) :
  setup_logging env kw st = (st1, r) →
  match (_load_config env st).2 with
  | Returned config => _load_config env' st1 = (st1, Returned config)
  | Raised e => st1 = st ∧ r = Raised e ∧ _config_cache st1 = None
  end.
Proof.
  unfold setup_logging.
  destruct (_load_config env st) as [st0 [config|e]] eqn:Hload; simpl.
  - apply _load_config_returned in Hload as (_ & _ & _ & Hc).
    destruct (getLogger_manager package st0) as (_ & _ & Hcache & _).
    destruct (getLogger package st0) as [st2 l]; simpl in *.
    assert (Hdone : ∀ st3, _config_cache st3 = Some config →
              _load_config env' st3 = (st3, Returned config)).
    { intros st3 H3. unfold _load_config. by rewrite H3. }
    destruct (resolve_level env kw config) as [lv|e].
    + destruct (kw_quiet kw), (resolve_log_file env kw config) as [f|];
        try destruct (open_log_file env (Path f));
        try destruct (format_error env _);
        intros [= <- _]; apply Hdone; simpl; congruence.
    + intros [= <- _]. apply Hdone. simpl. congruence.
  - apply _load_config_raised in Hload as (-> & Hnone & _). by intros [= <- <-].
Qed.

End log_control.

Lemma sample_setup_returns :
  Logging.setup_logging Samples.file_env Logging.no_kwargs Samples.st0
  = (Samples.st1, Returned Logging.package).
Proof. vm_compute. reflexivity. Defined.

Lemma set_log_level_after_setup_witness :
  Logging.setup_logging Samples.file_env Logging.no_kwargs Samples.st0
  = (Samples.st1, Returned Logging.package)
  ∧ (∃ st2 lg,
      LogControl.set_log_level Samples.file_env (inr "warning") Samples.st1
      = (st2, Returned tt)
      ∧ Logging.manager st2 !! Logging.package = Some lg
      ∧ Logging.level lg = Logging.WARNING
      ∧ length (Logging.handlers lg) = 2%nat
      ∧ ∀ h, h ∈ Logging.handlers lg → LogControl.handler_level h = Logging.WARNING)
  ∧ ∃ msg,
      LogControl.set_log_level Samples.file_env (inr "basic_format") Samples.st1
      = (Samples.st1, Raised (Exc ValueError msg)).
Proof.
  split; [exact sample_setup_returns|].
  destruct (set_log_level_after_setup Samples.file_env Logging.no_kwargs (inr "warning")
              Samples.st0 Samples.st1 _ sample_setup_returns)
    as (config & lv0 & Hc & Hlv0 & Hint & _).
  destruct (set_log_level_after_setup Samples.file_env Logging.no_kwargs (inr "basic_format")
              Samples.st0 Samples.st1 _ sample_setup_returns)
    as (_ & _ & _ & _ & _ & Hbad).
  split.
  - destruct (Hint Logging.WARNING eq_refl) as (st2 & lg & Hrun & Hlg & Hlevel & Hh & Hall & _).
    exists st2, lg. split_and!; [exact Hrun | exact Hlg | exact Hlevel | | exact Hall].
    rewrite Hh, length_map. vm_compute in Hc. injection Hc as <-. reflexivity.
  - eexists. exact (Hbad _ eq_refl).
Defined.

Lemma setup_logging_discards_set_log_level_witness :
  ∃ st2,
    Logging.setup_logging Samples.file_env Logging.no_kwargs
      (LogControl.set_log_level Samples.file_env (inl 50%Z) Samples.st0).1
    = (st2, Returned Logging.package)
    ∧ Logging.manager st2 !! Logging.package
      = Logging.manager Samples.st1 !! Logging.package.
Proof.
  assert (Hrun : Logging.setup_logging Samples.file_env Logging.no_kwargs
                   (LogControl.set_log_level Samples.file_env (inl 50%Z) Samples.st0).1
                 = ((Logging.setup_logging Samples.file_env Logging.no_kwargs
                       (LogControl.set_log_level Samples.file_env (inl 50%Z) Samples.st0).1).1,
                    Returned Logging.package)) by (vm_compute; reflexivity).
  eexists. split; [exact Hrun|].
  exact (setup_logging_discards_set_log_level Samples.file_env Logging.no_kwargs (inl 50%Z)
           Samples.st0 Samples.st1 _ _ _ sample_setup_returns Hrun).
Defined.

Lemma disable_survives_setup_witness :
  ∃ st' lg,
    Logging.setup_logging Samples.file_env Logging.no_kwargs
      (LogControl.disable_logging Samples.st0)
    = (st', Returned Logging.package)
    ∧ Logging.manager st' !! Logging.package = Some lg
    ∧ Logging.disabled lg = true.
Proof.
  assert (Hrun : Logging.setup_logging Samples.file_env Logging.no_kwargs
                   (LogControl.disable_logging Samples.st0)
                 = ((Logging.setup_logging Samples.file_env Logging.no_kwargs
                       (LogControl.disable_logging Samples.st0)).1,
                    Returned Logging.package)) by (vm_compute; reflexivity).
  destruct (disable_survives_setup Samples.file_env Logging.no_kwargs Samples.st0 _ _ Hrun)
    as (config & lv & lg & _ & _ & Hlg & Hdisabled & _).
  by eexists _, lg.
Defined.

Lemma config_read_once_witness :
  Logging.setup_logging Samples.file_env Logging.no_kwargs Samples.st0
  = (Samples.st1, Returned Logging.package)
  ∧ ∃ config,
      (Logging._load_config Samples.file_env Samples.st0).2 = Returned config
      ∧ Logging._load_config Samples.quiet_env Samples.st1 = (Samples.st1, Returned config)
      ∧ Logging.cfg_level config = "debug".
Proof.
  split; [exact sample_setup_returns|].
  pose proof (config_read_once Samples.file_env Samples.quiet_env Logging.no_kwargs
                Samples.st0 Samples.st1 _ sample_setup_returns) as Hload.
  eexists. split; [reflexivity|]. split; [exact Hload | reflexivity].
Defined.

(** ** Level names *)

Lemma upper_lower_ascii c : upper_ascii (lower_ascii c) = upper_ascii c.
Proof. by destruct c as [[] [] [] [] [] [] [] []]. Qed.

Lemma upper_upper_ascii c : upper_ascii (upper_ascii c) = upper_ascii c.
Proof. by destruct c as [[] [] [] [] [] [] [] []]. Qed.

Lemma is_ascii_lower_ascii c : is_ascii_char (lower_ascii c) = is_ascii_char c.
Proof. by destruct c as [[] [] [] [] [] [] [] []]. Qed.

Lemma is_ascii_upper_ascii c : is_ascii_char (upper_ascii c) = is_ascii_char c.
Proof. by destruct c as [[] [] [] [] [] [] [] []]. Qed.

Lemma is_ascii_map_lower s : is_ascii (map_string lower_ascii s) = is_ascii s.
Proof. induction s as [|c s IH]; simpl; [done|]. by rewrite is_ascii_lower_ascii, IH. Qed.

Lemma is_ascii_map_upper s : is_ascii (map_string upper_ascii s) = is_ascii s.
Proof. induction s as [|c s IH]; simpl; [done|]. by rewrite is_ascii_upper_ascii, IH. Qed.

(** On a name of ASCII characters, upper case after lower case, or after
    upper case, is upper case. *)
Lemma upper_lower u s : is_ascii s = true → upper u (lower u s) = upper u s.
Proof.
  intros Hs. unfold upper, lower. rewrite Hs, is_ascii_map_lower, Hs.
  induction s as [|c s IH]; simpl; [done|]. simpl in Hs.
  apply andb_true_iff in Hs as [_ Hs]. by rewrite upper_lower_ascii, IH.
Qed.

Lemma upper_upper u s : is_ascii s = true → upper u (upper u s) = upper u s.
Proof.
  intros Hs. unfold upper. rewrite Hs, is_ascii_map_upper, Hs.
  induction s as [|c s IH]; simpl; [done|]. simpl in Hs.
  apply andb_true_iff in Hs as [_ Hs]. by rewrite upper_upper_ascii, IH.
Qed.

(** X5.  The level of [setup_logging], when it is a name of ASCII
    characters, is matched without regard to case: the call with the name,
    with the name in lower case and with the name in upper case are the same
    call; and with [verbose] set the [level] argument does not matter at
    all. *)
Theorem setup_logging_level_name_case (env : Logging.Env) (kw : Logging.setup_kwargs)
    (st : Logging.State) (name : string) :
  let u := Logging.unicode env in
  (is_ascii name = true →
   Logging.setup_logging env (LogControl.with_level (Some (inr (lower u name))) kw) st
   = Logging.setup_logging env (LogControl.with_level (Some (inr name)) kw) st
   ∧ Logging.setup_logging env (LogControl.with_level (Some (inr (upper u name))) kw) st
     = Logging.setup_logging env (LogControl.with_level (Some (inr name)) kw) st)
  ∧ (Logging.kw_verbose kw = true →
     ∀ lvl lvl',
       Logging.setup_logging env (LogControl.with_level lvl kw) st
       = Logging.setup_logging env (LogControl.with_level lvl' kw) st).
Proof.
  intros u.
  assert (Hlevel : ∀ l l', (∀ config,
            Logging.resolve_level env (LogControl.with_level l kw) config
            = Logging.resolve_level env (LogControl.with_level l' kw) config) →
          Logging.setup_logging env (LogControl.with_level l kw) st
          = Logging.setup_logging env (LogControl.with_level l' kw) st).
  { intros l l' Heq. unfold Logging.setup_logging.
    destruct (Logging._load_config env st) as [st1 [config|e]]; [|done].
    rewrite (Heq config). reflexivity. }
  split.
  - intros Hname. split; apply Hlevel; intros config; unfold Logging.resolve_level; simpl;
      unfold u; [by rewrite upper_lower | by rewrite upper_upper].
  - intros Hverbose lvl lvl'. apply Hlevel. intros config.
    unfold Logging.resolve_level. simpl. by rewrite Hverbose.
Qed.

Lemma setup_logging_level_name_case_witness :
  is_ascii "Error" = true
  ∧ Logging.setup_logging Samples.quiet_env
      (LogControl.with_level (Some (inr "error")) Logging.no_kwargs) Samples.st0
    = Logging.setup_logging Samples.quiet_env
        (LogControl.with_level (Some (inr "Error")) Logging.no_kwargs) Samples.st0
  ∧ Logging.kw_verbose MoreSamples.verbose_kwargs = true
  ∧ Logging.setup_logging Samples.quiet_env
      (LogControl.with_level (Some (inr "error")) MoreSamples.verbose_kwargs) Samples.st0
    = Logging.setup_logging Samples.quiet_env
        (LogControl.with_level None MoreSamples.verbose_kwargs) Samples.st0.
Proof.
  split; [reflexivity|]. split.
  - exact (proj1 (proj1 (setup_logging_level_name_case Samples.quiet_env Logging.no_kwargs
                           Samples.st0 "Error") eq_refl)).
  - split; [reflexivity|].
    exact (proj2 (setup_logging_level_name_case Samples.quiet_env
                    MoreSamples.verbose_kwargs Samples.st0 "") eq_refl _ _).
Defined.

(** ** More on get_logger *)

Section get_logger.
Import Logging.
Context (env : Env).

(** X6.  A short name and the full module path name the same logger:
    after [get_logger(name)] for a name outside the package prefix,
    [get_logger("persian_transcriber." + name)] returns that very logger
    and changes nothing. *)
Theorem get_logger_short_and_full_name (name : string) (st st' : State) (l : string) :
  startswith package name = false →
  get_logger env name st = (st', Returned l) →
  get_logger env (package ++ "." ++ name) st' = (st', Returned l).
Proof.
  intros Hshort (Hinit & Hcached & _)%get_logger_inv.
  unfold get_logger. rewrite Hinit.
  assert (Hq : qualified (package ++ "." ++ name) = qualified name).
  { unfold qualified. by rewrite Hshort, startswith_package_dot. }
  by rewrite Hq, Hcached.
Qed.

(** X7.  Once logging is initialised, [get_logger] configures nothing:
    every logger that exists keeps its handlers, level and flags, the
    configuration cache is untouched, and a logger that the call creates
    has no handlers and no level of its own and propagates to its
    parent. *)
Theorem get_logger_keeps_configuration (name : string) (st st' : State) (l : string) :
  _initialized st = true →
  get_logger env name st = (st', Returned l) →
  (∀ n lg, manager st !! n = Some lg → manager st' !! n = Some lg)
  ∧ (∀ n lg, manager st' !! n = Some lg → manager st !! n = Some lg ∨ lg = new_logger)
  ∧ _config_cache st' = _config_cache st
  ∧ _initialized st' = true.
Proof.
  intros Hinit. unfold get_logger. rewrite Hinit.
  destruct (_loggers st !! qualified name) as [l'|].
  - intros [= <- <-]. split_and!; auto.
  - destruct (getLogger_manager (qualified name) st) as (Hget & _ & Hcache & Hinit' & _).
    destruct (getLogger (qualified name) st) as [st1 l1]; simpl in *.
    intros [= <- <-]. simpl. rewrite Hget. split_and!; try congruence.
    + intros n lg Hn. destruct (decide (qualified name = n)) as [<-|Hne].
      * by rewrite lookup_insert_eq, Hn.
      * by rewrite lookup_insert_ne.
    + intros n lg. destruct (decide (qualified name = n)) as [<-|Hne].
      * rewrite lookup_insert_eq. intros [= <-].
        destruct (manager st !! qualified name); simpl; auto.
      * rewrite lookup_insert_ne by done. auto.
Qed.

(** X8.  [get_logger] raises only through its automatic set-up: the
    module was not initialised, the exception is the one that
    [setup_logging()] raises from that state, no logger is cached, and the
    module stays uninitialised, so that the next [get_logger] runs the
    set-up again. *)
Theorem get_logger_failure_caches_nothing (name : string) (st st' : State) (e : exn) :
  get_logger env name st = (st', Raised e) →
  _initialized st = false
  ∧ setup_logging env no_kwargs st = (st', Raised e)
  ∧ _initialized st' = false
  ∧ _loggers st' = _loggers st
  ∧ get_logger env name st'
    = (let '(st2, r) := setup_logging env no_kwargs st' in
       match r with
       | Raised e2 => (st2, Raised e2)
       | Returned _ => get_logger env name st2
       end).
Proof.
  unfold get_logger at 1. destruct (_initialized st) eqn:Hinit.
  - destruct (_loggers st !! qualified name); [done|].
    by destruct (getLogger (qualified name) st).
  - destruct (setup_logging env no_kwargs st) as [st1 [root|e1]] eqn:Hrun.
    + destruct (_loggers st1 !! qualified name); [done|].
      by destruct (getLogger (qualified name) st1).
    + intros [= <- <-]. split; [done|]. split; [done|].
      destruct (setup_logging_raised _ _ _ _ _ Hrun) as [Hi Hl].
      rewrite Hinit in Hi. split; [done|]. split; [done|].
      unfold get_logger at 1. rewrite Hi.
      destruct (setup_logging env no_kwargs st1) as [st2 [root|e2]] eqn:Hrun2; [|done].
      destruct (setup_logging_package _ _ _ _ _ Hrun2) as (_ & _ & _ & _ & _ & Hi2 & _).
      unfold get_logger. by rewrite Hi2.
Qed.

End get_logger.

Lemma get_logger_short_and_full_name_witness :
  startswith Logging.package "cli" = false
  ∧ ∃ st',
      Logging.get_logger Samples.quiet_env "cli" Samples.st0
      = (st', Returned "persian_transcriber.cli")
      ∧ Logging.get_logger Samples.quiet_env "persian_transcriber.cli" st'
        = (st', Returned "persian_transcriber.cli").
Proof.
  split; [reflexivity|].
  assert (Hrun : Logging.get_logger Samples.quiet_env "cli" Samples.st0
                 = ((Logging.get_logger Samples.quiet_env "cli" Samples.st0).1,
                    Returned "persian_transcriber.cli")) by (vm_compute; reflexivity).
  eexists. split; [exact Hrun|].
  exact (get_logger_short_and_full_name Samples.quiet_env "cli" Samples.st0 _ _
           eq_refl Hrun).
Defined.

Lemma get_logger_keeps_configuration_witness :
  Logging._initialized Samples.st1 = true
  ∧ ∃ st' lg,
      Logging.get_logger Samples.file_env "cli" Samples.st1
      = (st', Returned "persian_transcriber.cli")
      ∧ Logging.manager Samples.st1 !! Logging.package = Some lg
      ∧ Logging.manager st' !! Logging.package = Some lg.
Proof.
  split; [reflexivity|].
  assert (Hrun : Logging.get_logger Samples.file_env "cli" Samples.st1
                 = ((Logging.get_logger Samples.file_env "cli" Samples.st1).1,
                    Returned "persian_transcriber.cli")) by (vm_compute; reflexivity).
  destruct (Logging.manager Samples.st1 !! Logging.package) as [lg|] eqn:Hlg;
    [|by vm_compute in Hlg].
  eexists _, lg. split; [exact Hrun|]. split; [done|].
  exact (proj1 (get_logger_keeps_configuration Samples.file_env "cli" Samples.st1 _ _
                  eq_refl Hrun) _ _ Hlg).
Defined.

Lemma get_logger_failure_caches_nothing_witness :
  ∃ st' e,
    Logging.get_logger MoreSamples.broken_env "cli" Samples.st0 = (st', Raised e)
    ∧ Logging._initialized st' = false
    ∧ Logging._loggers st' = Logging._loggers Samples.st0.
Proof.
  assert (Hrun : Logging.get_logger MoreSamples.broken_env "cli" Samples.st0
                 = ((Logging.get_logger MoreSamples.broken_env "cli" Samples.st0).1,
                    Raised (Exc (OtherException "PermissionError") "Permission denied")))
    by (vm_compute; reflexivity).
  destruct (get_logger_failure_caches_nothing MoreSamples.broken_env "cli" Samples.st0 _ _ Hrun)
    as (_ & _ & Hinit & Hloggers & _).
  eexists _, _. split; [exact Hrun|]. by split.
Defined.

(** ** Strings *)

Section strings.
Import Text.

Lemma app_cons (c : ascii) (a b : string) : (String c a ++ b = String c (a ++ b))%string.
Proof. reflexivity. Qed.

Lemma app_empty_r (a : string) : (a ++ "" = a)%string.
Proof. induction a as [|c a IH]; [done|]. by rewrite app_cons, IH. Qed.

Lemma length_app (a b : string) :
  String.length (a ++ b) = (String.length a + String.length b)%nat.
Proof. induction a as [|c a IH]; [done|]. rewrite app_cons. simpl. by rewrite IH. Qed.

Lemma contains_char_app c (a b : string) :
  contains_char c (a ++ b) = contains_char c a || contains_char c b.
Proof.
  induction a as [|x a IH]; [done|]. rewrite app_cons. simpl.
  by rewrite IH, orb_assoc.
Qed.

Lemma substring_all (s : string) : substring 0 (String.length s) s = s.
Proof. induction s as [|c s IH]; simpl; [done | by rewrite IH]. Qed.

Lemma substring_drop (a b : string) :
  substring (String.length a) (String.length (a ++ b) - String.length a) (a ++ b) = b.
Proof.
  rewrite length_app. replace (String.length a + String.length b - String.length a)%nat
    with (String.length b) by lia.
  induction a as [|c a IH]; [apply substring_all|]. by rewrite app_cons.
Qed.

Lemma prefix_head_differs c0 old' x r :
  Ascii.eqb x c0 = false → String.prefix (String c0 old') (String x r) = false.
Proof.
  intros Hx. simpl. destruct (ascii_dec c0 x) as [->|]; [|done].
  by rewrite Ascii.eqb_refl in Hx.
Qed.

(** A string without the first character of [old] has nothing to
    replace. *)
Lemma replace_fuel_absent fuel c0 old' new s :
  contains_char c0 s = false → replace_fuel fuel (String c0 old') new s = s.
Proof.
  revert fuel. induction s as [|x r IH]; intros [|fuel]; simpl; try done.
  intros [Hx Hr]%orb_false_elim.
  destruct (ascii_dec c0 x) as [->|Hne].
  - by rewrite Ascii.eqb_refl in Hx.
  - by rewrite IH.
Qed.

(** The first occurrence, after a stretch without the first character of
    [old], is replaced, and the scan goes on behind it. *)
Lemma replace_fuel_occurrence c0 old' new a b :
  contains_char c0 a = false →
  ∀ fuel, (String.length a < fuel)%nat →
    replace_fuel fuel (String c0 old') new (a ++ String c0 old' ++ b)
    = (a ++ new ++ replace_fuel (fuel - String.length a - 1) (String c0 old') new b)%string.
Proof.
  intros Ha. induction a as [|x a IH]; intros fuel Hfuel.
  - destruct fuel as [|fuel]; [simpl in Hfuel; lia|].
    change ("" ++ String c0 old' ++ b)%string with (String c0 old' ++ b)%string.
    change (String c0 old' ++ b)%string with (String c0 (old' ++ b)) at 1.
    cbn [replace_fuel].
    change (String c0 (old' ++ b)) with (String c0 old' ++ b)%string.
    rewrite (startswith_app (String c0 old') b : String.prefix _ _ = true).
    rewrite substring_drop. simpl String.length.
    by replace (S fuel - 0 - 1)%nat with fuel by lia.
  - simpl in Ha. apply orb_false_elim in Ha as [Hx Ha].
    destruct fuel as [|fuel]; [simpl in Hfuel; lia|].
    rewrite !app_cons. cbn [replace_fuel].
    rewrite prefix_head_differs by done.
    rewrite IH by (done || (simpl in Hfuel; lia)). simpl String.length.
    by replace (S fuel - S (String.length a) - 1)%nat
      with (fuel - String.length a - 1)%nat by lia.
Qed.

Lemma replace_single c0 old' new a b :
  contains_char c0 a = false → contains_char c0 b = false →
  replace (String c0 old') new (a ++ String c0 old' ++ b) = (a ++ new ++ b)%string.
Proof.
  intros Ha Hb. unfold replace.
  rewrite replace_fuel_occurrence by (done || (rewrite length_app; lia)).
  by rewrite replace_fuel_absent.
Qed.

Lemma replace_absent c0 old' new s :
  contains_char c0 s = false → replace (String c0 old') new s = s.
Proof. apply replace_fuel_absent. Qed.

Lemma split_on_nonempty sep s : split_on sep s ≠ [].
Proof.
  destruct s as [|c s]; simpl; [done|].
  destruct (split_on sep s); [done|]. by destruct (Ascii.eqb c sep).
Qed.

Lemma split_on_absent sep s : contains_char sep s = false → split_on sep s = [s].
Proof.
  induction s as [|c s IH]; simpl; [done|].
  intros [Hc Hs]%orb_false_elim. by rewrite (IH Hs), Hc.
Qed.

Lemma split_on_sep sep a b :
  contains_char sep a = false →
  split_on sep (a ++ String sep b) = a :: split_on sep b.
Proof.
  induction a as [|c a IH]; intros Ha.
  - change ("" ++ String sep b)%string with (String sep b). simpl.
    pose proof (split_on_nonempty sep b).
    destruct (split_on sep b); [done|]. by rewrite Ascii.eqb_refl.
  - simpl in Ha. apply orb_false_elim in Ha as [Hc Ha].
    rewrite app_cons. simpl. by rewrite (IH Ha), Hc.
Qed.

(** [sep.join(parts).split(sep)] gives the parts back when none of them
    holds the separator. *)
Lemma split_on_join sep parts :
  parts ≠ [] →
  (∀ p, p ∈ parts → contains_char sep p = false) →
  split_on sep (join (String sep EmptyString) parts) = parts.
Proof.
  induction parts as [|p rest IH]; [done|]. intros _ Hparts.
  destruct rest as [|q rest].
  - simpl. apply split_on_absent, Hparts. left.
  - change (join (String sep "") (p :: q :: rest))
      with (p ++ String sep (join (String sep "") (q :: rest)))%string.
    rewrite split_on_sep by (apply Hparts; left).
    rewrite IH; [done | done |]. intros p' Hp'. apply Hparts. by right.
Qed.

End strings.

(** ** The log file and the colours *)

Section log_file.
Import Logging Text.
Context (env : Env).

Lemma replace_fuel_near_miss fuel c0 old' new a b' :
  contains_char c0 a = false → contains_char c0 b' = false →
  String.prefix (String c0 old') (String c0 b') = false →
  replace_fuel fuel (String c0 old') new (a ++ String c0 b') = (a ++ String c0 b')%string.
Proof.
  intros Ha Hb Hmiss. revert fuel. induction a as [|x a IH]; intros [|fuel]; try done.
  - change ("" ++ String c0 b')%string with (String c0 b'). cbn [replace_fuel].
    by rewrite Hmiss, replace_fuel_absent.
  - simpl in Ha. apply orb_false_elim in Ha as [Hx Ha].
    rewrite app_cons. cbn [replace_fuel].
    by rewrite prefix_head_differs, IH.
Qed.

(** X9.  The log file of [setup_logging]: the [log_file] argument wins
    over the configured path; a configured path without a brace is used as
    it is; in [pre{date}post] and [pre{time}post], with no other brace, the
    placeholder is replaced by the date, respectively the time, of the
    call; and an empty configured path means no log file. *)
Theorem log_file_resolution (kw : setup_kwargs) (config : LogConfig) :
  (∀ f, kw_log_file kw = Some f → resolve_log_file env kw config = Some f)
  ∧ (kw_log_file kw = None → cfg_log_file_path config = Some "" →
     resolve_log_file env kw config = None)
  ∧ (∀ path, kw_log_file kw = None → cfg_log_file_path config = Some path →
       path ≠ "" → contains_char "{" path = false →
       resolve_log_file env kw config = Some path)
  ∧ (∀ pre post : string, kw_log_file kw = None →
       cfg_log_file_path config = Some (pre ++ "{date}" ++ post)%string →
       contains_char "{" pre = false → contains_char "{" post = false →
       contains_char "{" (now_date env) = false →
       resolve_log_file env kw config = Some (pre ++ now_date env ++ post)%string)
  ∧ (∀ pre post : string, kw_log_file kw = None →
       cfg_log_file_path config = Some (pre ++ "{time}" ++ post)%string →
       contains_char "{" pre = false → contains_char "{" post = false →
       resolve_log_file env kw config = Some (pre ++ now_time env ++ post)%string).
Proof.
  unfold resolve_log_file. split_and!.
  - by intros f ->.
  - by intros -> ->.
  - intros path -> -> Hne Hpath.
    destruct (String.eqb_spec path ""); [done|].
    rewrite (replace_absent "{" "date}") by done.
    by rewrite (replace_absent "{" "time}") by done.
  - intros pre post -> -> Hpre Hpost Hdate.
    destruct (String.eqb_spec (pre ++ "{date}" ++ post)%string "") as [Heq|_].
    { by destruct pre. }
    rewrite (replace_single "{" "date}") by done.
    rewrite (replace_absent "{" "time}"); [done|].
    by rewrite !contains_char_app, Hpre, Hdate, Hpost.
  - intros pre post -> -> Hpre Hpost.
    destruct (String.eqb_spec (pre ++ "{time}" ++ post)%string "") as [Heq|_].
    { by destruct pre. }
    unfold replace at 2.
    rewrite (replace_fuel_near_miss _ "{" "date}" _ pre ("time}" ++ post)%string); try done.
    + change (pre ++ String "{" ("time}" ++ post))%string
        with (pre ++ "{time}" ++ post)%string.
      by rewrite (replace_single "{" "time}").
Qed.

End log_file.

Lemma log_file_resolution_witness :
  Logging.kw_log_file Logging.no_kwargs = None
  ∧ Logging.cfg_log_file_path Samples.dated_config
    = Some ("logs/run-" ++ "{date}" ++ ".log")%string
  ∧ Logging.resolve_log_file Samples.file_env Logging.no_kwargs Samples.dated_config
    = Some "logs/run-2024-01-01.log".
Proof.
  split; [reflexivity|]. split; [reflexivity|].
  exact (proj1 (proj2 (proj2 (proj2
           (log_file_resolution Samples.file_env Logging.no_kwargs Samples.dated_config))))
           "logs/run-" ".log" eq_refl eq_refl eq_refl eq_refl eq_refl).
Defined.

Section colours.
Import Logging Colors Text.

(** X10.  A colour specification is a comma-separated list of colour
    names, each stripped of the white space around it and put in lower
    case; names that [ANSI_COLORS] does not have are skipped; the codes of
    the others are concatenated in order; and when the level has no
    specification, or none of its names is known, the built-in colour of
    the level number is used (none for a number without one). *)
Theorem color_code_of_specification (u : Unicode) (color_config : gmap string string)
    (level_name : string) (level_no : Z) :
  (color_config !! level_name = None →
   _get_color_code u color_config level_name level_no = default "" (COLORS !! level_no))
  ∧ (∀ parts, parts ≠ [] → (∀ p, p ∈ parts → contains_char "," p = false) →
       color_config !! level_name = Some (join "," parts) →
       _get_color_code u color_config level_name level_no
       = match omap (fun p => ANSI_COLORS !! lower u (strip p)) parts with
         | [] => default "" (COLORS !! level_no)
         | codes => join "" codes
         end).
Proof.
  unfold _get_color_code. split.
  - by intros ->.
  - intros parts Hne Hparts ->. rewrite split_on_join by done.
    by destruct (omap _ parts).
Qed.

(** X11.  With colours on, the console handler leaves its colour codes
    in the record: a record that passes both handlers built by
    [setup_logging] reaches the file handler with the escape codes around
    its level name, so the line written to the log file is formatted from
    the coloured level name. *)
Theorem file_log_gets_colour_codes (base : string -> string -> LogRecord -> string)
    (env : Env) (kw : setup_kwargs) (config : LogConfig) (lv : Z) (f : string)
    (record : LogRecord) :
  kw_quiet kw = false →
  resolve_log_file env kw config = Some f →
  default (cfg_use_colors config) (kw_use_colors kw) && supports_color env = true →
  resolve_level env kw config = IntLevel lv →
  (lv ≤ levelno record)%Z →
  (DEBUG ≤ levelno record)%Z →
  let coloured :=
    set_levelname
      (_get_color_code (unicode env) (cfg_colors config) (levelname record) (levelno record)
       ++ levelname record ++ RESET) record in
  callHandlers (unicode env) base (built_handlers env kw config lv) record
  = [(console_handler env kw config lv,
      base CONSOLE_FORMAT (default (cfg_date_format config) (kw_date_format kw)) coloured);
     (file_handler kw config f,
      base (default (cfg_format config) (kw_log_format kw))
           (default (cfg_date_format config) (kw_date_format kw)) coloured)].
Proof.
  intros Hquiet Hfile Hcolors _ Hlevel Hdebug coloured.
  unfold built_handlers. rewrite Hquiet, Hfile. simpl.
  rewrite Hcolors. simpl.
  rewrite (proj2 (Z.leb_le _ _) Hlevel). simpl.
  by rewrite (proj2 (Z.leb_le _ _) Hdebug).
Qed.

End colours.

Lemma color_code_of_specification_witness :
  ["Bold"; " RED"] ≠ ([] : list string)
  ∧ (∀ p, p ∈ ["Bold"; " RED"] → Text.contains_char "," p = false)
  ∧ Colors._get_color_code Samples.tables {["ERROR" := "Bold, RED"]} "ERROR" Logging.ERROR
    = (Colors.ESC ++ "[1m" ++ Colors.ESC ++ "[31m")%string.
Proof.
  assert (Hparts : ∀ p, p ∈ ["Bold"; " RED"] → Text.contains_char "," p = false).
  { intros p Hp. repeat (apply elem_of_cons in Hp as [->|Hp]; [reflexivity|]).
    by apply elem_of_nil in Hp. }
  split; [done|]. split; [exact Hparts|].
  exact (proj2 (color_code_of_specification Samples.tables {["ERROR" := "Bold, RED"]}
                  "ERROR" Logging.ERROR)
           ["Bold"; " RED"] ltac:(done) Hparts eq_refl).
Defined.

Lemma file_log_gets_colour_codes_witness :
  (Logging._load_config Samples.file_env Samples.st0).2 = Returned Samples.dated_config
  ∧ Logging.resolve_log_file Samples.file_env Logging.no_kwargs Samples.dated_config
    = Some "logs/run-2024-01-01.log"
  ∧ Logging.resolve_level Samples.file_env Logging.no_kwargs Samples.dated_config
    = Logging.IntLevel Logging.DEBUG
  ∧ ∃ h text,
      Colors.callHandlers Samples.tables MoreSamples.base
        (Logging.built_handlers Samples.file_env Logging.no_kwargs Samples.dated_config
           Logging.DEBUG)
        MoreSamples.record !! 1%nat = Some (h, text)
      ∧ Logging.is_file_handler h = true
      ∧ startswith Colors.ESC text = true.
Proof.
  split; [reflexivity|].
  split; [reflexivity|]. split; [reflexivity|].
  pose proof (file_log_gets_colour_codes MoreSamples.base Samples.file_env
                Logging.no_kwargs Samples.dated_config Logging.DEBUG _ MoreSamples.record
                eq_refl eq_refl eq_refl
                eq_refl ltac:(by vm_compute) ltac:(by vm_compute)) as Hcall.
  cbv zeta in Hcall. change (Logging.unicode Samples.file_env) with Samples.tables in Hcall.
  rewrite Hcall.
  eexists _, _. split; [reflexivity|]. split; reflexivity.
Defined.

(** ** More on the command line *)

Section more_parser.
Import Cli CliMore.
Context (w : World).

Ltac table_cases Hin Hs :=
  unfold create_parser in Hin;
  repeat (apply elem_of_cons in Hin as [->|Hin];
          [simpl in *;
           repeat (apply elem_of_cons in Hs as [->|Hs]; [|]);
           try (by apply elem_of_nil in Hs) |]);
  try (by apply elem_of_nil in Hin).

Ltac decide_closed :=
  match goal with
  | |- ?P => apply (bool_decide_unpack P); vm_compute; exact I
  end.

Ltac closed_fact :=
  first [ done
        | decide_closed
        | split; [first [done | decide_closed | (intros ?; exfalso; decide_closed)]
                 | first [done | decide_closed | (intros ?; exfalso; decide_closed)]] ].

Lemma flag_quiet : flag_of_table w "quiet" ["-q"; "--quiet"].
Proof.
  split.
  - intros s a [Hin Hs]%find_option_In. table_cases Hin Hs; closed_fact.
  - intros s Hs. repeat (apply elem_of_cons in Hs as [->|Hs]; [by split; [|eexists]|]).
    by apply elem_of_nil in Hs.
Qed.

Lemma flag_recursive : flag_of_table w "recursive" ["-r"; "--recursive"].
Proof.
  split.
  - intros s a [Hin Hs]%find_option_In. table_cases Hin Hs; closed_fact.
  - intros s Hs. repeat (apply elem_of_cons in Hs as [->|Hs]; [by split; [|eexists]|]).
    by apply elem_of_nil in Hs.
Qed.

Lemma flag_skip_existing : flag_of_table w "skip_existing" ["--skip-existing"].
Proof.
  split.
  - intros s a [Hin Hs]%find_option_In. table_cases Hin Hs; closed_fact.
  - intros s Hs. repeat (apply elem_of_cons in Hs as [->|Hs]; [by split; [|eexists]|]).
    by apply elem_of_nil in Hs.
Qed.

Lemma not_given_cons os s rest :
  s ∉ os → given os (s :: rest) = given os rest.
Proof. intros Hs. simpl. by rewrite bool_decide_eq_false_2. Qed.

(** After a successful parse, a flag holds if it held before or one of its
    option strings is among the words. *)
Lemma consume_flag dest os :
  flag_of_table w dest os →
  ∀ argv ns pending extras t ns',
    dest ∉ pending →
    consume w (create_parser w) ns pending extras argv = (t, Returned ns') →
    attr_bool ns' dest = attr_bool ns dest || given os argv.
Proof.
  intros [Htable Hos].
  assert (Hnodash : ∀ s, startswith "-" s = false → s ∉ os).
  { intros s Hs Hin. destruct (Hos s Hin) as [Hd _]. congruence. }
  induction argv as [|s rest IH IH'] using list_ind_tail;
    intros ns pending extras t ns' Hpending.
  - simpl. destruct extras; [|done]. intros [= _ <-]. by rewrite orb_false_r.
  - rewrite consume_cons. destruct (startswith "-" s) eqn:Hdash.
    + destruct (find_option (create_parser w) s) as [a|] eqn:Hfind.
      * pose proof (Htable s a Hfind) as Hdest.
        destruct (action a) as [| |d|d dflt choices|d dflt] eqn:Hact; try done.
        -- intros Hrun. apply IH in Hrun; [|done]. rewrite Hrun, not_given_cons; [done|].
           intros Hin. destruct (Hos s Hin) as [_ [a' Ha']].
           rewrite Hfind in Ha'. injection Ha' as <-.
           pose proof (Htable s a Hfind) as Hpos. rewrite Hact in Hpos.
           clear - Hfind Hact. apply find_option_In in Hfind as [Hin Hs].
           unfold create_parser in Hin.
           repeat (apply elem_of_cons in Hin as [->|Hin];
                   [simpl in *; first [done | by apply elem_of_nil in Hs] |]).
           by apply elem_of_nil in Hin.
        -- destruct rest as [|v rest']; [done|].
           destruct (startswith "-" v) eqn:Hv; [done|].
           destruct Hdest as [Hd Hs].
           destruct (match choices with Some cs => bool_decide (v ∈ cs) | None => true end);
             [|done].
           intros Hrun. apply IH' in Hrun; [|done]. simpl in Hrun.
           rewrite Hrun, attr_bool_insert_ne by done.
           rewrite (not_given_cons _ s) by done.
           by rewrite (not_given_cons _ v) by by apply Hnodash.
        -- intros Hrun. apply IH in Hrun; [|done]. rewrite Hrun.
           destruct (decide (s ∈ os)) as [Hin|Hout].
           ++ assert (d = dest) as -> by by apply Hdest.
              rewrite attr_bool_insert_true. simpl.
              by rewrite bool_decide_eq_true_2, orb_true_r.
           ++ rewrite attr_bool_insert_ne by (intros ->; apply Hout; by apply Hdest).
              by rewrite not_given_cons.
      * intros Hrun. apply IH in Hrun; [|done]. rewrite Hrun, not_given_cons; [done|].
        intros Hin. destruct (Hos s Hin) as [_ [a' Ha']]. congruence.
    + pose proof (Hnodash s Hdash) as Hs.
      destruct pending as [|d pending'].
      * intros Hrun. apply IH in Hrun; [|done]. by rewrite Hrun, not_given_cons.
      * apply not_elem_of_cons in Hpending as [Hd Hpending].
        intros Hrun. apply IH in Hrun; [|done].
        rewrite Hrun, attr_bool_insert_ne by congruence. by rewrite not_given_cons.
Qed.

Lemma parse_args_flag dest os argv t args :
  flag_of_table w dest os → dest ≠ "input" →
  parse_args w argv = Some (t, Returned args) →
  attr_bool args dest
  = attr_bool (namespace_defaults (create_parser w)) dest || given os argv.
Proof.
  intros Hflag Hdest. unfold parse_args. destruct (in_fragment _ argv); [|done].
  intros Hrun. apply (inj Some) in Hrun.
  eapply consume_flag in Hrun; [exact Hrun | exact Hflag |].
  simpl. by intros ->%list_elem_of_singleton.
Qed.

End more_parser.

Section more_main.
Import Cli CliMore.
Context (w : World).

Lemma default_skip_existing :
  attr_bool (namespace_defaults (create_parser w)) "skip_existing" = true.
Proof. vm_compute. reflexivity. Qed.

Lemma default_quiet : attr_bool (namespace_defaults (create_parser w)) "quiet" = false.
Proof. vm_compute. reflexivity. Qed.

Lemma default_recursive :
  attr_bool (namespace_defaults (create_parser w)) "recursive" = false.
Proof. vm_compute. reflexivity. Qed.

(** X12.  [--skip-existing] is a flag that is already set: after every
    successful parse [args.skip_existing] is true, with or without the
    flag on the command line, so nothing can switch it off. *)
Theorem skip_existing_always_set (argv : list string) (t : list event) (args : dict) :
  parse_args w argv = Some (t, Returned args) →
  attr_bool args "skip_existing" = true.
Proof.
  intros Hparse.
  rewrite (parse_args_flag w _ _ _ _ _ (flag_skip_existing w) ltac:(done) Hparse).
  by rewrite default_skip_existing.
Qed.

(** X13.  [main] calls [scan_and_transcribe] at most once, and the call
    searches recursively exactly when [-r] or [--recursive] is on the
    command line and passes [print_progress] exactly when neither [-q] nor
    [--quiet] is. *)
Theorem scan_call_follows_flags (st : Logging.State) (argv : list string)
    (st' : Logging.State) (t : list event) (r : PyResult Z)
    (path : string) (recursive skip : bool) (output_directory : option string)
    (progress : bool) :
  main w st argv = Some (st', (t, r)) →
  CallScanAndTranscribe path recursive skip output_directory progress ∈ t →
  recursive = given ["-r"; "--recursive"] argv
  ∧ progress = negb (given ["-q"; "--quiet"] argv)
  ∧ scan_events t = [CallScanAndTranscribe path recursive skip output_directory progress].
Proof.
  intros Hmain Hcall.
  destruct (main_scan_calls _ _ _ _ _ _ _ Hmain Hcall eq_refl)
    as (t0 & args & Hparse & Hev & Honce).
  pose proof (parse_args_flag w _ _ _ _ _ (flag_quiet w) ltac:(done) Hparse) as Hq.
  pose proof (parse_args_flag w _ _ _ _ _ (flag_recursive w) ltac:(done) Hparse) as Hr.
  rewrite default_quiet in Hq. rewrite default_recursive in Hr.
  rewrite orb_false_l in Hq, Hr.
  rewrite Honce, <- Hev. unfold scan_call in Hev. injection Hev as _ -> _ _ ->.
  rewrite Hq, Hr. by split_and!.
Qed.

End more_main.

Lemma skip_existing_always_set_witness :
  Cli.parse_args Samples.world ["rec"; "--no-skip"]
  = Some ([], Returned (Samples.args_of ["rec"; "--no-skip"]))
  ∧ Cli.attr_bool (Samples.args_of ["rec"; "--no-skip"]) "skip_existing" = true.
Proof.
  assert (Hparse : Cli.parse_args Samples.world ["rec"; "--no-skip"]
                   = Some ([], Returned (Samples.args_of ["rec"; "--no-skip"])))
    by reflexivity.
  split; [exact Hparse|].
  exact (skip_existing_always_set Samples.world _ _ _ Hparse).
Defined.

Lemma scan_call_follows_flags_witness :
  Cli.main Samples.world Samples.st0 ["rec"; "-q"; "-r"]
  = Some (MoreSamples.st_quiet, (Samples.trace_of ["rec"; "-q"; "-r"], Returned 0%Z))
  ∧ CallScanAndTranscribe "rec" true true None false
    ∈ Samples.trace_of ["rec"; "-q"; "-r"]
  ∧ ∀ recursive progress,
      CallScanAndTranscribe "rec" recursive true None progress
      ∈ Samples.trace_of ["rec"; "-q"; "-r"] →
      recursive = true ∧ progress = false.
Proof.
  assert (Hmain : Cli.main Samples.world Samples.st0 ["rec"; "-q"; "-r"]
                  = Some (MoreSamples.st_quiet,
                          (Samples.trace_of ["rec"; "-q"; "-r"], Returned 0%Z)))
    by (vm_compute; reflexivity).
  split; [exact Hmain|]. split; [vm_compute; left|].
  intros recursive progress Hcall.
  destruct (scan_call_follows_flags Samples.world Samples.st0 _ _ _ _ _ _ _ _ _ Hmain Hcall)
    as (-> & -> & _).
  by split.
Defined.

(** ** Lines of ASCII characters *)

Lemma is_ascii_app (a b : string) : is_ascii (a ++ b) = is_ascii a && is_ascii b.
Proof.
  induction a as [|c a IH]; [done|]. rewrite app_cons. simpl. by rewrite IH, andb_assoc.
Qed.

Lemma is_ascii_str_of_nat n : is_ascii (str_of_nat n) = true.
Proof.
  unfold str_of_nat.
  assert (H : ∀ d, is_ascii (NilEmpty.string_of_uint d) = true).
  { induction d; simpl; done. }
  destruct (Nat.to_uint n); simpl; try done; apply H.
Qed.

Section more_main_2.
Import Cli CliMore.
Context (w : World).

(** X14.  [-q] does not silence the console: [main] then calls
    [setup_logging(level="ERROR")], so after a completed set-up the package
    logger is at [ERROR] and its first handler is the console handler, at
    [ERROR] too; [-v] on the same command line changes nothing. *)
Theorem quiet_keeps_console_at_error (st : Logging.State) (argv : list string)
    (t0 : list event) (args : dict) (st' : Logging.State) (root : string) :
  parse_args w argv = Some (t0, Returned args) →
  given ["-q"; "--quiet"] argv = true →
  Logging.setup_logging (logging_env w) (logging_kwargs args) st = (st', Returned root) →
  ∃ lg h,
    Logging.manager st' !! Logging.package = Some lg
    ∧ Logging.level lg = Logging.ERROR
    ∧ Logging.handlers lg !! 0%nat = Some h
    ∧ Logging.is_console h = true
    ∧ LogControl.handler_level h = Logging.ERROR.
Proof.
  intros Hparse Hgiven Hsetup.
  pose proof (parse_args_flag w _ _ _ _ _ (flag_quiet w) ltac:(done) Hparse) as Hq.
  rewrite default_quiet, Hgiven in Hq. simpl in Hq.
  unfold logging_kwargs in Hsetup. rewrite Hq in Hsetup.
  destruct (setup_logging_package _ _ _ _ _ Hsetup)
    as (config & lv & _ & Hlv & _ & _ & _ & _ & Hlg).
  injection Hlv as <-. rewrite Hlg.
  eexists _, _. split; [reflexivity|]. simpl. by split_and!.
Qed.

(** X15.  The single-file branch, when it runs to its end and standard
    output takes its lines: one call of [transcribe_file], on the [Path]
    of the input, with [output_path=args.output] and
    [save_output=not args.no_save]; with [--no-save] the transcript is the
    only thing printed, otherwise the three lines about the saved file; and
    the exit code is 0. *)
Theorem single_file_output (args : dict) (result : transcription) :
  let lines :=
    if attr_bool args "no_save" then [text result]
    else [(nl ++ "✓ Transcription saved to: " ++ default "N/A" (output_path result))%string;
          ("  Duration: " ++ get_2f w (duration result) ++ "s")%string;
          ("  Processing time: " ++ get_2f w (processing_time result) ++ "s")%string] in
  single_file_completes w args result →
  Forall (writes (stdout w)) lines →
  main_guarded w args
  = (CallTranscribeFile (Path (attr_str args "input")) (attr_opt args "output")
       (Some (negb (attr_bool args "no_save")))
     :: map Print lines,
     Returned 0%Z).
Proof.
  intros lines (Hexists & Hfile & Hext & Hconfig & Htranscriber & Hcall) Hlines.
  assert (Htry : main_try w args
                 = (CallTranscribeFile (Path (attr_str args "input")) (attr_opt args "output")
                      (Some (negb (attr_bool args "no_save")))
                    :: map Print lines,
                    Returned tt)).
  { unfold main_try, validate_input.
    rewrite Hexists, Hfile, bool_decide_eq_true_2 by done. simpl andb. cbv iota.
    rewrite lift_returned_bind, Hconfig, Htranscriber. simpl opt_raise.
    rewrite !ret_bind, Hfile, lift_returned_bind, emit_bind, Hcall, lift_returned_bind.
    unfold lines in *. destruct (attr_bool args "no_save").
    - apply Forall_cons in Hlines as [H1 _]. rewrite H1. reflexivity.
    - apply Forall_cons in Hlines as [H1 [H2 [H3 _]%Forall_cons]%Forall_cons].
      rewrite H1, emit_bind, H2, emit_bind, H3. reflexivity. }
  unfold main_guarded. by rewrite Htry.
Qed.

(** X16.  A rejected input stops [main] before anything is built or
    called: the run logs the one message and returns 1.  The message is
    an error for a path that is not there or has an unsupported suffix,
    and the report of an unexpected error when the look for the path fails
    with an [OSError]. *)
Theorem rejected_input_only_logs (args : dict) :
  let p := Path (attr_str args "input") in
  (path_exists w p = Returned false →
   main_guarded w args
   = ([LogError ("Input path not found: " ++ attr_str args "input")], Returned 1%Z))
  ∧ (path_exists w p = Returned true →
     path_is_file w p = Returned true →
     lower (Logging.unicode (logging_env w)) (path_suffix p) ∉ SUPPORTED_EXTENSIONS w →
     ∃ msg,
       main_guarded w args = ([LogError msg], Returned 1%Z)
       ∧ startswith ("Unsupported file format: " ++ path_suffix p) msg = true)
  ∧ (∀ cls msg, path_exists w p = Raised (Exc (OtherException cls) msg) →
       main_guarded w args = ([LogException ("Unexpected error: " ++ msg)], Returned 1%Z)).
Proof.
  intros p. unfold p, main_guarded, main_try, validate_input. split_and!.
  - by intros ->.
  - intros -> -> Hext. rewrite bool_decide_eq_false_2 by done.
    eexists. split; [reflexivity|].
    rewrite (string_app_assoc "Unsupported file format: "). apply startswith_app.
  - by intros cls msg ->.
Qed.

Lemma consume_extras parser (l : list string) :
  Forall (fun s => startswith "-" s = false) l →
  ∀ ns extras, extras ++ l ≠ [] →
    consume w parser ns [] extras l
    = ([UsageError (UnrecognizedArguments (extras ++ l))], Raised (SystemExit 2)).
Proof.
  induction 1 as [|s l Hs Hl IH]; intros ns extras Hne.
  - rewrite app_nil_r in *. simpl. by destruct extras.
  - rewrite consume_cons, Hs, IH.
    + by rewrite <- app_assoc.
    + by destruct extras.
Qed.

Lemma in_fragment_no_dash parser (l : list string) :
  Forall (fun s => startswith "-" s = false) l → in_fragment parser l = true.
Proof.
  unfold in_fragment. induction 1 as [|s l Hs Hl IH]; simpl; [done|].
  by rewrite Hs, IH.
Qed.

(** X17.  There is one positional argument: a command line of two or
    more words none of which starts with a dash is rejected, with every
    word after the first reported as unrecognised, and the run ends with
    status 2 before logging is set up. *)
Theorem extra_positionals_rejected (st : Logging.State) (a : string) (rest : list string) :
  startswith "-" a = false →
  Forall (fun s => startswith "-" s = false) rest →
  rest ≠ [] →
  main w st (a :: rest)
  = Some (st, ([UsageError (UnrecognizedArguments rest)], Raised (SystemExit 2))).
Proof.
  intros Ha Hrest Hne.
  assert (Hparse : parse_args w (a :: rest)
                   = Some ([UsageError (UnrecognizedArguments rest)], Raised (SystemExit 2))).
  { unfold parse_args. rewrite in_fragment_no_dash by by constructor.
    rewrite consume_cons, Ha. change (positionals (create_parser w)) with ["input"].
    cbv iota. by rewrite consume_extras. }
  unfold main. by rewrite Hparse.
Qed.

Lemma successful_all (results : list dict) :
  has_failures results = false → successful results = length results.
Proof.
  unfold has_failures, successful. induction results as [|r rest IH]; simpl; [done|].
  intros [Hr Hrest]%orb_false_elim.
  rewrite filter_cons, decide_True by done. simpl. by rewrite IH.
Qed.

(** X18.  The summary when no result has an ["error"] field, the empty
    list of results included.  If standard output takes the headline, the
    summary is two lines, the headline and [Successful: n/n], and no list
    of failed files follows; if it does not, nothing is printed and the
    [UnicodeEncodeError] leaves the summary. *)
Theorem summary_without_failures (results : list dict) :
  has_failures results = false →
  (writes (stdout w) (nl ++ "✓ Batch processing complete") →
   print_summary w results
   = ([Print (nl ++ "✓ Batch processing complete");
       Print ("  Successful: " ++ str_of_nat (length results) ++ "/"
              ++ str_of_nat (length results))],
      Returned tt))
  ∧ (∀ msg, encode_error (stdout w) (nl ++ "✓ Batch processing complete") = Some msg →
       print_summary w results = ([], Raised (Exc ValueError msg))).
Proof.
  intros Hnone. unfold print_summary. rewrite (successful_all _ Hnone), Nat.ltb_irrefl.
  split.
  - intros ->. rewrite emit_bind, print_ascii; [done|].
    by rewrite !is_ascii_app, !is_ascii_str_of_nat.
  - intros msg Hmsg.
    assert (Hp : print (stdout w) (nl ++ "✓ Batch processing complete")
                 = ([], Raised (Exc ValueError msg))).
    { unfold print. rewrite Hmsg. reflexivity. }
    by rewrite Hp.
Qed.

End more_main_2.

Lemma quiet_keeps_console_at_error_witness :
  Cli.parse_args Samples.world ["rec"; "-q"; "-v"]
  = Some ([], Returned (Samples.args_of ["rec"; "-q"; "-v"]))
  ∧ CliMore.given ["-q"; "--quiet"] ["rec"; "-q"; "-v"] = true
  ∧ ∃ st' lg h,
      Logging.setup_logging (Cli.logging_env Samples.world)
        (Cli.logging_kwargs (Samples.args_of ["rec"; "-q"; "-v"])) Samples.st0
      = (st', Returned Logging.package)
      ∧ Logging.manager st' !! Logging.package = Some lg
      ∧ Logging.level lg = Logging.ERROR
      ∧ Logging.handlers lg !! 0%nat = Some h
      ∧ Logging.is_console h = true.
Proof.
  assert (Hparse : Cli.parse_args Samples.world ["rec"; "-q"; "-v"]
                   = Some ([], Returned (Samples.args_of ["rec"; "-q"; "-v"])))
    by reflexivity.
  split; [exact Hparse|]. split; [reflexivity|].
  destruct (setup_logging_returns (Cli.logging_env Samples.world)
              (Cli.logging_kwargs (Samples.args_of ["rec"; "-q"; "-v"])) Samples.st0
              Logging.DEFAULT_CONFIG Logging.ERROR)
    as [st' Hsetup]; [reflexivity | reflexivity | by intros f [=] |].
  destruct (quiet_keeps_console_at_error Samples.world Samples.st0 _ _ _ st' _
              Hparse eq_refl Hsetup) as (lg & h & Hlg & Hlevel & Hh & Hconsole & _).
  by exists st', lg, h.
Defined.

Lemma sample_single_file_completes :
  CliMore.single_file_completes Samples.world
    (Samples.args_of ["rec/a.mp3"; "--no-save"]) Samples.hello.
Proof.
  unfold CliMore.single_file_completes.
  split_and!; first [reflexivity | apply (bool_decide_unpack _); reflexivity].
Defined.

Lemma single_file_output_witness :
  CliMore.single_file_completes Samples.world
    (Samples.args_of ["rec/a.mp3"; "--no-save"]) Samples.hello
  ∧ Forall (writes (Cli.stdout Samples.world)) ["hello"]
  ∧ Cli.main_guarded Samples.world (Samples.args_of ["rec/a.mp3"; "--no-save"])
    = ([CallTranscribeFile "rec/a.mp3" None (Some false); Print "hello"], Returned 0%Z).
Proof.
  assert (Hlines : Forall (writes (Cli.stdout Samples.world)) ["hello"])
    by (by repeat constructor).
  split; [exact sample_single_file_completes|]. split; [exact Hlines|].
  exact (single_file_output Samples.world _ _ sample_single_file_completes Hlines).
Defined.

Lemma rejected_input_only_logs_witness :
  (Cli.path_exists Samples.world (Path (Cli.attr_str (Samples.args_of ["missing.mp3"]) "input"))
   = Returned false
   ∧ Cli.main_guarded Samples.world (Samples.args_of ["missing.mp3"])
     = ([LogError "Input path not found: missing.mp3"], Returned 1%Z))
  ∧ (Cli.path_exists Samples.limited_world (Path Samples.long_name)
     = Raised (Samples.name_too_long Samples.long_name)
     ∧ ∃ msg, Cli.main_guarded Samples.limited_world
                (<["input" := PyStr Samples.long_name]> ∅)
              = ([LogException msg], Returned 1%Z)).
Proof.
  split.
  - split; [reflexivity|].
    exact (proj1 (rejected_input_only_logs Samples.world (Samples.args_of ["missing.mp3"]))
             eq_refl).
  - assert (Hraise : Cli.path_exists Samples.limited_world
                       (Path (Cli.attr_str (<["input" := PyStr Samples.long_name]> ∅) "input"))
                     = Raised (Samples.name_too_long Samples.long_name))
      by (vm_compute; reflexivity).
    split; [exact Hraise|]. eexists.
    exact (proj2 (proj2 (rejected_input_only_logs Samples.limited_world
                           (<["input" := PyStr Samples.long_name]> ∅))) _ _ Hraise).
Defined.

Lemma extra_positionals_rejected_witness :
  startswith "-" "a.mp3" = false
  ∧ Forall (fun s => startswith "-" s = false) ["b.mp3"]
  ∧ ["b.mp3"] ≠ ([] : list string)
  ∧ Cli.main Samples.world Samples.st0 ["a.mp3"; "b.mp3"]
    = Some (Samples.st0,
            ([UsageError (UnrecognizedArguments ["b.mp3"])], Raised (SystemExit 2))).
Proof.
  assert (Hrest : Forall (fun s => startswith "-" s = false) ["b.mp3"])
    by (repeat constructor).
  split; [reflexivity|]. split; [exact Hrest|]. split; [done|].
  exact (extra_positionals_rejected Samples.world Samples.st0 "a.mp3" ["b.mp3"]
           eq_refl Hrest ltac:(done)).
Defined.

Lemma summary_without_failures_witness :
  Cli.has_failures [ (<["file" := PyStr "rec/a.mp3"]> ∅ : dict) ] = false
  ∧ writes (Cli.stdout Samples.world) (nl ++ "✓ Batch processing complete")
  ∧ Cli.print_summary Samples.world [ (<["file" := PyStr "rec/a.mp3"]> ∅ : dict) ]
    = ([Print (nl ++ "✓ Batch processing complete"); Print "  Successful: 1/1"],
       Returned tt)
  ∧ ∃ msg,
      Cli.print_summary Samples.ascii_world [ (<["file" := PyStr "rec/a.mp3"]> ∅ : dict) ]
      = ([], Raised (Exc ValueError msg)).
Proof.
  split; [reflexivity|]. split; [reflexivity|]. split.
  - exact (proj1 (summary_without_failures Samples.world
                    [ (<["file" := PyStr "rec/a.mp3"]> ∅ : dict) ] eq_refl) eq_refl).
  - eexists.
    exact (proj2 (summary_without_failures Samples.ascii_world
                    [ (<["file" := PyStr "rec/a.mp3"]> ∅ : dict) ] eq_refl) _ eq_refl).
Defined.

(** ** The version read by setup.py *)

Section setup.
Import Setup Text.

Lemma find_first {A} (f : A -> bool) (pre : list A) (x : A) (post : list A) :
  (∀ l, l ∈ pre → f l = false) → f x = true →
  List.find f (pre ++ x :: post) = Some x.
Proof.
  intros Hpre Hx. induction pre as [|l pre IH]; simpl.
  - by rewrite Hx.
  - rewrite (Hpre l) by left. apply IH. intros l' Hl'. apply Hpre. by right.
Qed.

Lemma find_none {A} (f : A -> bool) (l : list A) :
  (∀ x, x ∈ l → f x = false) → List.find f l = None.
Proof.
  intros Hl. induction l as [|x l IH]; simpl; [done|].
  rewrite (Hl x) by left. apply IH. intros y Hy. apply Hl. by right.
Qed.

Lemma plain_cons c r :
  plain (String c r) = true →
  is_space c = false ∧ Ascii.eqb double_quote c = false
  ∧ Ascii.eqb apostrophe c = false ∧ Ascii.eqb c "=" = false ∧ plain r = true.
Proof.
  simpl. intros H. repeat (apply andb_true_iff in H as [H ?]).
  repeat match goal with H : negb _ = true |- _ => apply negb_true_iff in H end.
  by split_and!.
Qed.

Lemma plain_no_equals v : plain v = true → contains_char "=" v = false.
Proof.
  induction v as [|c v IH]; [done|]. intros (_ & _ & _ & Hc & Hv)%plain_cons.
  simpl. by rewrite Hc, IH.
Qed.

Section strip.
Context (p : ascii -> bool).
Context (Hp : ∀ c r, plain (String c r) = true → p c = false).

Lemma rstrip_plain v t : plain v = true → rstrip_by p (v ++ t) = (v ++ rstrip_by p t)%string.
Proof.
  induction v as [|c v IH]; [done|]. intros Hv.
  pose proof (Hp c v Hv) as Hc. apply plain_cons in Hv as (_ & _ & _ & _ & Hv).
  rewrite !app_cons. cbn [rstrip_by]. rewrite (IH Hv).
  destruct (v ++ rstrip_by p t)%string; [by rewrite Hc | done].
Qed.

Lemma lstrip_plain v t : plain v = true → v ≠ "" → lstrip_by p (v ++ t) = (v ++ t)%string.
Proof.
  destruct v as [|c v]; [done|]. intros Hv _.
  rewrite app_cons. cbn [lstrip_by]. by rewrite (Hp c v Hv).
Qed.

Lemma strip_plain v : plain v = true → strip_by p v = v.
Proof.
  intros Hv. unfold strip_by. destruct v as [|c v]; [done|].
  rewrite <- (app_empty_r (String c v)) at 1. rewrite lstrip_plain by done.
  rewrite rstrip_plain by done. simpl rstrip_by. by rewrite app_empty_r.
Qed.

End strip.

Lemma get_last (x : string) (c : ascii) :
  String.get (String.length x) (x ++ String c "") = Some c.
Proof. induction x as [|a x IH]; [done | exact IH]. Qed.

(** No white-space character ends with a double quote, *)
Lemma not_space_ends_quote (x : string) :
  is_space_char (x ++ String double_quote "") = false.
Proof.
  destruct (is_space_char (x ++ String double_quote "")) eqn:H; [|done]. exfalso.
  pose proof (get_last x double_quote) as Hg.
  assert (Hl : String.length (x ++ String double_quote "") = S (String.length x)).
  { rewrite length_app. simpl. lia. }
  destruct (x ++ String double_quote "")%string as [|c [|c' s]] eqn:Hs.
  - discriminate.
  - simpl in Hl. injection Hl as Hl. rewrite <- Hl in Hg. simpl in Hg.
    injection Hg as ->. discriminate.
  - unfold is_space_char in H. apply existsb_exists in H as (sp & Hin & Heq).
    apply String.eqb_eq in Heq. rewrite <- Heq in Hin. clear Heq sp.
    simpl in Hin.
    repeat (destruct Hin as [Hin|Hin];
            [injection Hin as <- <- <-; simpl in Hl; injection Hl as Hl;
             rewrite <- Hl in Hg; vm_compute in Hg; discriminate |]).
    done.
Qed.

(** so [rstrip] leaves alone what ends with one, *)
Lemma rstrip_quote (x : string) :
  rstrip (x ++ String double_quote "") = (x ++ String double_quote "")%string.
Proof.
  induction x as [|c x IH]; [done|].
  rewrite app_cons. cbn [rstrip]. rewrite IH.
  change (String c (x ++ String double_quote ""))
    with (String c x ++ String double_quote "")%string.
  by rewrite not_space_ends_quote.
Qed.

(** and [strip] takes the blank before a quoted text and nothing else. *)
Lemma strip_quoted (v : string) :
  strip (String " " (String double_quote (v ++ String double_quote "")))
  = String double_quote (v ++ String double_quote "").
Proof.
  unfold strip.
  assert (Hl : lstrip (String " " (String double_quote (v ++ String double_quote "")))
               = String double_quote (v ++ String double_quote "")).
  { unfold lstrip. cbn [String.length lstrip_fuel].
    change (after_space (String " " (String double_quote (v ++ String double_quote ""))))
      with (Some (String double_quote (v ++ String double_quote ""))).
    change (after_space (String double_quote (v ++ String double_quote "")))
      with (@None string).
    done. }
  rewrite Hl.
  change (String double_quote (v ++ String double_quote ""))
    with (String double_quote v ++ String double_quote "")%string.
  apply rstrip_quote.
Qed.

Lemma split_version_line v :
  plain v = true →
  split_on "=" (version_line v)
  = ["__version__ "; String " " (String double_quote (v ++ String double_quote ""))].
Proof.
  intros Hv.
  change (version_line v)
    with ("__version__ " ++ String "=" (String " " (String double_quote
            (v ++ String double_quote ""))))%string.
  rewrite split_on_sep by reflexivity.
  rewrite split_on_absent; [done|].
  change (contains_char "=" (String double_quote (v ++ String double_quote "")) = false).
  change (String double_quote (v ++ String double_quote ""))
    with (String double_quote v ++ String double_quote "")%string.
  rewrite contains_char_app. simpl. by rewrite (plain_no_equals v Hv).
Qed.

(** X19.  The version round trip: when the first line of [__init__.py]
    that starts with [__version__] is [__version__ = "v"], and [v] has no
    blank, quote or [=] in it, [setup.py] reads exactly [v], whatever lines
    come before and after. *)
Theorem read_version_round_trip (pre post : list string) (v : string) :
  (∀ l, l ∈ pre → startswith "__version__" l = false) →
  plain v = true →
  read_version (pre ++ version_line v :: post) = Returned v.
Proof.
  intros Hpre Hv. unfold read_version.
  rewrite (find_first _ pre (version_line v) post Hpre) by reflexivity.
  rewrite (split_version_line v Hv). f_equal.
  assert (Hdq : ∀ c r, plain (String c r) = true → Ascii.eqb double_quote c = false).
  { by intros c r (_ & ? & _)%plain_cons. }
  assert (Hap : ∀ c r, plain (String c r) = true → Ascii.eqb apostrophe c = false).
  { by intros c r (_ & _ & ? & _)%plain_cons. }
  rewrite strip_quoted.
  assert (Hquotes : strip_by (Ascii.eqb double_quote)
                      (String double_quote (v ++ String double_quote "")) = v).
  { unfold strip_by. cbn [lstrip_by]. rewrite Ascii.eqb_refl.
    destruct v as [|c v'] eqn:Hveq.
    - change ("" ++ String double_quote "")%string with (String double_quote "").
      cbn [lstrip_by]. by rewrite Ascii.eqb_refl.
    - rewrite <- Hveq in *. rewrite (lstrip_plain _ Hdq) by (done || by subst).
      rewrite (rstrip_plain _ Hdq) by done. cbn [rstrip_by].
      rewrite Ascii.eqb_refl. by rewrite app_empty_r. }
  rewrite Hquotes. by apply strip_plain.
Qed.

(** X20.  The other ways out of the version loop: without a line that
    starts with [__version__] the version is the default ["1.0.0"]; and
    when the first such line has no [=] in it, the subscript [[1]] fails
    with [IndexError], whatever follows. *)
Theorem read_version_edges (pre post : list string) (line : string) :
  (∀ l, l ∈ pre → startswith "__version__" l = false) →
  read_version pre = Returned "1.0.0"
  ∧ (startswith "__version__" line = true → contains_char "=" line = false →
     ∃ msg, read_version (pre ++ line :: post)
            = Raised (Exc (OtherException "IndexError") msg)).
Proof.
  intros Hpre. unfold read_version. split.
  - by rewrite (find_none _ pre Hpre).
  - intros Hline Hnoeq. rewrite (find_first _ pre line post Hpre Hline).
    rewrite split_on_absent by done. eauto.
Qed.

End setup.

Lemma read_version_round_trip_witness :
  (∀ l, l ∈ ["# Persian Transcriber"; ""] → startswith "__version__" l = false)
  ∧ Setup.plain "2.1.0" = true
  ∧ Setup.read_version
      (["# Persian Transcriber"; ""] ++ Setup.version_line "2.1.0"
         :: ["__version__ = 'x'"])
    = Returned "2.1.0".
Proof.
  assert (Hpre : ∀ l, l ∈ ["# Persian Transcriber"; ""] →
                      startswith "__version__" l = false).
  { intros l Hl. repeat (apply elem_of_cons in Hl as [->|Hl]; [reflexivity|]).
    by apply elem_of_nil in Hl. }
  split; [exact Hpre|]. split; [reflexivity|].
  exact (read_version_round_trip _ _ "2.1.0" Hpre eq_refl).
Defined.

Lemma read_version_edges_witness :
  (∀ l, l ∈ ["import os"] → startswith "__version__" l = false)
  ∧ Setup.read_version ["import os"] = Returned "1.0.0"
  ∧ startswith "__version__" "__version__: str" = true
  ∧ Text.contains_char "=" "__version__: str" = false
  ∧ ∃ msg, Setup.read_version (["import os"] ++ "__version__: str" :: [])
           = Raised (Exc (OtherException "IndexError") msg).
Proof.
  assert (Hpre : ∀ l, l ∈ ["import os"] → startswith "__version__" l = false).
  { intros l Hl. repeat (apply elem_of_cons in Hl as [->|Hl]; [reflexivity|]).
    by apply elem_of_nil in Hl. }
  destruct (read_version_edges ["import os"] [] "__version__: str" Hpre) as [Hdefault Herr].
  split; [exact Hpre|]. split; [exact Hdefault|]. split; [reflexivity|].
  split; [reflexivity|]. exact (Herr eq_refl eq_refl).
Defined.

(** ** The batch loops of the examples, continued *)

Section batch_interrupted.
Import BatchExample.
Context (out : Stdout) (transcribe_file : string -> PyResult transcription).

Lemma example_1_loop_interrupted total (pre post : list string) (f : string) (e : exn) :
  ∀ i results,
    only_Exceptions transcribe_file pre →
    (∀ j g, pre !! j = Some g →
       writes out (processing_line total (i + j) g)
       ∧ writes out (outcome_line (transcribe_file g))) →
    writes out (processing_line total (i + length pre) f) →
    transcribe_file f = Raised e → is_Exception e = false →
    ∃ t, example_1_loop out transcribe_file total i (pre ++ f :: post) results = (t, Raised e)
         ∧ transcribe_calls t = pre ++ [f].
Proof.
  induction pre as [|g pre IH]; intros i results Hpre Hlines Hline Hf He.
  - cbn [app example_1_loop]. unfold example_1_item, handler.
    cbn [length] in Hline. rewrite Nat.add_0_r in Hline.
    rewrite Hline, Hf, He. unfold_M.
    eexists. split; [reflexivity | done].
  - cbn [app example_1_loop].
    destruct (Hlines 0%nat g eq_refl) as [Hfirst Hsecond]. rewrite Nat.add_0_r in Hfirst.
    destruct (example_1_item_spec out transcribe_file total i g results)
      as (t1 & Hitem & Hcalls1); [|done|done|].
    { intros e' He'. eapply Hpre; [left | done]. }
    destruct (IH (S i) (results ++ [outcome_entry g (transcribe_file g)]))
      as (t2 & Hloop & Hcalls2); [| | |done|done|].
    { intros g' e' Hin He'. eapply Hpre; [by right | done]. }
    { intros j g' Hj. rewrite Nat.add_succ_comm. by apply Hlines. }
    { cbn [length] in Hline. by rewrite Nat.add_succ_comm. }
    rewrite Hitem, bind_returned, Hloop. cbn [fst snd].
    exists (t1 ++ t2). split; [done|].
    by rewrite transcribe_calls_app, Hcalls1, Hcalls2.
Qed.

(** X21.  What the [except Exception] clause of
    [example_1_transcribe_directory] does not catch: when the call for the
    file at position [k] raises an exception that is no [Exception] (a
    [KeyboardInterrupt], a [SystemExit]), the calls before it raise
    [Exception]s at most, and standard output takes the lines printed up to
    that call (the two lines of every turn before [k], the first line of
    turn [k]), the loop ends with that exception, no list of results is
    left, and the files after position [k] are never handed to the
    transcriber. *)
Theorem example_1_interrupted (audio_files : list string) (k : nat) (f : string) (e : exn) :
  audio_files !! k = Some f →
  only_Exceptions transcribe_file (take k audio_files) →
  (∀ j g, take k audio_files !! j = Some g →
     writes out (processing_line (length audio_files) (S j) g)
     ∧ writes out (outcome_line (transcribe_file g))) →
  writes out (processing_line (length audio_files) (S k) f) →
  transcribe_file f = Raised e → is_Exception e = false →
  ∃ t, example_1_results out transcribe_file audio_files = (t, Raised e)
       ∧ transcribe_calls t = take (S k) audio_files.
Proof.
  intros Hk Hpre Hlines Hline Hf He. unfold example_1_results.
  assert (Hlen : length (take k audio_files) = k).
  { apply length_take_le. apply lookup_lt_Some in Hk. lia. }
  destruct (example_1_loop_interrupted (length audio_files) (take k audio_files)
              (drop (S k) audio_files) f e 1 [] Hpre) as (t & Hloop & Hcalls);
    [done | by rewrite Hlen | done | done |].
  rewrite (take_drop_middle audio_files k f Hk) in Hloop.
  exists t. split; [exact Hloop|]. by rewrite (take_S_r audio_files k f Hk).
Qed.

End batch_interrupted.

Lemma example_1_interrupted_witness :
  Samples.audio_files !! 1%nat = Some "rec/b.wav"
  ∧ BatchExample.only_Exceptions MoreSamples.interrupted_engine (take 1 Samples.audio_files)
  ∧ MoreSamples.interrupted_engine "rec/b.wav" = Raised (Exc KeyboardInterrupt "")
  ∧ is_Exception (Exc KeyboardInterrupt "") = false
  ∧ ∃ t, BatchExample.example_1_results Samples.utf8_terminal MoreSamples.interrupted_engine
           Samples.audio_files
         = (t, Raised (Exc KeyboardInterrupt ""))
         ∧ transcribe_calls t = ["rec/a.mp3"; "rec/b.wav"].
Proof.
  assert (Hpre : BatchExample.only_Exceptions MoreSamples.interrupted_engine
                   (take 1 Samples.audio_files)).
  { intros g e Hg. apply elem_of_cons in Hg as [->|Hg]; [discriminate|].
    by apply elem_of_nil in Hg. }
  split; [reflexivity|]. split; [exact Hpre|]. split; [reflexivity|]. split; [reflexivity|].
  exact (example_1_interrupted Samples.utf8_terminal MoreSamples.interrupted_engine
           Samples.audio_files 1 "rec/b.wav" (Exc KeyboardInterrupt "") eq_refl Hpre
           (fun j g _ => conj (encodes_all_writes _ _ utf8_terminal_encodes_all)
                              (encodes_all_writes _ _ utf8_terminal_encodes_all))
           (encodes_all_writes _ _ utf8_terminal_encodes_all) eq_refl eq_refl).
Defined.

Section incremental_output.
Import BatchMore.
Context (out : Stdout).
Context {FS : Type}.
Context (file_exists : FS -> string -> PyResult bool).
Context (transcribe_file : FS -> string -> string -> FS * PyResult transcription).
Context (Hout : encodes_all out).

Abbreviation loop := (example_4_loop out file_exists transcribe_file).

Lemma print_written (s : string) : print out s = ([Print s], Returned tt).
Proof. exact (encodes_all_writes out s Hout). Qed.

Lemma keeps_other_outputs_tail f rest :
  keeps_other_outputs file_exists transcribe_file (f :: rest) →
  keeps_other_outputs file_exists transcribe_file rest.
Proof. intros H fs g q Hq. apply H. cbn [map]. by right. Qed.

Lemma exists_answers_tail f rest :
  exists_answers file_exists (f :: rest) → exists_answers file_exists rest.
Proof. intros H fs g Hg. apply H. by right. Qed.

Lemma filter_ext_elem {A} (p q : A -> bool) (l : list A) :
  (∀ x, x ∈ l → p x = q x) → List.filter p l = List.filter q l.
Proof.
  intros H. induction l as [|x l IH]; [done|]. cbn [List.filter].
  rewrite (H x) by left. rewrite IH; [done|]. intros y Hy. apply H. by right.
Qed.

(** A turn for a file whose output is missing: the line, the call and one
    more line, and the loop goes on, whenever the call raises an
    [Exception] at most. *)
Lemma transcribe_one_spec total i f fs :
  (∀ e, (transcribe_file fs f (output_file f)).2 = Raised e → is_Exception e = true) →
  ∃ line,
    transcribe_one out transcribe_file total i f fs
    = ((transcribe_file fs f (output_file f)).1,
       ([Print (progress total i ++ "⟳ Processing: " ++ path_name f);
         CallTranscribeFile f (Some (output_file f)) None;
         Print line], Returned tt)).
Proof.
  intros Hexc. unfold transcribe_one. rewrite !print_written.
  destruct (transcribe_file fs f (output_file f)) as [fs1 [result|e]]; cbn [fst snd] in *.
  - eexists. reflexivity.
  - rewrite (Hexc e eq_refl), print_written. eexists. reflexivity.
Qed.

Lemma example_4_loop_calls total (audio_files : list string) :
  ∀ i fs,
    exists_answers file_exists audio_files →
    keeps_other_outputs file_exists transcribe_file audio_files →
    raises_only_Exceptions transcribe_file →
    NoDup (map output_file audio_files) →
    ∃ fs' t, loop total i audio_files fs = (fs', (t, Returned tt))
      ∧ transcribe_calls t = List.filter (output_missing file_exists fs) audio_files.
Proof.
  induction audio_files as [|f rest IH]; intros i fs Hans Hkeep Hexc Hnodup.
  - by exists fs, [].
  - cbn [map] in Hnodup. apply NoDup_cons in Hnodup as [Hfresh Hnodup].
    pose proof (keeps_other_outputs_tail f rest Hkeep) as Hkeep'.
    pose proof (exists_answers_tail f rest Hans) as Hans'.
    cbn [example_4_loop List.filter]. unfold output_missing at 1.
    destruct (Hans fs f) as [b Hex]; [by left|]. rewrite Hex.
    destruct b.
    + rewrite print_written.
      destruct (IH (S i) fs Hans' Hkeep' Hexc Hnodup) as (fs' & t & -> & Hcalls).
      eexists _, _. split; [reflexivity|]. exact Hcalls.
    + assert (Hsame : ∀ g, g ∈ rest →
                file_exists (transcribe_file fs f (output_file f)).1 (output_file g)
                = file_exists fs (output_file g)).
      { intros g Hg. apply Hkeep.
        - cbn [map]. right. apply list_elem_of_fmap. by exists g.
        - intros Heq. apply Hfresh. rewrite <- Heq. apply list_elem_of_fmap. by exists g. }
      destruct (transcribe_one_spec total i f fs) as [line ->].
      { intros e. apply Hexc. }
      destruct (IH (S i) (transcribe_file fs f (output_file f)).1 Hans' Hkeep' Hexc Hnodup)
        as (fs' & t & -> & Hcalls).
      eexists _, _. split; [reflexivity|].
      cbn [app]. change (transcribe_calls (?a :: ?b :: ?c :: t)) with (f :: transcribe_calls t).
      rewrite Hcalls. f_equal. apply filter_ext_elem. intros g Hg.
      unfold output_missing. by rewrite Hsame.
Qed.

(** X22.  Which files [example_4_incremental_output] transcribes: when
    standard output takes every text, the look for an output file always
    answers, the transcriber leaves the outputs of the other files alone
    and raises [Exception]s at most, and no two files share an output file,
    the loop runs to its end and hands to the transcriber exactly the files
    whose output did not exist when the loop started, in their order. *)
Theorem example_4_transcribes_missing (audio_files : list string) (fs : FS) :
  exists_answers file_exists audio_files →
  keeps_other_outputs file_exists transcribe_file audio_files →
  raises_only_Exceptions transcribe_file →
  NoDup (map output_file audio_files) →
  ∃ fs' t, example_4 out file_exists transcribe_file audio_files fs = (fs', (t, Returned tt))
    ∧ transcribe_calls t = List.filter (output_missing file_exists fs) audio_files.
Proof. apply example_4_loop_calls. Qed.

Lemma example_4_loop_skips total (audio_files : list string) (fs : FS) :
  ∀ i,
    (∀ f, f ∈ audio_files → file_exists fs (output_file f) = Returned true) →
    loop total i audio_files fs
    = (fs, (imap (fun k f => Print (skipping_line total (i + k) f)) audio_files,
            Returned tt)).
Proof.
  induction audio_files as [|f rest IH]; intros i Hall; [done|].
  cbn [example_4_loop imap]. rewrite (Hall f) by left. rewrite print_written.
  rewrite (IH (S i)) by (intros g Hg; apply Hall; by right).
  rewrite Nat.add_0_r. do 3 f_equal. apply imap_ext. intros k g _. cbn.
  by rewrite Nat.add_succ_r.
Qed.

Lemma example_4_loop_outputs total (all : list string) :
  exists_answers file_exists all →
  keeps_other_outputs file_exists transcribe_file all →
  (∀ fs f, ∃ r, (transcribe_file fs f (output_file f)).2 = Returned r
                ∧ file_exists (transcribe_file fs f (output_file f)).1 (output_file f)
                  = Returned true) →
  ∀ audio_files i fs,
    audio_files ⊆ all →
    (loop total i audio_files fs).2.2 = Returned tt
    ∧ ∀ q, q ∈ map output_file all →
        file_exists fs q = Returned true ∨ q ∈ map output_file audio_files →
        file_exists (loop total i audio_files fs).1 q = Returned true.
Proof.
  intros Hans Hkeep Hwrite. induction audio_files as [|f rest IH]; intros i fs Hsub.
  - split; [done|]. intros q _ [Hq|Hq]; [done|]. by apply elem_of_nil in Hq.
  - assert (Hrest : rest ⊆ all) by (intros g Hg; apply Hsub; by right).
    cbn [example_4_loop map].
    destruct (Hans fs f) as [b Hex]; [apply Hsub; by left|]. rewrite Hex.
    destruct b.
    + rewrite print_written.
      destruct (IH (S i) fs Hrest) as [Hret Hfiles].
      destruct (loop total (S i) rest fs) as [fs' [t r]]; cbn [fst snd] in *.
      split; [done|]. intros q Hq [Hq'|Hq']; [by apply Hfiles; [|left]|].
      apply elem_of_cons in Hq' as [->|Hq']; apply Hfiles; auto.
    + destruct (Hwrite fs f) as (result & Hcall & Hwritten).
      pose proof (Hkeep fs f) as Hother.
      destruct (transcribe_one_spec total i f fs) as [line ->].
      { intros e He. rewrite Hcall in He. discriminate. }
      destruct (IH (S i) (transcribe_file fs f (output_file f)).1 Hrest) as [Hret Hfiles].
      destruct (loop total (S i) rest (transcribe_file fs f (output_file f)).1)
        as [fs' [t r]]; cbn [fst snd] in *.
      split; [done|]. intros q Hq Hq'. apply Hfiles; [done|].
      destruct (decide (q = output_file f)) as [->|Hne]; [by left|].
      destruct Hq' as [Hq'|Hq'].
      * left. by rewrite Hother.
      * apply elem_of_cons in Hq' as [->|Hq']; [done | by right].
Qed.

(** X23.  Running [example_4_incremental_output] twice: when standard
    output takes every text, the look for an output file always answers,
    and the transcriber always returns, writes the output file it is given
    and leaves the outputs of the other files alone, a second run over the
    same files calls the transcriber for none of them, prints one
    "Skipping" line per file and leaves the file system as the first run
    left it. *)
Theorem example_4_second_run (audio_files : list string) (fs : FS) :
  exists_answers file_exists audio_files →
  keeps_other_outputs file_exists transcribe_file audio_files →
  (∀ fs f, ∃ r, (transcribe_file fs f (output_file f)).2 = Returned r
                ∧ file_exists (transcribe_file fs f (output_file f)).1 (output_file f)
                  = Returned true) →
  let first := example_4 out file_exists transcribe_file audio_files fs in
  first.2.2 = Returned tt
  ∧ example_4 out file_exists transcribe_file audio_files first.1
    = (first.1,
       (imap (fun k f => Print (skipping_line (length audio_files) (S k) f)) audio_files,
        Returned tt)).
Proof.
  intros Hans Hkeep Hwrite first.
  destruct (example_4_loop_outputs (length audio_files) audio_files Hans Hkeep Hwrite
              audio_files 1 fs) as [Hret Hfiles]; [done|].
  split; [exact Hret|]. unfold example_4 at 1.
  apply (example_4_loop_skips (length audio_files) audio_files first.1 1).
  intros f Hf. apply Hfiles; [|right]; apply list_elem_of_fmap; by exists f.
Qed.

End incremental_output.

Lemma on_disk_cons_ne (fs : list string) (q out : string) :
  q ≠ out → MoreSamples.on_disk (out :: fs) q = MoreSamples.on_disk fs q.
Proof.
  intros Hne. unfold MoreSamples.on_disk. cbn [existsb].
  by rewrite (proj2 (String.eqb_neq q out) Hne).
Qed.

Lemma on_disk_answers (audio_files : list string) :
  BatchMore.exists_answers MoreSamples.on_disk audio_files.
Proof. intros fs f _. by eexists. Qed.

Lemma example_4_transcribes_missing_witness :
  BatchMore.encodes_all Samples.utf8_terminal
  ∧ BatchMore.exists_answers MoreSamples.on_disk MoreSamples.recordings
  ∧ BatchMore.keeps_other_outputs MoreSamples.on_disk MoreSamples.writer MoreSamples.recordings
  ∧ BatchMore.raises_only_Exceptions MoreSamples.writer
  ∧ NoDup (map BatchMore.output_file MoreSamples.recordings)
  ∧ ∃ fs' t,
      BatchMore.example_4 Samples.utf8_terminal MoreSamples.on_disk MoreSamples.writer
        MoreSamples.recordings MoreSamples.disk = (fs', (t, Returned tt))
      ∧ transcribe_calls t = ["recordings/a.mp3"; "recordings/b.mp3"].
Proof.
  assert (Hkeep : BatchMore.keeps_other_outputs MoreSamples.on_disk MoreSamples.writer
                    MoreSamples.recordings).
  { intros fs f q _ Hne. unfold MoreSamples.writer.
    destruct (String.eqb (path_name f) "b.mp3"); cbn [fst]; [done|].
    by apply on_disk_cons_ne. }
  assert (Hexc : BatchMore.raises_only_Exceptions MoreSamples.writer).
  { intros fs f out e. unfold MoreSamples.writer.
    destruct (String.eqb (path_name f) "b.mp3"); cbn [snd]; [|discriminate].
    by intros [= <-]. }
  assert (Hnodup : NoDup (map BatchMore.output_file MoreSamples.recordings)).
  { apply (bool_decide_unpack _). by vm_compute. }
  split; [exact utf8_terminal_encodes_all|]. split; [apply on_disk_answers|].
  split; [exact Hkeep|]. split; [exact Hexc|]. split; [exact Hnodup|].
  exact (example_4_transcribes_missing Samples.utf8_terminal MoreSamples.on_disk
           MoreSamples.writer utf8_terminal_encodes_all MoreSamples.recordings MoreSamples.disk
           (on_disk_answers _) Hkeep Hexc Hnodup).
Defined.

Lemma example_4_second_run_witness :
  BatchMore.encodes_all Samples.utf8_terminal
  ∧ BatchMore.exists_answers MoreSamples.on_disk MoreSamples.recordings
  ∧ BatchMore.keeps_other_outputs MoreSamples.on_disk MoreSamples.sound_writer
      MoreSamples.recordings
  ∧ (∀ fs f, ∃ r,
       (MoreSamples.sound_writer fs f (BatchMore.output_file f)).2 = Returned r
       ∧ MoreSamples.on_disk (MoreSamples.sound_writer fs f (BatchMore.output_file f)).1
           (BatchMore.output_file f) = Returned true)
  ∧ transcribe_calls
      (BatchMore.example_4 Samples.utf8_terminal MoreSamples.on_disk MoreSamples.sound_writer
         MoreSamples.recordings
         (BatchMore.example_4 Samples.utf8_terminal MoreSamples.on_disk
            MoreSamples.sound_writer MoreSamples.recordings MoreSamples.disk).1).2.1 = [].
Proof.
  assert (Hkeep : BatchMore.keeps_other_outputs MoreSamples.on_disk MoreSamples.sound_writer
                    MoreSamples.recordings).
  { intros fs f q _ Hne. by apply on_disk_cons_ne. }
  assert (Hwrite : ∀ fs f, ∃ r,
            (MoreSamples.sound_writer fs f (BatchMore.output_file f)).2 = Returned r
            ∧ MoreSamples.on_disk (MoreSamples.sound_writer fs f (BatchMore.output_file f)).1
                (BatchMore.output_file f) = Returned true).
  { intros fs f. exists Samples.hello. split; [done|].
    unfold MoreSamples.sound_writer, MoreSamples.on_disk. cbn [fst existsb].
    by rewrite String.eqb_refl. }
  split; [exact utf8_terminal_encodes_all|]. split; [apply on_disk_answers|].
  split; [exact Hkeep|]. split; [exact Hwrite|].
  destruct (example_4_second_run Samples.utf8_terminal MoreSamples.on_disk
              MoreSamples.sound_writer utf8_terminal_encodes_all MoreSamples.recordings
              MoreSamples.disk (on_disk_answers _) Hkeep Hwrite) as [_ Hsecond].
  rewrite Hsecond. reflexivity.
Defined.
